(** * python-formatter-thing: segmenter, rule engine and import fixer

    A shallow embedding of [python_formatter_thing] (token_context.py,
    engine.py, fixers.py, rules.py, types.py) together with the properties
    its specification states about it.

    The program leans on three pieces of the Python standard library that
    are not part of the repository: [tokenize.generate_tokens], [ast.parse]
    and [re].  They appear here as parameters (Section variables); the
    string built-ins the fixer calls ([splitlines], [strip], [rstrip],
    [textwrap.dedent], the PEP 263 pattern) are small enough to be written
    out.  A Python [str] is a [string]; the modelled alphabet is ASCII, and
    Python integers are [Z]. *)

From Stdlib Require Import String Ascii List ZArith Bool Lia.
Import ListNotations.
Open Scope string_scope.
Open Scope Z_scope.

(* ------------------------------------------------------------------ *)
(** ** Python string built-ins *)

Module PyStr.

Definition nl : ascii := "010"%char.
Definition cr : ascii := "013"%char.
Definition tab : ascii := "009"%char.
Definition sp : ascii := " "%char.

(** [len s], as a Python integer. *)
Definition len (s : string) : Z := Z.of_nat (String.length s).

(** [s.startswith(p)]. *)
Fixpoint startswith (p s : string) : bool :=
  match p, s with
  | EmptyString, _ => true
  | String a p', String b s' => Ascii.eqb a b && startswith p' s'
  | String _ _, EmptyString => false
  end.

(** [needle in hay] for two strings: substring test. *)
Fixpoint contains (needle hay : string) : bool :=
  startswith needle hay
  || match hay with
     | EmptyString => false
     | String _ hay' => contains needle hay'
     end.

(** [x in xs] for a string and a collection of strings. *)
Definition mem (x : string) (xs : list string) : bool :=
  existsb (String.eqb x) xs.

(** [sep.join(parts)]. *)
Fixpoint join (sep : string) (parts : list string) : string :=
  match parts with
  | [] => ""
  | [p] => p
  | p :: rest => p ++ sep ++ join sep rest
  end.

(** [str.isspace] on one character of the modelled alphabet:
    tab, line feed, vertical tab, form feed, carriage return,
    the separators 0x1c..0x1f and the space. *)
Definition isspace (c : ascii) : bool :=
  let n := nat_of_ascii c in
  ((9 <=? n)%nat && (n <=? 13)%nat)
  || ((28 <=? n)%nat && (n <=? 32)%nat).

Fixpoint lstrip (s : string) : string :=
  match s with
  | EmptyString => EmptyString
  | String c s' => if isspace c then lstrip s' else s
  end.

(** Remove the trailing characters that satisfy [p]. *)
Fixpoint rstrip_by (p : ascii -> bool) (s : string) : string :=
  match s with
  | EmptyString => EmptyString
  | String c s' =>
      match rstrip_by p s' with
      | EmptyString => if p c then EmptyString else String c EmptyString
      | r => String c r
      end
  end.

(** [s.strip()]. *)
Definition strip (s : string) : string := rstrip_by isspace (lstrip s).

(** [s.rstrip("\n")]. *)
Definition rstrip_nl (s : string) : string := rstrip_by (Ascii.eqb nl) s.

(** [s.endswith("\n")]. *)
Fixpoint endswith_nl (s : string) : bool :=
  match s with
  | EmptyString => false
  | String c EmptyString => Ascii.eqb c nl
  | String _ s' => endswith_nl s'
  end.

(** Line boundaries of [str.splitlines] inside the modelled alphabet:
    LF, VT, FF, FS, GS, RS (CR is handled apart because of CR LF). *)
Definition is_linebreak (c : ascii) : bool :=
  let n := nat_of_ascii c in
  (n =? 10)%nat || (n =? 11)%nat || (n =? 12)%nat
  || (n =? 28)%nat || (n =? 29)%nat || (n =? 30)%nat.

(** [s.splitlines(keepends=True)]; [cur] is the line being read,
    reversed.  A trailing partial line is kept, an empty one is not. *)
Fixpoint splitlines_aux (cur : list ascii) (s : string) : list string :=
  let close c := string_of_list_ascii (rev (c ++ cur)%list) in
  match s with
  | EmptyString =>
      match cur with
      | [] => []
      | _ => [string_of_list_ascii (rev cur)]
      end
  | String c s' =>
      if Ascii.eqb c cr then
        match s' with
        | String d s'' =>
            if Ascii.eqb d nl
            then close [d; c] :: splitlines_aux [] s''
            else close [c] :: splitlines_aux [] s'
        | EmptyString => [close [c]]
        end
      else if is_linebreak c then close [c] :: splitlines_aux [] s'
      else splitlines_aux (c :: cur) s'
  end.

Definition splitlines (s : string) : list string := splitlines_aux [] s.

(** ["".join(parts)]. *)
Definition concat (parts : list string) : string := String.concat "" parts.

End PyStr.

(* ------------------------------------------------------------------ *)
(** ** Python list indexing and slicing *)

Module PyList.
Local Open Scope list_scope.

Section Ops.
Context {A : Type}.

Definition len (l : list A) : Z := Z.of_nat (length l).

(** How a slice bound is clipped: a negative bound counts from the
    end, and every bound is brought into [0, len]. *)
Definition clip (n i : Z) : Z :=
  if i <? 0 then Z.max 0 (i + n) else Z.min i n.

(** [l[i:j]]. *)
Definition slice (l : list A) (i j : Z) : list A :=
  let a := clip (len l) i in
  let b := clip (len l) j in
  firstn (Z.to_nat (b - a)) (skipn (Z.to_nat a) l).

(** [del l[i:j]]. *)
Definition del_slice (l : list A) (i j : Z) : list A :=
  let a := clip (len l) i in
  let b := clip (len l) j in
  if a <? b then firstn (Z.to_nat a) l ++ skipn (Z.to_nat b) l else l.

(** [l[i:i] = [x]]. *)
Definition insert_at (l : list A) (i : Z) (x : A) : list A :=
  let a := clip (len l) i in
  firstn (Z.to_nat a) l ++ x :: skipn (Z.to_nat a) l.

(** The position [l[i]] denotes, or [None] for [IndexError]. *)
Definition position (l : list A) (i : Z) : option nat :=
  let k := if i <? 0 then i + len l else i in
  if (0 <=? k) && (k <? len l) then Some (Z.to_nat k) else None.

(** [l[i]]. *)
Definition get (l : list A) (i : Z) : option A :=
  match position l i with
  | Some k => nth_error l k
  | None => None
  end.

(** [del l[i]]. *)
Definition del (l : list A) (i : Z) : option (list A) :=
  match position l i with
  | Some k => Some (firstn k l ++ skipn (S k) l)
  | None => None
  end.
End Ops.
End PyList.

(* ------------------------------------------------------------------ *)
(** ** [textwrap.dedent] and the PEP 263 pattern *)

Module Textwrap.

Definition is_blank_char (c : ascii) : bool :=
  Ascii.eqb c PyStr.sp || Ascii.eqb c PyStr.tab.

(** [text.split("\n")]. *)
Fixpoint split_nl_aux (cur : list ascii) (s : string) : list string :=
  match s with
  | EmptyString => [string_of_list_ascii (rev cur)]
  | String c s' =>
      if Ascii.eqb c PyStr.nl
      then string_of_list_ascii (rev cur) :: split_nl_aux [] s'
      else split_nl_aux (c :: cur) s'
  end.

Definition split_nl (s : string) : list string := split_nl_aux [] s.

(** The longest prefix of spaces and tabs. *)
Fixpoint leading_ws (s : string) : string :=
  match s with
  | String c s' => if is_blank_char c then String c (leading_ws s') else ""
  | EmptyString => ""
  end.

Fixpoint drop_ws (s : string) : string :=
  match s with
  | String c s' => if is_blank_char c then drop_ws s' else s
  | EmptyString => ""
  end.

(** A line made of spaces and tabs only becomes empty
    ([_whitespace_only_re.sub]). *)
Definition blank_out (l : string) : string :=
  match drop_ws l with EmptyString => "" | _ => l end.

(** [_leading_whitespace_re.findall]: the indentation of every line
    that has a character after it. *)
Definition indents (ls : list string) : list string :=
  flat_map (fun l => match drop_ws l with
                     | EmptyString => []
                     | _ => [leading_ws l]
                     end) ls.

Fixpoint common_prefix (a b : string) : string :=
  match a, b with
  | String x a', String y b' =>
      if Ascii.eqb x y then String x (common_prefix a' b') else ""
  | _, _ => ""
  end.

Definition next_margin (margin : option string) (indent : string)
  : option string :=
  match margin with
  | None => Some indent
  | Some m =>
      if PyStr.startswith m indent then Some m
      else if PyStr.startswith indent m then Some indent
      else Some (common_prefix m indent)
  end.

Fixpoint drop (n : nat) (s : string) : string :=
  match n, s with
  | O, _ => s
  | S n', String _ s' => drop n' s'
  | S _, EmptyString => ""
  end.

Definition remove_margin (m l : string) : string :=
  if PyStr.startswith m l then drop (String.length m) l else l.

Definition dedent (text : string) : string :=
  let ls := map blank_out (split_nl text) in
  match fold_left next_margin (indents ls) None with
  | None | Some EmptyString => PyStr.join (String PyStr.nl "") ls
  | Some m => PyStr.join (String PyStr.nl "") (map (remove_margin m) ls)
  end.

End Textwrap.

Module Pep263.

Definition is_word (c : ascii) : bool :=
  let n := nat_of_ascii c in
  ((48 <=? n)%nat && (n <=? 57)%nat)
  || ((65 <=? n)%nat && (n <=? 90)%nat)
  || ((97 <=? n)%nat && (n <=? 122)%nat)
  || (n =? 95)%nat.

(** [coding[:=]\s*([-\w.]+)] matched at the start of [s]. *)
Definition match_here (s : string) : bool :=
  PyStr.startswith "coding" s
  && match Textwrap.drop 6 s with
     | String c r =>
         (Ascii.eqb c ":" || Ascii.eqb c "=")
         && match PyStr.lstrip r with
            | String d _ => is_word d || Ascii.eqb d "-" || Ascii.eqb d "."
            | EmptyString => false
            end
     | EmptyString => false
     end.

(** [_RE_PEP263.search(s)] as a truth value. *)
Fixpoint search (s : string) : bool :=
  match_here s
  || match s with
     | String _ s' => search s'
     | EmptyString => false
     end.

End Pep263.

(* ------------------------------------------------------------------ *)
(** ** Tokens ([tokenize.TokenInfo]) *)

Module Tokenize.

(** The token types of [tokenize] the segmenter tells apart; any other
    type (f-string pieces, soft keywords, ...) is [OTHERTOK] with its
    [token.tok_name]. *)
Inductive token_type : Type :=
| ENDMARKER | NAME | NUMBER | STRING | NEWLINE | INDENT | DEDENT
| OP | COMMENT | NL | ENCODING | ERRORTOKEN
| OTHERTOK (name : string).

Definition token_type_eqb (a b : token_type) : bool :=
  match a, b with
  | ENDMARKER, ENDMARKER | NAME, NAME | NUMBER, NUMBER | STRING, STRING
  | NEWLINE, NEWLINE | INDENT, INDENT | DEDENT, DEDENT | OP, OP
  | COMMENT, COMMENT | NL, NL | ENCODING, ENCODING
  | ERRORTOKEN, ERRORTOKEN => true
  | OTHERTOK x, OTHERTOK y => String.eqb x y
  | _, _ => false
  end.

(** [token.tok_name.get(t.type, str(t.type))]. *)
Definition tok_name (ty : token_type) : string :=
  match ty with
  | ENDMARKER => "ENDMARKER" | NAME => "NAME" | NUMBER => "NUMBER"
  | STRING => "STRING" | NEWLINE => "NEWLINE" | INDENT => "INDENT"
  | DEDENT => "DEDENT" | OP => "OP" | COMMENT => "COMMENT" | NL => "NL"
  | ENCODING => "ENCODING" | ERRORTOKEN => "ERRORTOKEN"
  | OTHERTOK n => n
  end.

(** Positions are (line, column): lines from 1, columns from 0. *)
Definition pos : Type := (Z * Z)%type.

Record TokenInfo : Type := mkTok {
  ttype : token_type;
  tstring : string;
  tstart : pos;
  tend : pos
}.

End Tokenize.
Import Tokenize.

(* ------------------------------------------------------------------ *)
(** ** token_context.py: the statement segmenter *)

Module TokenContext.

Record StatementContext : Type := mkCtx {
  in_function : bool;
  block_stack : list string
}.

(** [StatementContext.has_any_block]. *)
Definition has_any_block (c : StatementContext) (names : list string) : bool :=
  existsb (fun n => PyStr.mem n (block_stack c)) names.

Record TokenStatement : Type := mkStmt {
  start_line : Z;
  start_col : Z;
  end_line : Z;
  end_col : Z;
  token_string : string;
  context : StatementContext
}.

Definition _KW_SUITE : list string :=
  ["def"; "class"; "try"; "except"; "finally"; "with"; "for"; "while";
   "if"; "elif"; "else"].

(** [t.type in (NL, NEWLINE, INDENT, DEDENT, COMMENT)]. *)
Definition is_layout (ty : token_type) : bool :=
  match ty with
  | NL | NEWLINE | INDENT | DEDENT | COMMENT => true
  | _ => false
  end.

Definition _keep_token (t : TokenInfo) : bool :=
  match ttype t with
  | ENCODING | ENDMARKER => false
  | STRING => true
  | _ => true
  end.

Definition _fmt_token (t : TokenInfo) : string :=
  let tname := tok_name (ttype t) in
  match ttype t with
  | NAME => tname ++ ":" ++ tstring t
  | OP => tname ++ ":" ++ tstring t
  | STRING => tname ++ ":<str>"
  | NUMBER => tname ++ ":<num>"
  | NEWLINE => tname ++ ":\n"
  | NL => tname ++ ":\n"
  | INDENT => tname ++ ":<indent>"
  | DEDENT => tname ++ ":<dedent>"
  | COMMENT => tname ++ ":<comment>"
  | _ => tname ++ ":" ++ tstring t
  end.

(** The local variables of [iter_statements]; [stack] is its
    [block_stack]. *)
Record seg_state : Type := mkSeg {
  statements : list TokenStatement;
  buf : list TokenInfo;
  stmt_start : pos;
  paren_depth : Z;
  stack : list string;
  seen_suite_kw : option string;
  suite_armed : bool;
  last_sig : option TokenInfo
}.

Definition seg_init : seg_state :=
  mkSeg [] [] (1, 0) 0 [] None false None.

(** The significant tokens of a buffer: [sig] in [flush]. *)
Definition significant (b : list TokenInfo) : list TokenInfo :=
  filter (fun t => negb (is_layout (ttype t))) b.

(** The fingerprint of the significant tokens. *)
Definition fingerprint (sig : list TokenInfo) : string :=
  PyStr.join " " (map _fmt_token (filter _keep_token sig)).

(** The nested function [flush]. *)
Definition flush (end_tok : option TokenInfo) (s : seg_state) : seg_state :=
  let sig := significant (buf s) in
  match sig with
  | [] =>
      mkSeg (statements s) [] (stmt_start s) (paren_depth s) (stack s)
            (seen_suite_kw s) (suite_armed s) (last_sig s)
  | t0 :: _ =>
      let '(sl, sc) := stmt_start s in
      let '(el, ec) :=
        match end_tok with
        | None => tend (last sig t0)
        | Some e => tend e
        end in
      let ctx := mkCtx (PyStr.mem "def" (stack s)) (stack s) in
      let st := mkStmt sl sc el ec (fingerprint sig) ctx in
      mkSeg (statements s ++ [st])%list [] (stmt_start s) (paren_depth s)
            (stack s) (seen_suite_kw s) (suite_armed s) (last_sig s)
  end.

Definition is_op (t : TokenInfo) (s : string) : bool :=
  token_type_eqb (ttype t) OP && String.eqb (tstring t) s.

(** The turn of the loop [for t in toks], one block of the body after
    the other. *)

(** Bracket depth. *)
Definition next_depth (depth : Z) (t : TokenInfo) : Z :=
  if token_type_eqb (ttype t) OP && PyStr.contains (tstring t) "([{"
  then depth + 1
  else if token_type_eqb (ttype t) OP && PyStr.contains (tstring t) ")]}"
  then Z.max 0 (depth - 1)
  else depth.

Definition is_name (t : TokenInfo) (s : string) : bool :=
  token_type_eqb (ttype t) NAME && String.eqb (tstring t) s.

(** Suite starters, then [async def]: the new [seen_suite_kw] and
    [suite_armed]. *)
Definition detect_suite (depth : Z) (last : option TokenInfo) (t : TokenInfo)
           (ka : option string * bool) : option string * bool :=
  let ka :=
    if token_type_eqb (ttype t) NAME && PyStr.mem (tstring t) _KW_SUITE
       && (depth =? 0)
    then (Some (tstring t), false)
    else ka in
  match last with
  | Some l =>
      if is_name l "async" && is_name t "def" && (depth =? 0)
      then (Some "def", false)
      else ka
  | None => ka
  end.

(** Arming on [":"]: the new [suite_armed] and [last_sig]. *)
Definition arm (depth : Z) (t : TokenInfo) (kw : option string)
           (al : bool * option TokenInfo) : bool * option TokenInfo :=
  if is_op t ":" && (depth =? 0)
     && match kw with Some _ => true | None => false end
  then (true, Some t)
  else al.

(** Disarming on a significant token after [":"]. *)
Definition disarm (t : TokenInfo) (ka : option string * bool)
  : option string * bool :=
  if snd ka && negb (is_layout (ttype t)) && negb (is_op t ":")
  then (None, false)
  else ka.

(** INDENT pushes the armed keyword, DEDENT pops. *)
Definition dent (t : TokenInfo) (stk : list string)
           (ka : option string * bool)
  : list string * (option string * bool) :=
  match ttype t with
  | INDENT =>
      ((if snd ka then
          match fst ka with Some k => (stk ++ [k])%list | None => stk end
        else stk),
       (None, false))
  | DEDENT => (removelast stk, (None, false))
  | _ => (stk, ka)
  end.

(** From the top of the loop body to [buf.append(t)]. *)
Definition advance (s : seg_state) (t : TokenInfo) : seg_state :=
  let depth := next_depth (paren_depth s) t in
  let ka := detect_suite depth (last_sig s) t (seen_suite_kw s, suite_armed s) in
  let al := arm depth t (fst ka) (snd ka, last_sig s) in
  let ka := disarm t (fst ka, fst al) in
  let ska := dent t (stack s) ka in
  let start := match buf s with [] => tstart t | _ => stmt_start s end in
  mkSeg (statements s) (buf s ++ [t])%list start depth (fst ska)
        (fst (snd ska)) (snd (snd ska)) (snd al).

(** End of statement: NEWLINE at bracket depth 0. *)
Definition end_statement (t : TokenInfo) (s : seg_state) : seg_state :=
  if token_type_eqb (ttype t) NEWLINE && (paren_depth s =? 0)
  then flush (Some t) s else s.

(** The last significant token. *)
Definition note_last_sig (t : TokenInfo) (s : seg_state) : seg_state :=
  mkSeg (statements s) (buf s) (stmt_start s) (paren_depth s) (stack s)
        (seen_suite_kw s) (suite_armed s)
        (if is_layout (ttype t) then last_sig s else Some t).

Definition step (s : seg_state) (t : TokenInfo) : seg_state :=
  note_last_sig t (end_statement t (advance s t)).

Definition run (s : seg_state) (toks : list TokenInfo) : seg_state :=
  fold_left step toks s.

(** [iter_statements] after the call of the tokenizer. *)
Definition segment (toks : list TokenInfo) : list TokenStatement :=
  statements (flush None (run seg_init toks)).

Section WithTokenizer.
(** [list(tokenize.generate_tokens(...))]: [None] when the tokenizer
    raises ([TokenError], [IndentationError]). *)
Variable generate_tokens : string -> option (list TokenInfo).

Definition iter_statements (source : string) : option (list TokenStatement) :=
  option_map segment (generate_tokens source).
End WithTokenizer.

(** [while i < len(lines) and lines[i].strip() == "": i += 1], for
    [0 <= i]; [rest] is [lines[i:]]. *)
Fixpoint skip_blank (rest : list string) (i : Z) : Z :=
  match rest with
  | l :: rest' =>
      if String.eqb (PyStr.strip l) "" then skip_blank rest' (i + 1) else i
  | [] => i
  end.

Definition skip_blank_from (lines : list string) (i : Z) : Z :=
  if i <? PyList.len lines
  then skip_blank (skipn (Z.to_nat i) lines) i
  else i.

(** [compute_insertion_line_for_imports]: the 0-based index of the line
    before which new top-level imports go. *)
Definition compute_insertion_line_for_imports
           (source : string) (module_docstring_end : option Z) : Z :=
  let lines := PyStr.splitlines source in
  let i := 0 in
  let i :=
    match lines with
    | l :: _ => if PyStr.startswith "#!" l then i + 1 else i
    | [] => i
    end in
  (* for j in range(i, min(i + 2, len(lines))) *)
  let i0 := i in
  let i :=
    if i0 <? Z.min (i0 + 2) (PyList.len lines) then
      match PyList.get lines i0 with
      | Some l => if Pep263.search l then i0 + 1 else i
      | None => i
      end
    else i in
  let i :=
    if i0 + 1 <? Z.min (i0 + 2) (PyList.len lines) then
      match PyList.get lines (i0 + 1) with
      | Some l => if Pep263.search l then i0 + 2 else i
      | None => i
      end
    else i in
  let i := skip_blank_from lines i in
  match module_docstring_end with
  | Some e =>
      if 0 <? e then skip_blank_from lines (Z.max i e) else i
  | None => i
  end.


End TokenContext.

(* ------------------------------------------------------------------ *)
(** ** rules.py and types.py: the data model *)

Module Rules.

Record MatchContext : Type := mkMatchContext {
  in_function : option bool;
  not_in_blocks : list string
}.

Record MatchSpec : Type := mkMatchSpec {
  context : MatchContext;
  statement_token_regex : string
}.

Record AutoFixSpec : Type := mkAutoFix {
  action : string;
  dedupe : bool
}.

Record Rule : Type := mkRule {
  id : string;
  enabled : bool;
  severity : string;
  description : string;
  match_ : MatchSpec;
  autofix : option AutoFixSpec
}.

Record RuleSet : Type := mkRuleSet {
  version : Z;
  rules : list Rule
}.

End Rules.

Module Types.

Record Violation : Type := mkViolation {
  rule_id : string;
  message : string;
  path : string;
  line : Z;
  col : Z;
  severity : string
}.

End Types.

(* ------------------------------------------------------------------ *)
(** ** engine.py: [check_paths] *)

Module Engine.
Import Rules Types.

Record CheckResults : Type := mkResults {
  violations : list Violation;
  files_checked : Z
}.

(** What [check_paths] can raise: the [ValueError] it builds, what the
    tokenizer raises for a file, and what [re.compile] raises besides
    [re.error], which no handler catches. *)
Inductive exn : Type :=
| ValueError (msg : string)
| TokenizeError (path : string)
| CompileRaised (exc : string).

(** What [re.compile] does with a pattern: it returns the compiled
    pattern, raises [re.error] with a message, or raises an exception of
    another class ([OverflowError] for a repetition count that is too
    large, [RecursionError], ...), given by its class and message. *)
Inductive compile_outcome (Pattern : Type) : Type :=
| ReOk (rx : Pattern)
| ReError (msg : string)
| ReRaises (exc : string).
Arguments ReOk {Pattern} rx.
Arguments ReError {Pattern} msg.
Arguments ReRaises {Pattern} exc.

Section WithLibraries.
(** [re]: compiled patterns, [re.compile] and [Pattern.search] as a
    truth value. *)
Variable Pattern : Type.
Variable re_compile : string -> compile_outcome Pattern.
Variable re_search : Pattern -> string -> bool.
(** [tokenize.generate_tokens]. *)
Variable generate_tokens : string -> option (list TokenInfo).
(** [Path.read_text(encoding="utf-8")]: [None] is [UnicodeDecodeError]. *)
Variable read_text : string -> option string.

Definition compiled_rule : Type := (string * Pattern * Rule)%type.

(** The loop [for r in enabled_rules] that fills [compiled]. *)
Fixpoint compile_loop (enabled_rules : list Rule)
         (compiled : list compiled_rule) : exn + list compiled_rule :=
  match enabled_rules with
  | [] => inr compiled
  | r :: rest =>
      match re_compile (statement_token_regex (match_ r)) with
      | ReOk rx => compile_loop rest (compiled ++ [(id r, rx, r)])%list
      | ReError e =>
          inl (ValueError ("Invalid regex for rule " ++ id r ++ ": " ++ e))
      | ReRaises exc => inl (CompileRaised exc)
      end
  end.

Definition compile_rules (ruleset : RuleSet) : exn + list compiled_rule :=
  compile_loop (filter enabled (rules ruleset)) [].

(** The body of the innermost loop: what one compiled rule appends to
    [violations] for one statement. *)
Definition check_rule (fp : string) (st : TokenContext.TokenStatement)
           (c : compiled_rule) : list Violation :=
  let '(_rid, rx, rule) := c in
  let ctx := context (match_ rule) in
  if match in_function ctx with
     | Some b =>
         negb (Bool.eqb (TokenContext.in_function (TokenContext.context st)) b)
     | None => false
     end
  then []
  else if match not_in_blocks ctx with [] => false | _ => true end
          && TokenContext.has_any_block (TokenContext.context st)
                                        (not_in_blocks ctx)
  then []
  else if negb (re_search rx (TokenContext.token_string st))
  then []
  else [mkViolation (id rule) (description rule) fp
                    (TokenContext.start_line st)
                    (TokenContext.start_col st + 1)
                    (Rules.severity rule)].

(** [for _rid, rx, rule in compiled] and [for st in stmts]. *)
Definition check_statement (fp : string) (compiled : list compiled_rule)
           (acc : list Violation) (st : TokenContext.TokenStatement)
  : list Violation :=
  fold_left (fun a c => (a ++ check_rule fp st c)%list) compiled acc.

Definition check_statements (fp : string) (compiled : list compiled_rule)
           (acc : list Violation) (stmts : list TokenContext.TokenStatement)
  : list Violation :=
  fold_left (check_statement fp compiled) stmts acc.

(** The loop over the files; [log] records the files read so far, in
    order. *)
Fixpoint files_loop (files : list string) (compiled : list compiled_rule)
         (acc : list Violation) (n : Z) (log : list string)
  : list string * (exn + CheckResults) :=
  match files with
  | [] => (log, inr (mkResults acc n))
  | fp :: rest =>
      let log' := (log ++ [fp])%list in
      match read_text fp with
      | None => files_loop rest compiled acc n log'
      | Some src =>
          match TokenContext.iter_statements generate_tokens src with
          | None => (log', inl (TokenizeError fp))
          | Some stmts =>
              files_loop rest compiled
                         (check_statements fp compiled acc stmts)
                         (n + 1) log'
          end
      end
  end.

(** [check_paths]; [files] is what [_iter_files(paths, exts)] yields.
    The first component of the result lists the files that were read. *)
Definition check_paths (files : list string) (ruleset : RuleSet)
  : list string * (exn + CheckResults) :=
  match compile_rules ruleset with
  | inl e => ([], inl e)
  | inr compiled => files_loop files compiled [] 0 []
  end.

End WithLibraries.

End Engine.

(* ------------------------------------------------------------------ *)
(** ** The syntax tree ([ast]) as far as the fixer looks at it *)

Module Ast.

(** Statement nodes.  [FunctionDef], [AsyncFunctionDef], [Try], [Import]
    and [ImportFrom] are the classes the collector has a visitor for;
    [TryStar] is the class of [try] with [except*] clauses (Python 3.11),
    for which it has none; [Expr] records whether its value is a string
    constant; every other statement class is [Other].  [children] lists
    the statements below a node in the order [generic_visit] reaches them
    (for [Try] and [TryStar]: body, handler bodies, orelse, finalbody).
    [end_lineno] is [None] where the attribute is missing. *)
#[warnings="-register-all"]
Inductive stmt : Type :=
| FunctionDef (lineno : Z) (end_lineno : option Z) (body : list stmt)
| AsyncFunctionDef (lineno : Z) (end_lineno : option Z) (body : list stmt)
| Try (lineno : Z) (end_lineno : option Z) (children : list stmt)
| TryStar (lineno : Z) (end_lineno : option Z) (children : list stmt)
| Import (lineno : Z) (end_lineno : option Z)
| ImportFrom (lineno : Z) (end_lineno : option Z)
| Expr (lineno : Z) (end_lineno : option Z) (str_constant : bool)
| Other (lineno : Z) (end_lineno : option Z) (children : list stmt).

(** [ast.Module]: its [body]. *)
Record Module_ : Type := mkModule { body : list stmt }.

Definition lineno (n : stmt) : Z :=
  match n with
  | FunctionDef l _ _ | AsyncFunctionDef l _ _ | Try l _ _ | TryStar l _ _
  | Import l _ | ImportFrom l _ | Expr l _ _ | Other l _ _ => l
  end.

Definition end_lineno (n : stmt) : option Z :=
  match n with
  | FunctionDef _ e _ | AsyncFunctionDef _ e _ | Try _ e _ | TryStar _ e _
  | Import _ e | ImportFrom _ e | Expr _ e _ | Other _ e _ => e
  end.

(** [isinstance(n, (ast.Import, ast.ImportFrom))]. *)
Definition is_import (n : stmt) : bool :=
  match n with
  | Import _ _ | ImportFrom _ _ => true
  | _ => false
  end.

(** An [Expr] whose value is a string constant. *)
Definition is_docstring (n : stmt) : bool :=
  match n with
  | Expr _ _ true => true
  | _ => false
  end.

End Ast.

(* ------------------------------------------------------------------ *)
(** ** fixers.py *)

Module Fixers.
Import Ast.
Local Open Scope list_scope.

Record _ImportSpan : Type := mkSpan {
  sp_lineno : Z;
  sp_end_lineno : Z;
  text : string
}.

(** The attributes of [_ImportCollector]. *)
Record collector : Type := mkCollector {
  in_function : Z;
  in_try : Z;
  offending : list stmt;
  module_docstring_end : option Z
}.

Definition collector_init : collector := mkCollector 0 0 [] None.

Definition enter_function (c : collector) : collector :=
  mkCollector (in_function c + 1) (in_try c) (offending c)
              (module_docstring_end c).
Definition leave_function (c : collector) : collector :=
  mkCollector (in_function c - 1) (in_try c) (offending c)
              (module_docstring_end c).
Definition enter_try (c : collector) : collector :=
  mkCollector (in_function c) (in_try c + 1) (offending c)
              (module_docstring_end c).
Definition leave_try (c : collector) : collector :=
  mkCollector (in_function c) (in_try c - 1) (offending c)
              (module_docstring_end c).

(** [visit_Import] and [visit_ImportFrom]. *)
Definition visit_import (n : stmt) (c : collector) : collector :=
  if (0 <? in_function c) && (in_try c =? 0)
  then mkCollector (in_function c) (in_try c) (offending c ++ [n])
                   (module_docstring_end c)
  else c.

(** [NodeVisitor.visit] on a statement: the dispatch on the node class,
    with [generic_visit] as the loop over the children. *)
Fixpoint visit (n : stmt) (c : collector) : collector :=
  let generic_visit :=
    fix go (ns : list stmt) (c : collector) : collector :=
      match ns with
      | [] => c
      | m :: ns' => go ns' (visit m c)
      end in
  match n with
  | FunctionDef _ _ body => leave_function (generic_visit body (enter_function c))
  | AsyncFunctionDef _ _ body =>
      leave_function (generic_visit body (enter_function c))
  | Try _ _ children => leave_try (generic_visit children (enter_try c))
  | TryStar _ _ children => generic_visit children c
  | Import _ _ => visit_import n c
  | ImportFrom _ _ => visit_import n c
  | Expr _ _ _ => c
  | Other _ _ children => generic_visit children c
  end.

Fixpoint generic_visit (ns : list stmt) (c : collector) : collector :=
  match ns with
  | [] => c
  | m :: ns' => generic_visit ns' (visit m c)
  end.

(** [getattr(n, "end_lineno", n.lineno)]. *)
Definition end_lineno_or_lineno (n : stmt) : Z :=
  match end_lineno n with
  | Some e => e
  | None => lineno n
  end.

Definition visit_Module (tree : Module_) (c : collector) : collector :=
  let c1 :=
    match body tree with
    | n :: _ =>
        if is_docstring n
        then mkCollector (in_function c) (in_try c) (offending c)
                         (Some (end_lineno_or_lineno n))
        else c
    | [] => c
    end in
  generic_visit (body tree) c1.

(** [collector = _ImportCollector(); collector.visit(tree)]. *)
Definition collect (tree : Module_) : collector :=
  visit_Module tree collector_init.

(** [getattr(n, "end_lineno", None) or lineno]. *)
Definition span_end (n : stmt) : Z :=
  match end_lineno n with
  | Some e => if e =? 0 then lineno n else e
  | None => lineno n
  end.

Definition span_of (lines : list string) (n : stmt) : _ImportSpan :=
  let text := PyStr.concat (PyList.slice lines (lineno n - 1) (span_end n)) in
  mkSpan (lineno n) (span_end n) (Textwrap.dedent text).

(** The loop that fills [moved]; [seen] is the set of keys met. *)
Fixpoint moved_loop (dedupe : bool) (spans : list _ImportSpan)
         (moved seen : list string) : list string :=
  match spans with
  | [] => moved
  | sp :: rest =>
      let k := PyStr.strip (text sp) in
      if String.eqb k "" then moved_loop dedupe rest moved seen
      else if dedupe && PyStr.mem k seen
      then moved_loop dedupe rest moved seen
      else moved_loop dedupe rest
             (moved ++ [(PyStr.rstrip_nl (text sp) ++ String PyStr.nl "")%string])
             (k :: seen)
  end.

(** Pairs in decreasing order of [(x[0], x[1])]. *)
Definition pair_ltb (a b : Z * Z) : bool :=
  (fst a <? fst b) || ((fst a =? fst b) && (snd a <? snd b)).
Definition pair_eqb (a b : Z * Z) : bool :=
  (fst a =? fst b) && (snd a =? snd b).

Fixpoint insert_desc (p : Z * Z) (l : list (Z * Z)) : list (Z * Z) :=
  match l with
  | [] => [p]
  | q :: l' =>
      if pair_eqb p q then l
      else if pair_ltb q p then p :: l
      else q :: insert_desc p l'
  end.

(** [sorted({(sp.lineno, sp.end_lineno) for sp in spans}, key=...,
    reverse=True)]: the distinct pairs, largest first. *)
Definition to_remove (spans : list _ImportSpan) : list (Z * Z) :=
  fold_left (fun acc sp => insert_desc (sp_lineno sp, sp_end_lineno sp) acc)
            spans [].

(** What the fixer can raise. *)
Inductive exn : Type := SyntaxError | IndexError.

Definition is_blank (l : string) : bool := String.eqb (PyStr.strip l) "".

(** One turn of the removal loop. *)
Definition remove_span (lines : list string) (se : Z * Z)
  : exn + list string :=
  let '(start, end_) := se in
  let lines1 := PyList.del_slice lines (start - 1) end_ in
  if start - 1 <? PyList.len lines1 then
    match PyList.get lines1 (start - 1) with
    | None => inl IndexError
    | Some l =>
        if is_blank l then
          match PyList.del lines1 (start - 1) with
          | Some lines2 => inr lines2
          | None => inl IndexError
          end
        else inr lines1
    end
  else inr lines1.

Fixpoint remove_loop (rm : list (Z * Z)) (lines : list string)
  : exn + list string :=
  match rm with
  | [] => inr lines
  | se :: rest =>
      match remove_span lines se with
      | inl e => inl e
      | inr lines' => remove_loop rest lines'
      end
  end.

(** The loop over [body[start_idx:]] that finds the end of the leading
    top-level import block. *)
Fixpoint top_import_loop (stmts : list stmt) (top_import_end : option Z)
  : option Z :=
  match stmts with
  | n :: rest =>
      if is_import n
      then top_import_loop rest
             (Some (Z.max (match top_import_end with
                           | Some t => t
                           | None => 0
                           end)
                          (end_lineno_or_lineno n)))
      else top_import_end
  | [] => top_import_end
  end.

Definition top_import_end (tree : Module_) : option Z :=
  let start_idx :=
    match body tree with
    | n :: _ => if is_docstring n then 1%nat else 0%nat
    | [] => 0%nat
    end in
  top_import_loop (skipn start_idx (body tree)) None.

(** [out = "".join(lines); if out and not out.endswith("\n"): out += "\n"]. *)
Definition finish (lines : list string) : string :=
  let out := PyStr.concat lines in
  if negb (String.eqb out "") && negb (PyStr.endswith_nl out)
  then (out ++ String PyStr.nl "")%string
  else out.

(** The insertion, from the insertion point to the result. *)
Definition insert_block (tree : Module_) (doc_end : option Z)
           (moved lines : list string) : exn + string :=
  let insert_i :=
    TokenContext.compute_insertion_line_for_imports (PyStr.concat lines) doc_end in
  let insert_i :=
    match top_import_end tree with
    | Some t => Z.max insert_i t
    | None => insert_i
    end in
  let insert_i := Z.min insert_i (PyList.len lines) in
  let prefix : exn + list string :=
    if 0 <? insert_i then
      match PyList.get lines (insert_i - 1) with
      | Some l => inr (if is_blank l then [] else [String PyStr.nl ""])
      | None => inl IndexError
      end
    else inr [] in
  let suffix : exn + list string :=
    if insert_i <? PyList.len lines then
      match PyList.get lines insert_i with
      | Some l => inr (if is_blank l then [] else [String PyStr.nl ""])
      | None => inl IndexError
      end
    else inr [] in
  match prefix, suffix with
  | inl e, _ => inl e
  | _, inl e => inl e
  | inr prefix, inr suffix =>
      let insertion_block :=
        (PyStr.concat prefix ++ PyStr.concat moved ++ PyStr.concat suffix)%string in
      inr (finish (PyList.insert_at lines insert_i insertion_block))
  end.

Section WithParser.
(** [ast.parse]: [None] is [SyntaxError]. *)
Variable ast_parse : string -> option Module_.

Definition _fix_move_imports_to_top (source : string) (dedupe : bool)
  : exn + string :=
  match ast_parse source with
  | None => inl SyntaxError
  | Some tree =>
      let collector := collect tree in
      match offending collector with
      | [] => inr source
      | _ =>
          let lines := PyStr.splitlines source in
          let spans := map (span_of lines) (offending collector) in
          match moved_loop dedupe spans [] [] with
          | [] => inr source
          | moved =>
              match remove_loop (to_remove spans) lines with
              | inl e => inl e
              | inr lines' =>
                  insert_block tree (module_docstring_end collector)
                               moved lines'
              end
          end
      end
  end.

(** The first loop of [apply_fixes]: the distinct actions of the
    enabled rules that have an autofix, each with the [dedupe] flag of
    the first rule that names it. *)
Fixpoint actions_loop (rs : list Rules.Rule)
         (actions : list (string * bool)) (seen_actions : list string)
  : list (string * bool) :=
  match rs with
  | [] => actions
  | r :: rest =>
      match Rules.enabled r, Rules.autofix r with
      | true, Some af =>
          if PyStr.mem (Rules.action af) seen_actions
          then actions_loop rest actions seen_actions
          else actions_loop rest
                 (actions ++ [(Rules.action af, Rules.dedupe af)])
                 (Rules.action af :: seen_actions)
      | _, _ => actions_loop rest actions seen_actions
      end
  end.

(** The second loop of [apply_fixes]. *)
Fixpoint fix_loop (actions : list (string * bool)) (unsafe : bool)
         (out : string) : exn + string :=
  match actions with
  | [] => inr out
  | (action, dedupe) :: rest =>
      if String.eqb action "move_imports_to_top" then
        match _fix_move_imports_to_top out dedupe with
        | inl e => inl e
        | inr out' => fix_loop rest unsafe out'
        end
      else if negb unsafe then fix_loop rest unsafe out
      else fix_loop rest unsafe out
  end.

Definition apply_fixes (source : string) (ruleset : Rules.RuleSet)
           (unsafe : bool) : exn + string :=
  fix_loop (actions_loop (Rules.rules ruleset) [] []) unsafe source.

End WithParser.

End Fixers.

(* ------------------------------------------------------------------ *)
(** ** Shapes of tokens and sample inputs *)

Module TokenShapes.
Import TokenContext.

(** INDENT or DEDENT. *)
Definition is_dent (ty : token_type) : bool :=
  match ty with INDENT | DEDENT => true | _ => false end.

(** NEWLINE, NL or COMMENT: the layout tokens that are not INDENT or
    DEDENT. *)
Definition is_soft (ty : token_type) : bool :=
  match ty with NEWLINE | NL | COMMENT => true | _ => false end.

(** A significant token that is not an operator (hence no bracket and
    no colon). *)
Definition is_plain (t : TokenInfo) : bool :=
  negb (is_layout (ttype t)) && negb (token_type_eqb (ttype t) OP).

End TokenShapes.

Module Samples.
Import TokenContext.
Local Open Scope list_scope.

Definition tk (ty : token_type) (s : string) (l c l' c' : Z) : TokenInfo :=
  mkTok ty s (l, c) (l', c').

(** The line [if x: y] and what may follow it. *)
Definition compact_if : list TokenInfo :=
  [tk NAME "if" 1 0 1 2; tk NAME "x" 1 3 1 4; tk OP ":" 1 4 1 5].
Definition compact_y : TokenInfo := tk NAME "y" 1 6 1 7.
Definition line_end : TokenInfo := tk NEWLINE "" 1 7 1 8.
Definition an_indent : TokenInfo := tk INDENT "    " 2 0 2 4.

(** The headers of [try:] nested in [try:], then the statement [a]. *)
Definition try1 : TokenInfo := tk NAME "try" 1 0 1 3.
Definition colon1 : TokenInfo := tk OP ":" 1 3 1 4.
Definition newline1 : TokenInfo := tk NEWLINE "" 1 4 1 5.
Definition indent1 : TokenInfo := tk INDENT "    " 2 0 2 4.
Definition try2 : TokenInfo := tk NAME "try" 2 4 2 7.
Definition colon2 : TokenInfo := tk OP ":" 2 7 2 8.
Definition newline2 : TokenInfo := tk NEWLINE "" 2 8 2 9.
Definition indent2 : TokenInfo := tk INDENT "        " 3 0 3 8.
Definition stmt_a : list TokenInfo := [tk NAME "a" 3 8 3 9].
Definition newline3 : TokenInfo := tk NEWLINE "" 3 9 3 10.
End Samples.

Module Streams.
Import TokenContext.
Local Open Scope list_scope.

(** The token stream read so far ends a logical line at bracket depth 0
    (as the segmenter counts it), or nothing has been read. *)
Definition closed_at_newline (pre : list TokenInfo) : bool :=
  match rev pre with
  | [] => true
  | n :: _ =>
      token_type_eqb (ttype n) NEWLINE
      && (fold_left next_depth pre 0 =? 0)
  end.

(** The tokens CPython's pure-Python tokenizer (3.11 and before) yields
    for the two lines [x )] and [(y]: a closing bracket with no opener
    is accepted there. *)
Definition unbalanced : list TokenInfo :=
  [mkTok NAME "x" (1, 0) (1, 1); mkTok OP ")" (1, 2) (1, 3);
   mkTok NEWLINE "" (1, 3) (1, 4);
   mkTok OP "(" (2, 0) (2, 1); mkTok NAME "y" (2, 1) (2, 2);
   mkTok NEWLINE "" (2, 2) (2, 3);
   mkTok ENDMARKER "" (3, 0) (3, 0)].

(** The tokens of the one-line source [x]. *)
Definition one_line : list TokenInfo :=
  [mkTok NAME "x" (1, 0) (1, 1); mkTok NEWLINE "" (1, 1) (1, 2)].
Definition endmarker : TokenInfo := mkTok ENDMARKER "" (2, 0) (2, 0).
End Streams.

Module EngineSamples.
Import TokenContext Rules Types.
Local Open Scope list_scope.

(** A rule on imports inside functions, as a literal pattern. *)
Definition PYFMT001 : Rule :=
  mkRule "PYFMT001" true "error" "imports belong at the top of the module"
         (mkMatchSpec (mkMatchContext (Some true) ["try"; "except"; "finally"])
                      "NAME:import")
         (Some (mkAutoFix "move_imports_to_top" true)).

(** A rule on every import, with no context filter. *)
Definition ANYIMPORT : Rule :=
  mkRule "ANYIMPORT" true "info" "an import"
         (mkMatchSpec (mkMatchContext None []) "NAME:import")
         None.

(** An enabled rule whose pattern is an unclosed group. *)
Definition BROKEN : Rule :=
  mkRule "BROKEN" true "warning" "never compiles"
         (mkMatchSpec (mkMatchContext None []) "(")
         None.

(** An enabled rule whose pattern has a repetition count of 2^32 - 1. *)
Definition HUGE : Rule :=
  mkRule "HUGE" true "warning" "too many repetitions"
         (mkMatchSpec (mkMatchContext None []) "a{4294967295}")
         None.

(** [re.compile] and [Pattern.search] on the patterns of these samples:
    a pattern without metacharacter is searched as a substring, ["("]
    is refused with [re.error], and for the repetition count
    [OverflowError] is raised. *)
Definition sample_compile (p : string) : Engine.compile_outcome string :=
  if String.eqb p "("
  then Engine.ReError "missing ), unterminated subpattern at position 0"
  else if String.eqb p "a{4294967295}"
  then Engine.ReRaises "OverflowError: the repetition number is too large"
  else Engine.ReOk p.
Definition sample_search (p s : string) : bool := PyStr.contains p s.

(** The source with the lines [def f():] and [    import os], and what
    [tokenize.generate_tokens] yields for it. *)
Definition def_import_source : string :=
  "def f():" ++ String PyStr.nl "" ++ "    import os" ++ String PyStr.nl "".

Definition def_import_tokens : list TokenInfo :=
  [mkTok NAME "def" (1, 0) (1, 3); mkTok NAME "f" (1, 4) (1, 5);
   mkTok OP "(" (1, 5) (1, 6); mkTok OP ")" (1, 6) (1, 7);
   mkTok OP ":" (1, 7) (1, 8);
   mkTok NEWLINE (String PyStr.nl "") (1, 8) (1, 9);
   mkTok INDENT "    " (2, 0) (2, 4);
   mkTok NAME "import" (2, 4) (2, 10); mkTok NAME "os" (2, 11) (2, 13);
   mkTok NEWLINE (String PyStr.nl "") (2, 13) (2, 14);
   mkTok DEDENT "" (3, 0) (3, 0); mkTok ENDMARKER "" (3, 0) (3, 0)].

(** The source with the lines [# c] and [import os], and its tokens. *)
Definition comment_import_source : string :=
  "# c" ++ String PyStr.nl "" ++ "import os" ++ String PyStr.nl "".

Definition comment_import_tokens : list TokenInfo :=
  [mkTok COMMENT "# c" (1, 0) (1, 3);
   mkTok NL (String PyStr.nl "") (1, 3) (1, 4);
   mkTok NAME "import" (2, 0) (2, 6); mkTok NAME "os" (2, 7) (2, 9);
   mkTok NEWLINE (String PyStr.nl "") (2, 9) (2, 10);
   mkTok ENDMARKER "" (3, 0) (3, 0)].

Definition sample_tokenizer (source : string) : option (list TokenInfo) :=
  if String.eqb source def_import_source then Some def_import_tokens
  else if String.eqb source comment_import_source then Some comment_import_tokens
  else None.

Definition sample_read (fp : string) : option string :=
  if String.eqb fp "a.py" then Some def_import_source
  else if String.eqb fp "b.py" then Some comment_import_source
  else None.
End EngineSamples.

Module Compiled.
Import Rules Engine.

(** A compiled entry: the rule with its id and its own pattern. *)
Definition well_compiled {Pattern : Type}
           (re_compile : string -> compile_outcome Pattern)
           (c : compiled_rule Pattern) : Prop :=
  fst (fst c) = id (snd c)
  /\ re_compile (statement_token_regex (match_ (snd c))) = ReOk (snd (fst c)).
End Compiled.

Module AstInduction.
Import Ast.

(** Induction over statements with the hypothesis available for every
    child. *)
Section Nested.
Variable P : stmt -> Prop.
Hypothesis HFunctionDef : forall l e body,
    Forall P body -> P (FunctionDef l e body).
Hypothesis HAsyncFunctionDef : forall l e body,
    Forall P body -> P (AsyncFunctionDef l e body).
Hypothesis HTry : forall l e children,
    Forall P children -> P (Try l e children).
Hypothesis HTryStar : forall l e children,
    Forall P children -> P (TryStar l e children).
Hypothesis HImport : forall l e, P (Import l e).
Hypothesis HImportFrom : forall l e, P (ImportFrom l e).
Hypothesis HExpr : forall l e b, P (Expr l e b).
Hypothesis HOther : forall l e children,
    Forall P children -> P (Other l e children).

Fixpoint stmt_nested_ind (n : stmt) : P n :=
  let all :=
    fix all (ns : list stmt) : Forall P ns :=
      match ns with
      | [] => Forall_nil P
      | m :: ns' => Forall_cons m (stmt_nested_ind m) (all ns')
      end in
  match n with
  | FunctionDef l e body => HFunctionDef l e body (all body)
  | AsyncFunctionDef l e body => HAsyncFunctionDef l e body (all body)
  | Try l e children => HTry l e children (all children)
  | TryStar l e children => HTryStar l e children (all children)
  | Import l e => HImport l e
  | ImportFrom l e => HImportFrom l e
  | Expr l e b => HExpr l e b
  | Other l e children => HOther l e children (all children)
  end.
End Nested.
End AstInduction.

Module FixerSpec.
Import Ast.
Local Open Scope list_scope.

(** The imports below [n] that are inside a function and inside no
    [try] statement, in source order; [in_fn] and [in_try] say whether
    [n] itself is inside a function, inside a [try].  A [try] statement
    is a node of class [Try]; [TryStar] counts like any other compound
    statement. *)
Fixpoint unguarded_imports (in_fn in_try : bool) (n : stmt) : list stmt :=
  match n with
  | FunctionDef _ _ body | AsyncFunctionDef _ _ body =>
      flat_map (unguarded_imports true in_try) body
  | Try _ _ children => flat_map (unguarded_imports in_fn true) children
  | Import _ _ | ImportFrom _ _ => if in_fn && negb in_try then [n] else []
  | Expr _ _ _ => []
  | TryStar _ _ children | Other _ _ children =>
      flat_map (unguarded_imports in_fn in_try) children
  end.

(** The imports of a module that the fixer is to relocate. *)
Definition nested_unguarded_imports (tree : Module_) : list stmt :=
  flat_map (unguarded_imports false false) (body tree).

(** The imports below [n], guarded or not. *)
Fixpoint all_imports (n : stmt) : list stmt :=
  match n with
  | FunctionDef _ _ body | AsyncFunctionDef _ _ body => flat_map all_imports body
  | Try _ _ children | TryStar _ _ children | Other _ _ children =>
      flat_map all_imports children
  | Import _ _ | ImportFrom _ _ => [n]
  | Expr _ _ _ => []
  end.

(** The two counters of the collector read as flags, and a collector
    with more offending nodes. *)
Definition flag_fn (c : Fixers.collector) : bool := 0 <? Fixers.in_function c.
Definition flag_try (c : Fixers.collector) : bool :=
  negb (Fixers.in_try c =? 0).

Definition add_offending (c : Fixers.collector) (ns : list stmt)
  : Fixers.collector :=
  Fixers.mkCollector (Fixers.in_function c) (Fixers.in_try c)
                     (Fixers.offending c ++ ns)
                     (Fixers.module_docstring_end c).
End FixerSpec.

Module FixerSamples.
Import Ast Rules.
Local Open Scope list_scope.

(** A text from its lines, each closed by a line feed. *)
Definition text_of (ls : list string) : string :=
  PyStr.concat (map (fun l => (l ++ String PyStr.nl "")%string) ls).

(** The rule set with the one relocation rule. *)
Definition relocation_rules : RuleSet :=
  mkRuleSet 1 [EngineSamples.PYFMT001].

(** One assignment, no line feed at the end. *)
Definition src_plain : string := "x = 1".

(** A function that starts with an import. *)
Definition src_move : string :=
  text_of ["def f():"; "    import os"; "    return os"].
Definition out_move : string :=
  text_of ["import os"; ""; "def f():"; "    return os"].

(** The same, followed by two blank lines. *)
Definition src_trailing : string :=
  text_of ["def f():"; "    import os"; "    return os"; ""; ""].
Definition out_trailing : string :=
  text_of ["import os"; ""; "def f():"; "    return os"; ""; ""].

(** A function whose body, an import, stands on the line of its
    header. *)
Definition src_compact : string :=
  text_of ["import sys"; "def f(): import os"].
Definition out_compact : string :=
  text_of ["import sys"; ""; "def f(): import os"].
Definition out_compact_twice : string :=
  text_of ["import sys"; ""; "def f(): import os"; ""].

(** A function whose whole body is one import. *)
Definition src_only_import : string :=
  text_of ["def f():"; "    import os"].
Definition out_only_import : string :=
  text_of ["import os"; ""; "def f():"].

(** Two imports that share a line, the second running on to the next
    line, followed by a guarded import. *)
Definition src_overlap : string :=
  text_of ["def f():";
           "    import os; from x import (";
           "        a)";
           "    try: import json";
           "    except Exception: pass"].
Definition out_overlap : string :=
  text_of ["import os; from x import (";
           "import os; from x import (";
           "    a)";
           "";
           "def f():";
           "    except Exception: pass"].

(** The source of the repository's test
    [test_move_imports_to_top_preserves_try_imports]; its first line is
    the docstring [doc] between triple double quotes. *)
Definition triple_quote : string :=
  let q := ascii_of_nat 34 in String q (String q (String q "")).
Definition src_test : string :=
  text_of [(triple_quote ++ "doc" ++ triple_quote)%string;
           "";
           "def f():";
           "    import os";
           "    try:";
           "        import json";
           "    except Exception:";
           "        pass";
           "    return os, json"].
Definition out_test : string :=
  text_of [(triple_quote ++ "doc" ++ triple_quote)%string;
           "";
           "import os";
           "";
           "def f():";
           "    try:";
           "        import json";
           "    except Exception:";
           "        pass";
           "    return os, json"].
Definition tree_test : Module_ :=
  mkModule
    [Expr 1 (Some 1) true;
     FunctionDef 3 (Some 9)
       [Import 4 (Some 4);
        Try 5 (Some 8) [Import 6 (Some 6); Other 8 (Some 8) []];
        Other 9 (Some 9) []]].

(** An import guarded by [try] with an [except*] clause. *)
Definition src_trystar : string :=
  text_of ["def f():";
           "    try:";
           "        import json";
           "    except* ImportError:";
           "        json = None";
           "    return json"].
Definition out_trystar : string :=
  text_of ["import json";
           "";
           "def f():";
           "    try:";
           "    except* ImportError:";
           "        json = None";
           "    return json"].
Definition tree_trystar : Module_ :=
  mkModule
    [FunctionDef 1 (Some 6)
       [TryStar 2 (Some 5) [Import 3 (Some 3); Other 5 (Some 5) []];
        Other 6 (Some 6) []]].

Definition tree_plain : Module_ := mkModule [Other 1 (Some 1) []].
Definition tree_move : Module_ :=
  mkModule [FunctionDef 1 (Some 3) [Import 2 (Some 2); Other 3 (Some 3) []]].
Definition tree_compact : Module_ :=
  mkModule [Import 1 (Some 1); FunctionDef 2 (Some 2) [Import 2 (Some 2)]].
Definition tree_out_compact : Module_ :=
  mkModule [Import 1 (Some 1); FunctionDef 3 (Some 3) [Import 3 (Some 3)]].
Definition tree_only_import : Module_ :=
  mkModule [FunctionDef 1 (Some 2) [Import 2 (Some 2)]].
Definition tree_overlap : Module_ :=
  mkModule
    [FunctionDef 1 (Some 5)
       [Import 2 (Some 2); ImportFrom 2 (Some 3);
        Try 4 (Some 5) [Import 4 (Some 4); Other 5 (Some 5) []]]].

(** [ast.parse] on the sample texts; [out_only_import], a [def] with no
    body, is a syntax error, and so is every text not listed. *)
Definition sample_parse (source : string) : option Module_ :=
  if String.eqb source src_test then Some tree_test
  else if String.eqb source src_plain then Some tree_plain
  else if String.eqb source src_move then Some tree_move
  else if String.eqb source src_trailing then Some tree_move
  else if String.eqb source src_compact then Some tree_compact
  else if String.eqb source out_compact then Some tree_out_compact
  else if String.eqb source src_only_import then Some tree_only_import
  else if String.eqb source src_overlap then Some tree_overlap
  else if String.eqb source src_trystar then Some tree_trystar
  else None.
End FixerSamples.

Module Removal.
Import Fixers.
Local Open Scope list_scope.

(** The 0-based line index [i] lies in the span of lines [start..end]. *)
Definition in_span (i : nat) (se : Z * Z) : Prop :=
  fst se - 1 <= Z.of_nat i < snd se.

Definition in_spans (rm : list (Z * Z)) (i : nat) : Prop :=
  exists se, In se rm /\ in_span i se.

(** [thinned rm i l l']: [l'] is [l], whose first line has index [i],
    without the lines of the spans [rm] and without some blank lines;
    the other lines are kept, in order. *)
Inductive thinned (rm : list (Z * Z)) : nat -> list string -> list string -> Prop :=
| thinned_nil i : thinned rm i [] []
| thinned_keep i x l l' :
    ~ in_spans rm i -> thinned rm (S i) l l' -> thinned rm i (x :: l) (x :: l')
| thinned_span i x l l' :
    in_spans rm i -> thinned rm (S i) l l' -> thinned rm i (x :: l) l'
| thinned_blank i x l l' :
    is_blank x = true -> thinned rm (S i) l l' -> thinned rm i (x :: l) l'.

(** Spans in the order of the removal loop, each within the lines above
    the one before: [1 <= start <= end < bound], and the next ones lie
    above [start]. *)
Fixpoint spans_ok (bound : Z) (rm : list (Z * Z)) : Prop :=
  match rm with
  | [] => True
  | se :: rest =>
      1 <= fst se <= snd se /\ snd se < bound /\ spans_ok (fst se) rest
  end.

(** A list without its first element when that one is blank. *)
Definition drop_blank (l : list string) : list string :=
  match l with
  | x :: r => if is_blank x then r else l
  | [] => []
  end.
End Removal.

(* ------------------------------------------------------------------ *)
(** ** More vocabulary for the fixer *)

Module RelocationSpec.
Import Fixers.
Local Open Scope list_scope.

(** The key under which a span is deduplicated, and the text that goes
    into [moved] for it. *)
Definition key (sp : _ImportSpan) : string := PyStr.strip (text sp).
Definition moved_text (sp : _ImportSpan) : string :=
  (PyStr.rstrip_nl (text sp) ++ String PyStr.nl "")%string.

(** A span that has text left once stripped. *)
Definition has_text (sp : _ImportSpan) : bool := negb (String.eqb (key sp) "").

(** The distinct strings of a list, each at its first occurrence;
    [seen] are the strings met before. *)
Fixpoint uniq (seen : list string) (ks : list string) : list string :=
  match ks with
  | [] => []
  | k :: r => if PyStr.mem k seen then uniq seen r else k :: uniq (k :: seen) r
  end.

(** [a] comes before [b] when pairs are sorted on [(x[0], x[1])] in
    reverse. *)
Definition pair_gt (a b : Z * Z) : Prop :=
  fst b < fst a \/ (fst a = fst b /\ snd b < snd a).

Fixpoint strictly_descending (l : list (Z * Z)) : Prop :=
  match l with
  | [] => True
  | a :: r =>
      match r with [] => True | b :: _ => pair_gt a b end
      /\ strictly_descending r
  end.

(** An enabled rule whose autofix action is the relocation, and the
    [dedupe] flag of the first such rule. *)
Definition is_move_rule (r : Rules.Rule) : bool :=
  Rules.enabled r
  && match Rules.autofix r with
     | Some af => String.eqb (Rules.action af) "move_imports_to_top"
     | None => false
     end.

Definition move_rule_dedupe (rs : list Rules.Rule) : option bool :=
  match find is_move_rule rs with
  | Some r => option_map Rules.dedupe (Rules.autofix r)
  | None => None
  end.

(** The entry of an action list for the relocation, if any. *)
Definition find_move (actions : list (string * bool)) : option bool :=
  option_map snd
    (find (fun p => String.eqb (fst p) "move_imports_to_top") actions).

(** The imports below [n] that are inside a function and outside every
    [try] statement, as the specification words it: a [try] guards
    whether its clauses are [except] or [except*], that is for the nodes
    [Try] and [TryStar] alike. *)
Fixpoint outside_every_try (in_fn in_try : bool) (n : Ast.stmt)
  : list Ast.stmt :=
  match n with
  | Ast.FunctionDef _ _ body | Ast.AsyncFunctionDef _ _ body =>
      flat_map (outside_every_try true in_try) body
  | Ast.Try _ _ children | Ast.TryStar _ _ children =>
      flat_map (outside_every_try in_fn true) children
  | Ast.Import _ _ | Ast.ImportFrom _ _ =>
      if in_fn && negb in_try then [n] else []
  | Ast.Expr _ _ _ => []
  | Ast.Other _ _ children =>
      flat_map (outside_every_try in_fn in_try) children
  end.

Definition imports_outside_every_try (tree : Ast.Module_) : list Ast.stmt :=
  flat_map (outside_every_try false false) (Ast.body tree).

(** The relocation rule of the samples, switched off. *)
Definition PYFMT001_disabled : Rules.Rule :=
  Rules.mkRule "PYFMT001" false "error"
    "imports belong at the top of the module"
    (Rules.mkMatchSpec
       (Rules.mkMatchContext (Some true) ["try"; "except"; "finally"])
       "NAME:import")
    (Some (Rules.mkAutoFix "move_imports_to_top" true)).

End RelocationSpec.

(* ------------------------------------------------------------------ *)
(** ** Vocabulary for the properties of the segmenter *)

Module SegmentSpec.
Import Tokenize TokenContext.
Local Open Scope list_scope.

(** A remembered suite keyword is one of [_KW_SUITE]. *)
Definition kw_ok (k : option string) : Prop :=
  match k with Some k => In k _KW_SUITE | None => True end.

Definition context_ok (st : TokenStatement) : Prop :=
  in_function (context st) = PyStr.mem "def" (block_stack (context st))
  /\ Forall (fun k => In k _KW_SUITE) (block_stack (context st)).

Definition state_ok (s : seg_state) : Prop :=
  Forall context_ok (statements s)
  /\ Forall (fun k => In k _KW_SUITE) (stack s)
  /\ kw_ok (seen_suite_kw s).

(** Number of NEWLINE tokens. *)
Definition newlines (toks : list TokenInfo) : nat :=
  length (filter (fun t => token_type_eqb (ttype t) NEWLINE) toks).

(** A statement whose two positions are positions of tokens consumed. *)
Definition placed (consumed : list TokenInfo) (st : TokenStatement) : Prop :=
  exists a b, In a consumed /\ In b consumed
              /\ (start_line st, start_col st) = tstart a
              /\ (end_line st, end_col st) = tend b.

Definition state_placed (consumed : list TokenInfo) (s : seg_state) : Prop :=
  Forall (placed consumed) (statements s)
  /\ (forall t, In t (buf s) -> In t consumed)
  /\ (buf s <> [] -> exists a, In a consumed /\ stmt_start s = tstart a).

(** The token types whose text the segmenter never reads: literals,
    layout tokens, and the two types that [_keep_token] drops. *)
Definition text_ignored (ty : token_type) : bool :=
  match ty with
  | STRING | NUMBER | NEWLINE | NL | INDENT | DEDENT | COMMENT
  | ENCODING | ENDMARKER => true
  | _ => false
  end.

(** Two tokens of the same type, with the same text unless the text of
    that type is ignored; their positions are free. *)
Definition alike (t t' : TokenInfo) : Prop :=
  ttype t = ttype t'
  /\ (text_ignored (ttype t) = false -> tstring t = tstring t').

(** What a rule is matched against: the fingerprint and the context. *)
Definition view (st : TokenStatement) : string * StatementContext :=
  (token_string st, context st).

Definition alike_opt (a b : option TokenInfo) : Prop :=
  match a, b with
  | Some x, Some y => alike x y
  | None, None => True
  | _, _ => False
  end.

Definition sim (s s' : seg_state) : Prop :=
  map view (statements s) = map view (statements s')
  /\ Forall2 alike (buf s) (buf s')
  /\ paren_depth s = paren_depth s'
  /\ stack s = stack s'
  /\ seen_suite_kw s = seen_suite_kw s'
  /\ suite_armed s = suite_armed s'
  /\ alike_opt (last_sig s) (last_sig s').

(** A token with its text blanked when ignored, at position (0, 0). *)
Definition blank (t : TokenInfo) : TokenInfo :=
  mkTok (ttype t) (if text_ignored (ttype t) then "" else tstring t)
        (0, 0) (0, 0).

End SegmentSpec.

Module SegmentSamples.
Import Tokenize TokenContext Samples.
Local Open Scope list_scope.

(** What [tokenize.generate_tokens] yields for the lines [def f():],
    [    match x:], [        case 1: pass] and [    import os], in four
    parts: up to the header of the [match] block, the INDENT that opens the
    block, its one line, and the DEDENT that closes it; then the rest. *)
Definition match_header : list TokenInfo :=
  [tk NAME "def" 1 0 1 3; tk NAME "f" 1 4 1 5; tk OP "(" 1 5 1 6;
   tk OP ")" 1 6 1 7; tk OP ":" 1 7 1 8;
   tk NEWLINE (String PyStr.nl "") 1 8 1 9;
   tk INDENT "    " 2 0 2 4;
   tk NAME "match" 2 4 2 9; tk NAME "x" 2 10 2 11; tk OP ":" 2 11 2 12;
   tk NEWLINE (String PyStr.nl "") 2 12 2 13].
Definition match_indent : TokenInfo := tk INDENT "        " 3 0 3 8.
Definition match_body : list TokenInfo :=
  [tk NAME "case" 3 8 3 12; tk NUMBER "1" 3 13 3 14; tk OP ":" 3 14 3 15;
   tk NAME "pass" 3 16 3 20; tk NEWLINE (String PyStr.nl "") 3 20 3 21].
Definition match_dedent : TokenInfo := tk DEDENT "" 4 4 4 4.
Definition match_rest : list TokenInfo :=
  [tk NAME "import" 4 4 4 10; tk NAME "os" 4 11 4 13;
   tk NEWLINE (String PyStr.nl "") 4 13 4 14;
   tk DEDENT "" 5 0 5 0; tk ENDMARKER "" 5 0 5 0].
Definition match_tokens : list TokenInfo :=
  match_header ++ match_indent :: match_body ++ match_dedent :: match_rest.

(** What [tokenize.generate_tokens] yields for the lines
    [if x: y = 1 if a else 2], [match v:] and [    case 1: pass]: the
    compact suite, then the rest; and the compact suite [if x: y = 1]. *)
Definition compact_ternary : list TokenInfo :=
  [tk NAME "if" 1 0 1 2; tk NAME "x" 1 3 1 4; tk OP ":" 1 4 1 5;
   tk NAME "y" 1 6 1 7; tk OP "=" 1 8 1 9; tk NUMBER "1" 1 10 1 11;
   tk NAME "if" 1 12 1 14; tk NAME "a" 1 15 1 16; tk NAME "else" 1 17 1 21;
   tk NUMBER "2" 1 22 1 23; tk NEWLINE (String PyStr.nl "") 1 23 1 24].
Definition compact_assign : list TokenInfo :=
  [tk NAME "if" 1 0 1 2; tk NAME "x" 1 3 1 4; tk OP ":" 1 4 1 5;
   tk NAME "y" 1 6 1 7; tk OP "=" 1 8 1 9; tk NUMBER "1" 1 10 1 11;
   tk NEWLINE (String PyStr.nl "") 1 11 1 12].
Definition match_after_compact : list TokenInfo :=
  [tk NAME "match" 2 0 2 5; tk NAME "v" 2 6 2 7; tk OP ":" 2 7 2 8;
   tk NEWLINE (String PyStr.nl "") 2 8 2 9;
   tk INDENT "    " 3 0 3 4;
   tk NAME "case" 3 4 3 8; tk NUMBER "1" 3 9 3 10; tk OP ":" 3 10 3 11;
   tk NAME "pass" 3 12 3 16; tk NEWLINE (String PyStr.nl "") 3 16 3 17;
   tk DEDENT "" 4 0 4 0; tk ENDMARKER "" 4 0 4 0].

End SegmentSamples.

(* ------------------------------------------------------------------ *)
(** ** engine.py: the results of [check_paths], and [fix_paths] *)

Module EngineSpec.
Import Rules Types Engine.
Local Open Scope list_scope.

Section WithLibraries.
Variable Pattern : Type.
Variable re_search : Pattern -> string -> bool.
Variable generate_tokens : string -> option (list TokenInfo).
Variable read_text : string -> option string.

(** The file can be read as UTF-8. *)
Definition decodable (fp : string) : bool :=
  match read_text fp with Some _ => true | None => false end.

(** The file cannot be read, or its text goes through the tokenizer. *)
Definition tokenizes (fp : string) : bool :=
  match read_text fp with
  | Some src =>
      match TokenContext.iter_statements generate_tokens src with
      | Some _ => true
      | None => false
      end
  | None => true
  end.

(** The violations of one file: statement by statement, and rule by
    rule for each statement. *)
Definition file_violations (compiled : list (compiled_rule Pattern))
           (fp : string) : list Violation :=
  match read_text fp with
  | Some src =>
      match TokenContext.iter_statements generate_tokens src with
      | Some stmts =>
          flat_map (fun st => flat_map (check_rule Pattern re_search fp st)
                                       compiled) stmts
      | None => []
      end
  | None => []
  end.

End WithLibraries.

(** The files of [EngineSamples.sample_read], and one whose text, an
    open bracket, the tokenizer refuses. *)
Definition sample_read_open (fp : string) : option string :=
  if String.eqb fp "c.py" then Some "x = ("
  else EngineSamples.sample_read fp.

End EngineSpec.

Module EngineFix.
Import Rules.
Local Open Scope list_scope.

(** The files as [Path.read_text(encoding="utf-8")] finds them: [None]
    is [UnicodeDecodeError]. *)
Definition store : Type := string -> option string.

(** [fp.write_text(out, encoding="utf-8")]: the next [read_text] of [fp]
    gives [out]. *)
Definition write_text (st : store) (fp out : string) : store :=
  fun p => if String.eqb p fp then Some out else st p.

(** What [fix_paths] does to the outside: a file written, or a line on
    [sys.stderr] for a file skipped. *)
Inductive event : Type :=
| Wrote (fp out : string)
| Skipped (fp : string).

Section WithParser.
Variable ast_parse : string -> option Ast.Module_.

(** The loop of [fix_paths] over what [_iter_files(paths, exts)] yields.
    The result is the files at the end, the events in order, and the
    exception that ended the loop, if one did: [SyntaxError] is caught,
    anything else [apply_fixes] raises is not. *)
Fixpoint fix_files (files : list string) (ruleset : RuleSet) (unsafe : bool)
         (st : store) (log : list event)
  : store * list event * option Fixers.exn :=
  match files with
  | [] => (st, log, None)
  | fp :: rest =>
      match st fp with
      | None => fix_files rest ruleset unsafe st log
      | Some src =>
          match Fixers.apply_fixes ast_parse src ruleset unsafe with
          | inl Fixers.SyntaxError =>
              fix_files rest ruleset unsafe st (log ++ [Skipped fp])
          | inl e => (st, log, Some e)
          | inr out =>
              if negb (String.eqb out src)
              then fix_files rest ruleset unsafe (write_text st fp out)
                             (log ++ [Wrote fp out])
              else fix_files rest ruleset unsafe st log
          end
      end
  end.

Definition fix_paths (files : list string) (ruleset : RuleSet) (unsafe : bool)
           (st : store) : store * list event * option Fixers.exn :=
  fix_files files ruleset unsafe st [].

(** A write of [fix_paths]: the file is one of those listed, and the text
    is what [apply_fixes] made of a text that differs from it. *)
Definition fixed_text (ruleset : RuleSet) (unsafe : bool)
           (files : list string) (fp out : string) : Prop :=
  In fp files
  /\ exists src, Fixers.apply_fixes ast_parse src ruleset unsafe = inr out
                 /\ out <> src.

(** A file as [fix_paths] may leave it: as it was, or -- when it could be
    read at the start -- with a text written by [fix_paths]. *)
Definition touched_ok (ruleset : RuleSet) (unsafe : bool)
           (files : list string) (st0 st : store) : Prop :=
  forall p, st p = st0 p
            \/ (st0 p <> None
                /\ exists out, st p = Some out
                               /\ fixed_text ruleset unsafe files p out).

Definition event_ok (ruleset : RuleSet) (unsafe : bool)
           (files : list string) (e : event) : Prop :=
  match e with
  | Wrote fp out => fixed_text ruleset unsafe files fp out
  | Skipped fp => In fp files
  end.

End WithParser.

(** The files of the samples: one that parses and has nothing to
    relocate, one that does not parse; any other cannot be decoded. *)
Definition sample_store : store :=
  fun p => if String.eqb p "plain.py" then Some FixerSamples.src_plain
           else if String.eqb p "broken.py" then Some "def f(:"
           else None.

End EngineFix.

(* ------------------------------------------------------------------ *)
(** ** rules.py: [load_rules] *)

Module RulesLoader.
Import Rules.

(** What [json.loads] returns. A [dict] is the list of its items, the
    first item with a key being its entry; of a [float] only the truth
    value is kept, the one thing [load_rules] can look at. *)
#[warnings="-register-all"]
Inductive json : Type :=
| JNull
| JBool (b : bool)
| JInt (n : Z)
| JFloat (nonzero : bool)
| JStr (s : string)
| JList (items : list json)
| JObj (entries : list (string * json)).

(** The classes [load_rules] tests with [isinstance]. *)
Inductive pytype : Type := TInt | TList | TStr | TDict | TBool.

(** [typ.__name__]. *)
Definition type_name (typ : pytype) : string :=
  match typ with
  | TInt => "int" | TList => "list" | TStr => "str" | TDict => "dict"
  | TBool => "bool"
  end.

(** [isinstance(v, typ)]; [bool] is a subclass of [int]. *)
Definition isinstance (v : json) (typ : pytype) : bool :=
  match typ, v with
  | TInt, JInt _ | TInt, JBool _ => true
  | TList, JList _ => true
  | TStr, JStr _ => true
  | TDict, JObj _ => true
  | TBool, JBool _ => true
  | _, _ => false
  end.

(** [bool(v)]. *)
Definition truthy (v : json) : bool :=
  match v with
  | JNull => false
  | JBool b => b
  | JInt n => negb (n =? 0)
  | JFloat nonzero => nonzero
  | JStr s => negb (String.eqb s "")
  | JList items => match items with [] => false | _ :: _ => true end
  | JObj entries => match entries with [] => false | _ :: _ => true end
  end.

(** [d[key]] when [key in d]. *)
Fixpoint lookup (d : list (string * json)) (key : string) : option json :=
  match d with
  | [] => None
  | (k, v) :: rest => if String.eqb k key then Some v else lookup rest key
  end.

(** [d.get(key, default)]. *)
Definition get (d : list (string * json)) (key : string) (default : json)
  : json :=
  match lookup d key with Some v => v | None => default end.

(** The value of a checked entry, as the type it was checked to have. *)
Definition str_value (v : json) : string :=
  match v with JStr s => s | _ => "" end.
Definition int_value (v : json) : Z :=
  match v with JInt n => n | JBool true => 1 | _ => 0 end.
Definition list_value (v : json) : list json :=
  match v with JList l => l | _ => [] end.
Definition dict_value (v : json) : list (string * json) :=
  match v with JObj d => d | _ => [] end.

(** [str(i)] for a number that is not negative. *)
Fixpoint string_of_uint (d : Decimal.uint) : string :=
  match d with
  | Decimal.Nil => ""
  | Decimal.D0 d => String "0" (string_of_uint d)
  | Decimal.D1 d => String "1" (string_of_uint d)
  | Decimal.D2 d => String "2" (string_of_uint d)
  | Decimal.D3 d => String "3" (string_of_uint d)
  | Decimal.D4 d => String "4" (string_of_uint d)
  | Decimal.D5 d => String "5" (string_of_uint d)
  | Decimal.D6 d => String "6" (string_of_uint d)
  | Decimal.D7 d => String "7" (string_of_uint d)
  | Decimal.D8 d => String "8" (string_of_uint d)
  | Decimal.D9 d => String "9" (string_of_uint d)
  end.
Definition str_of_nat (i : nat) : string := string_of_uint (Nat.to_uint i).

Inductive exn : Type :=
| RulesFormatError (msg : string).

Definition bind {A B : Type} (x : exn + A) (k : A -> exn + B) : exn + B :=
  match x with inl e => inl e | inr a => k a end.

Definition raise_unless {A : Type} (ok : bool) (msg : string)
           (k : exn + A) : exn + A :=
  if ok then k else inl (RulesFormatError msg).

(** [_expect]. *)
Definition _expect (d : list (string * json)) (key : string) (typ : pytype)
           (where_ : string) : exn + json :=
  match lookup d key with
  | None =>
      inl (RulesFormatError ("Missing key '" ++ key ++ "' in " ++ where_))
  | Some v =>
      if isinstance v typ then inr v
      else inl (RulesFormatError
                  ("Key '" ++ key ++ "' in " ++ where_ ++ " must be "
                   ++ type_name typ))
  end.

(** [sev in ("error", "warning", "info")]. *)
Definition severity_ok (sev : json) : bool :=
  match sev with
  | JStr s => PyStr.mem s ["error"; "warning"; "info"]
  | _ => false
  end.

(** [isinstance(x, list) and all(isinstance(i, str) for i in x)]. *)
Definition list_of_str (v : json) : bool :=
  match v with
  | JList l => forallb (fun x => isinstance x TStr) l
  | _ => false
  end.

(** The [autofix] entry of a rule. *)
Definition load_autofix (rr : list (string * json)) (where_ : string)
  : exn + option AutoFixSpec :=
  match get rr "autofix" JNull with
  | JNull => inr None
  | raw_autofix =>
      raise_unless (isinstance raw_autofix TDict)
        (where_ ++ ".autofix must be an object or null")
        (bind (_expect (dict_value raw_autofix) "action" TStr
                       (where_ ++ ".autofix"))
           (fun action =>
              let dedupe :=
                truthy (get (dict_value raw_autofix) "dedupe" (JBool true)) in
              inr (Some (mkAutoFix (str_value action) dedupe))))
  end.

(** The body of the loop [for i, rr in enumerate(raw_rules)]. *)
Definition load_rule (i : nat) (rr : json) : exn + Rule :=
  let where_ := "rules[" ++ str_of_nat i ++ "]" in
  raise_unless (isinstance rr TDict) (where_ ++ " must be an object")
    (let rr := dict_value rr in
     bind (_expect rr "id" TStr where_) (fun rid =>
     let enabled := truthy (get rr "enabled" (JBool true)) in
     let sev := get rr "severity" (JStr "error") in
     raise_unless (severity_ok sev)
       (where_ ++ ".severity must be one of error|warning|info")
     (bind (_expect rr "description" TStr where_) (fun desc =>
      bind (_expect rr "match" TDict where_) (fun match_ =>
      let match_ := dict_value match_ in
      let ctx := get match_ "context" (JObj []) in
      raise_unless (isinstance ctx TDict)
        (where_ ++ ".match.context must be an object")
      (let ctx := dict_value ctx in
       let in_fn := get ctx "in_function" JNull in
       raise_unless (match in_fn with
                     | JNull => true
                     | _ => isinstance in_fn TBool
                     end)
         (where_ ++ ".match.context.in_function must be boolean or null")
       (let not_in_blocks := get ctx "not_in_blocks" (JList []) in
        raise_unless (list_of_str not_in_blocks)
          (where_ ++ ".match.context.not_in_blocks must be a list of strings")
        (bind (_expect match_ "statement_token_regex" TStr
                       (where_ ++ ".match")) (fun stmt_re =>
         bind (load_autofix rr where_) (fun autofix =>
         inr (mkRule (str_value rid) enabled (str_value sev)
                     (str_value desc)
                     (mkMatchSpec
                        (mkMatchContext
                           (match in_fn with
                            | JBool b => Some b
                            | _ => None
                            end)
                           (map str_value (list_value not_in_blocks)))
                        (str_value stmt_re))
                     autofix))))))))))).

Fixpoint load_loop (i : nat) (raw_rules : list json) (rules : list Rule)
  : exn + list Rule :=
  match raw_rules with
  | [] => inr rules
  | rr :: rest =>
      match load_rule i rr with
      | inl e => inl e
      | inr r => load_loop (S i) rest (rules ++ [r])%list
      end
  end.

(** [load_rules], from the value that [json.loads] returned. *)
Definition load_rules (raw : json) : exn + RuleSet :=
  raise_unless (isinstance raw TDict) "Rules file must be a JSON object"
    (let raw := dict_value raw in
     bind (_expect raw "version" TInt "rules file") (fun version =>
     bind (_expect raw "rules" TList "rules file") (fun raw_rules =>
     bind (load_loop 0 (list_value raw_rules) []) (fun rules =>
     inr (mkRuleSet (int_value version) rules))))).

(** The message of an exception. *)
Definition message (e : exn) : string :=
  match e with RulesFormatError msg => msg end.

(** An exception whose message holds [w]. *)
Definition names_index (w : string) (e : exn) : Prop :=
  PyStr.contains w (message e) = true.

(** A rule as a JSON object with every key that [load_rules] reads. *)
Definition autofix_to_json (a : option AutoFixSpec) : json :=
  match a with
  | None => JNull
  | Some af => JObj [("action", JStr (action af)); ("dedupe", JBool (dedupe af))]
  end.

Definition rule_to_json (r : Rule) : json :=
  JObj [("id", JStr (id r));
        ("enabled", JBool (enabled r));
        ("severity", JStr (severity r));
        ("description", JStr (description r));
        ("match",
         JObj [("context",
                JObj [("in_function",
                       match in_function (context (match_ r)) with
                       | Some b => JBool b
                       | None => JNull
                       end);
                      ("not_in_blocks",
                       JList (map JStr (not_in_blocks (context (match_ r)))))]);
               ("statement_token_regex",
                JStr (statement_token_regex (match_ r)))]);
        ("autofix", autofix_to_json (autofix r))].

Definition ruleset_to_json (rs : RuleSet) : json :=
  JObj [("version", JInt (version rs));
        ("rules", JList (map rule_to_json (rules rs)))].

(** What a loaded rule has of its JSON object. *)
Definition loaded_from (rr : json) (r : Rule) : Prop :=
  exists d, rr = JObj d
            /\ lookup d "id" = Some (JStr (id r))
            /\ lookup d "description" = Some (JStr (description r))
            /\ enabled r = truthy (get d "enabled" (JBool true))
            /\ In (severity r) ["error"; "warning"; "info"].

(** A rule object with the three keys that are required and no other. *)
Definition minimal_rule (rid desc re : string) : json :=
  JObj [("id", JStr rid); ("description", JStr desc);
        ("match", JObj [("statement_token_regex", JStr re)])].

End RulesLoader.

(* ------------------------------------------------------------------ *)
(** ** cli.py: the extensions given on the command line *)

Module Cli.

(** [s.split(",")]. *)
Fixpoint split_comma (s : string) : list string :=
  match s with
  | EmptyString => [""]%list
  | String c s' =>
      if Ascii.eqb c ","%char then (""%string :: split_comma s')%list
      else match split_comma s' with
           | (h :: t)%list => (String c h :: t)%list
           | nil => [String c ""]%list
           end
  end.

(** [e.strip() if e.strip().startswith(".") else f".{e.strip()}"]. *)
Definition normalize_ext (e : string) : string :=
  if PyStr.startswith "." (PyStr.strip e) then PyStr.strip e
  else "." ++ PyStr.strip e.

(** The tuple [exts] of [main], from [args.extensions]. *)
Definition parse_extensions (extensions : string) : list string :=
  map normalize_ext
      (filter (fun e => negb (String.eqb (PyStr.strip e) ""))
              (split_comma extensions)).

End Cli.

(* ------------------------------------------------------------------ *)
(** ** cli.py: [_print_grouped] *)

Module CliOutput.
Import Types.

(** [str(z)] for an integer. *)
Definition str_of_Z (z : Z) : string :=
  if z <? 0 then "-" ++ RulesLoader.str_of_nat (Z.to_nat (- z))
  else RulesLoader.str_of_nat (Z.to_nat z).

(** [a <= b] for two strings: code point by code point, a prefix
    first. *)
Fixpoint str_leb (a b : string) : bool :=
  match a, b with
  | EmptyString, _ => true
  | String _ _, EmptyString => false
  | String x a', String y b' =>
      if (nat_of_ascii x <? nat_of_ascii y)%nat then true
      else if (nat_of_ascii x =? nat_of_ascii y)%nat then str_leb a' b'
      else false
  end.

(** [p <= q] for two tuples: the first components decide unless they
    are equal. *)
Definition lex_leb {A B : Type} (leA : A -> A -> bool) (leB : B -> B -> bool)
           (p q : A * B) : bool :=
  if leA (fst p) (fst q) && leA (fst q) (fst p)
  then leB (snd p) (snd q)
  else leA (fst p) (fst q).

(** [sorted(l, key=key)], by insertion; equal keys keep their order. *)
Fixpoint insert_sorted {A : Type} (le : A -> A -> bool) (x : A) (l : list A)
  : list A :=
  match l with
  | nil => [x]%list
  | (y :: r)%list =>
      if le x y then (x :: l)%list else (y :: insert_sorted le x r)%list
  end.

Definition sorted {A : Type} (le : A -> A -> bool) (l : list A) : list A :=
  fold_right (insert_sorted le) nil l.

Definition sorted_on {A K : Type} (le : K -> K -> bool) (key : A -> K)
           (l : list A) : list A :=
  sorted (fun a b => le (key a) (key b)) l.

(** A [dict] from strings to lists of violations, in insertion order. *)
Definition groups : Type := list (string * list Violation).

(** [d.setdefault(k, []).append(v)]. *)
Fixpoint setdefault_append (d : groups) (k : string) (v : Violation) : groups :=
  match d with
  | nil => [(k, [v])]%list
  | ((k', l) :: r)%list =>
      if String.eqb k' k then ((k', l ++ [v]) :: r)%list
      else ((k', l) :: setdefault_append r k v)%list
  end.

(** [for v in vios: d.setdefault(key(v), []).append(v)]. *)
Definition group_by (key : Violation -> string) (vios : list Violation)
  : groups :=
  fold_left (fun d v => setdefault_append d (key v) v) vios nil.

(** [d[k]], for a key of [d]. *)
Fixpoint dict_get (d : groups) (k : string) : list Violation :=
  match d with
  | nil => nil
  | ((k', l) :: r)%list => if String.eqb k' k then l else dict_get r k
  end.

(** [sorted(d)]: the keys, in order. *)
Definition sorted_keys (d : groups) : list string :=
  sorted str_leb (map fst d).

Definition eol : string := String PyStr.nl "".

(** The keys of the three sorts. *)
Definition key_rule_line_col (v : Violation) : string * (Z * Z) :=
  (rule_id v, (line v, col v)).
Definition key_path_line_col (v : Violation) : string * (Z * Z) :=
  (path v, (line v, col v)).
Definition key_line_col (v : Violation) : Z * Z := (line v, col v).

Definition leb_str_line_col : string * (Z * Z) -> string * (Z * Z) -> bool :=
  lex_leb str_leb (lex_leb Z.leb Z.leb).
Definition leb_line_col : Z * Z -> Z * Z -> bool := lex_leb Z.leb Z.leb.

(** The lines written. *)
Definition file_header (p : string) : string := p ++ eol.
Definition file_line (v : Violation) : string :=
  "  " ++ str_of_Z (line v) ++ ":" ++ str_of_Z (col v) ++ " " ++ rule_id v
  ++ " " ++ message v ++ eol.
Definition rule_header (rid : string) (v0 : Violation) : string :=
  rid ++ " (" ++ severity v0 ++ ") " ++ message v0 ++ eol.
Definition rule_line (v : Violation) : string :=
  "  " ++ path v ++ ":" ++ str_of_Z (line v) ++ ":" ++ str_of_Z (col v) ++ eol.
Definition loc (v : Violation) : string :=
  str_of_Z (line v) ++ ":" ++ str_of_Z (col v).
Definition rule_file_line (p : string) (locs : list Violation) : string :=
  "  " ++ p ++ " (" ++ RulesLoader.str_of_nat (length locs) ++ "): "
  ++ PyStr.join ", " (map loc locs) ++ eol.

(** The branch [group == "file"]. *)
Definition print_by_file (vios : list Violation) : list string :=
  let by_file := group_by path vios in
  flat_map (fun p =>
              (file_header p
               :: map file_line
                      (sorted_on leb_str_line_col key_rule_line_col
                                 (dict_get by_file p)))%list)
           (sorted_keys by_file).

(** What is written for one rule id, in the other branch; [rv] is
    [by_rule[rid]], which has a first element. *)
Definition print_rule (group : string) (rid : string) (rv : list Violation)
  : list string :=
  match rv with
  | nil => nil
  | (v0 :: _)%list =>
      (rule_header rid v0
       :: (if String.eqb group "rule"
           then map rule_line (sorted_on leb_str_line_col key_path_line_col rv)
           else
             let by_file := group_by path rv in
             map (fun p =>
                    rule_file_line p
                      (sorted_on leb_line_col key_line_col (dict_get by_file p)))
                 (sorted_keys by_file)))%list
  end.

(** [_print_grouped]: the strings written to [sys.stdout], in order. *)
Definition _print_grouped (violations : list Violation) (group : string)
  : list string :=
  match violations with
  | nil => nil
  | _ =>
      if String.eqb group "file" then print_by_file violations
      else
        let by_rule := group_by rule_id violations in
        flat_map (fun rid => print_rule group rid (dict_get by_rule rid))
                 (sorted_keys by_rule)
  end.

(** The violations with the key [k], in their order. *)
Definition with_key (key : Violation -> string) (k : string)
           (vios : list Violation) : list Violation :=
  filter (fun v => String.eqb (key v) k) vios.

(** A dictionary as grouping leaves it: distinct keys, and under each
    key the violations that have it, in their order, at least one. *)
Definition grouped (key : Violation -> string) (vios : list Violation)
           (d : groups) : Prop :=
  NoDup (map fst d)
  /\ (forall k, In k (map fst d) <-> In k (map key vios))
  /\ (forall k, dict_get d k = with_key key k vios).

(** Ascending in the sense of [le]: every element is below all that
    follow it. *)
Fixpoint ascending {A : Type} (le : A -> A -> bool) (l : list A) : Prop :=
  match l with
  | nil => True
  | (x :: r)%list => Forall (fun y => le x y = true) r /\ ascending le r
  end.

(** An order that compares any two elements and is transitive. *)
Definition total_preorder {A : Type} (le : A -> A -> bool) : Prop :=
  (forall x y, le x y = true \/ le y x = true)
  /\ (forall x y z, le x y = true -> le y z = true -> le x z = true).

(** The sections of the output by rule: the rule id, the violation the
    header is taken from, and the violations listed. *)
Record rule_section : Type := mkRuleSection {
  sec_rule : string;
  sec_first : Violation;
  sec_listed : list Violation
}.

(** The sections of the output by file. *)
Record file_section : Type := mkFileSection {
  sec_path : string;
  sec_lines : list Violation
}.

(** The sections of the output by rule and file: under each rule, the
    files with their locations. *)
Record rule_file_section : Type := mkRuleFileSection {
  rf_rule : string;
  rf_first : Violation;
  rf_files : list file_section
}.

End CliOutput.

(* ------------------------------------------------------------------ *)
(** ** Facts about the segmenter's loop *)

Module SegmenterFacts.
Import TokenContext TokenShapes.
Local Open Scope list_scope.

Ltac flush_case e s :=
  unfold flush; destruct (significant (buf s)); [reflexivity|];
  destruct (stmt_start s), (match e with None => _ | Some _ => _ end);
  reflexivity.

Lemma flush_stack e s : stack (flush e s) = stack s.
Proof. flush_case e s. Qed.
Lemma flush_armed e s : suite_armed (flush e s) = suite_armed s.
Proof. flush_case e s. Qed.
Lemma flush_depth e s : paren_depth (flush e s) = paren_depth s.
Proof. flush_case e s. Qed.
Lemma flush_kw e s : seen_suite_kw (flush e s) = seen_suite_kw s.
Proof. flush_case e s. Qed.
Lemma flush_buf e s : buf (flush e s) = [].
Proof. flush_case e s. Qed.

(** The control part of the state after one token is that of [advance]. *)
Lemma step_stack_advance s t : stack (step s t) = stack (advance s t).
Proof.
  unfold step, end_statement. simpl.
  destruct (_ && _); [apply flush_stack | reflexivity].
Qed.
Lemma step_armed_advance s t : suite_armed (step s t) = suite_armed (advance s t).
Proof.
  unfold step, end_statement. simpl.
  destruct (_ && _); [apply flush_armed | reflexivity].
Qed.
Lemma step_kw_advance s t : seen_suite_kw (step s t) = seen_suite_kw (advance s t).
Proof.
  unfold step, end_statement. simpl.
  destruct (_ && _); [apply flush_kw | reflexivity].
Qed.
Lemma step_depth s t : paren_depth (step s t) = next_depth (paren_depth s) t.
Proof.
  unfold step, end_statement. simpl.
  destruct (_ && _); [apply flush_depth | reflexivity].
Qed.


(** Only INDENT and DEDENT touch the block stack. *)
Lemma step_stack s t : is_dent (ttype t) = false -> stack (step s t) = stack s.
Proof.
  intros H. rewrite step_stack_advance. unfold advance, dent. simpl.
  destruct (ttype t); simpl in *; try discriminate; reflexivity.
Qed.

Lemma run_app s a b : run s (a ++ b) = run (run s a) b.
Proof. unfold run. apply fold_left_app. Qed.

Lemma run_cons s t l : run s (t :: l) = run (step s t) l.
Proof. reflexivity. Qed.

Lemma run_stack toks : forall s,
  forallb (fun t => negb (is_dent (ttype t))) toks = true ->
  stack (run s toks) = stack s.
Proof.
  induction toks as [|t toks IH]; intros s H; [reflexivity|]. simpl in H.
  apply andb_true_iff in H as [Ht Hr]. apply negb_true_iff in Ht.
  rewrite run_cons, IH by assumption. now apply step_stack.
Qed.

(** A significant token other than [":"] leaves the suite disarmed. *)
Lemma step_disarms s t :
  is_layout (ttype t) = false -> is_op t ":" = false ->
  suite_armed (step s t) = false.
Proof.
  intros Hl Hc. rewrite step_armed_advance. unfold advance. simpl.
  unfold dent, disarm, arm. rewrite Hl, Hc. simpl.
  destruct (ttype t) eqn:E; simpl in Hl; try discriminate;
    rewrite andb_true_r;
    destruct (snd (detect_suite _ _ _ _)); reflexivity.
Qed.

Lemma soft_not_name t s : is_soft (ttype t) = true -> is_name t s = false.
Proof. unfold is_name. destruct (ttype t); simpl; congruence. Qed.
Lemma soft_not_op t s : is_soft (ttype t) = true -> is_op t s = false.
Proof. unfold is_op. destruct (ttype t); simpl; congruence. Qed.

Lemma detect_suite_not_name d l t ka :
  token_type_eqb (ttype t) NAME = false -> detect_suite d l t ka = ka.
Proof.
  intros H. unfold detect_suite, is_name. rewrite H. simpl.
  destruct l; [|reflexivity]. now rewrite andb_false_r.
Qed.

(** Line ends and comments leave [suite_armed] as it is. *)
Lemma step_soft_armed s t :
  is_soft (ttype t) = true -> suite_armed (step s t) = suite_armed s.
Proof.
  intros H. rewrite step_armed_advance. unfold advance. simpl.
  rewrite detect_suite_not_name by (destruct (ttype t); simpl in *; congruence).
  unfold dent, disarm, arm. rewrite (soft_not_op _ _ H). simpl.
  destruct (ttype t) eqn:E; simpl in H; try discriminate; simpl;
    rewrite andb_false_r; reflexivity.
Qed.

Lemma run_soft_armed toks : forall s,
  forallb (fun t => is_soft (ttype t)) toks = true ->
  suite_armed (run s toks) = suite_armed s.
Proof.
  induction toks as [|t toks IH]; intros s H; [reflexivity|]. simpl in H.
  apply andb_true_iff in H as [Ht Hr].
  rewrite run_cons, IH by assumption. now apply step_soft_armed.
Qed.

Lemma soft_not_dent toks :
  forallb (fun t => is_soft (ttype t)) toks = true ->
  forallb (fun t => negb (is_dent (ttype t))) toks = true.
Proof.
  rewrite !forallb_forall. intros H t Ht. specialize (H t Ht).
  destruct (ttype t); simpl in *; congruence.
Qed.

(** INDENT on a disarmed state pushes nothing. *)
Lemma step_indent_disarmed s t :
  ttype t = INDENT -> suite_armed s = false -> stack (step s t) = stack s.
Proof.
  intros Ht Ha. rewrite step_stack_advance. unfold advance. simpl.
  rewrite detect_suite_not_name by (now rewrite Ht).
  unfold dent, disarm, arm, is_op. rewrite Ht. simpl. now rewrite Ha.
Qed.

(** INDENT on an armed state pushes the keyword seen. *)
Lemma step_indent_armed s t k :
  ttype t = INDENT -> suite_armed s = true -> seen_suite_kw s = Some k ->
  stack (step s t) = stack s ++ [k]
  /\ suite_armed (step s t) = false
  /\ paren_depth (step s t) = paren_depth s.
Proof.
  intros Ht Ha Hk. rewrite step_stack_advance, step_armed_advance, step_depth.
  unfold advance, next_depth. simpl.
  rewrite detect_suite_not_name by (now rewrite Ht).
  unfold dent, disarm, arm, is_op. rewrite Ht. simpl. now rewrite Ha, Hk.
Qed.

Lemma is_name_inv t n : is_name t n = true -> ttype t = NAME /\ tstring t = n.
Proof.
  unfold is_name. intros H. apply andb_true_iff in H as [H1 H2].
  apply String.eqb_eq in H2. split; [|assumption].
  destruct (ttype t); simpl in H1; try discriminate; reflexivity.
Qed.

Lemma is_op_inv t n : is_op t n = true -> ttype t = OP /\ tstring t = n.
Proof.
  unfold is_op. intros H. apply andb_true_iff in H as [H1 H2].
  apply String.eqb_eq in H2. split; [|assumption].
  destruct (ttype t); simpl in H1; try discriminate; reflexivity.
Qed.

(** A suite keyword at depth 0 is remembered. *)
Lemma step_keyword s t :
  ttype t = NAME -> PyStr.mem (tstring t) _KW_SUITE = true ->
  paren_depth s = 0 ->
  seen_suite_kw (step s t) = Some (tstring t)
  /\ suite_armed (step s t) = false
  /\ paren_depth (step s t) = 0
  /\ stack (step s t) = stack s.
Proof.
  intros Ht Hk Hd.
  rewrite step_kw_advance, step_armed_advance, step_depth, step_stack_advance.
  unfold advance, next_depth. simpl. rewrite Ht, Hd. simpl.
  assert (E : detect_suite 0 (last_sig s) t (seen_suite_kw s, suite_armed s)
              = (Some (tstring t), false)).
  { unfold detect_suite. rewrite Ht, Hk. simpl.
    destruct (last_sig s) as [l|]; [|reflexivity].
    destruct (is_name l "async" && is_name t "def" && true) eqn:E; [|reflexivity].
    apply andb_true_iff in E as [E _]. apply andb_true_iff in E as [_ E].
    apply is_name_inv in E as [_ E]. now rewrite E. }
  rewrite E. unfold dent, disarm, arm, is_op. rewrite Ht. simpl. auto.
Qed.

(** [":"] at depth 0 after a suite keyword arms the suite. *)
Lemma step_colon s t k :
  is_op t ":" = true -> paren_depth s = 0 -> seen_suite_kw s = Some k ->
  seen_suite_kw (step s t) = Some k
  /\ suite_armed (step s t) = true
  /\ paren_depth (step s t) = 0
  /\ stack (step s t) = stack s.
Proof.
  intros Ht Hd Hk. pose proof (is_op_inv _ _ Ht) as [Hty Hs].
  rewrite step_kw_advance, step_armed_advance, step_depth, step_stack_advance.
  unfold advance, next_depth. simpl. rewrite Hty, Hs, Hd. simpl.
  rewrite detect_suite_not_name by (now rewrite Hty).
  unfold dent, disarm, arm. rewrite Ht, Hty, Hk. simpl. auto.
Qed.

(** NEWLINE changes none of depth, keyword, arming and stack. *)
Lemma step_newline s t :
  ttype t = NEWLINE ->
  seen_suite_kw (step s t) = seen_suite_kw s
  /\ suite_armed (step s t) = suite_armed s
  /\ paren_depth (step s t) = paren_depth s
  /\ stack (step s t) = stack s.
Proof.
  intros Ht.
  rewrite step_kw_advance, step_armed_advance, step_depth, step_stack_advance.
  unfold advance, next_depth. simpl. rewrite Ht. simpl.
  rewrite detect_suite_not_name by (now rewrite Ht).
  unfold dent, disarm, arm, is_op. rewrite Ht. simpl.
  rewrite andb_false_r. auto.
Qed.

(** A suite header [kw : NEWLINE INDENT] at depth 0 pushes [kw]. *)
Lemma run_header s k c n i :
  ttype k = NAME -> PyStr.mem (tstring k) _KW_SUITE = true ->
  is_op c ":" = true -> ttype n = NEWLINE -> ttype i = INDENT ->
  paren_depth s = 0 ->
  stack (run s [k; c; n; i]) = stack s ++ [tstring k]
  /\ paren_depth (run s [k; c; n; i]) = 0.
Proof.
  intros Hk Hm Hc Hn Hi Hd.
  destruct (step_keyword s k Hk Hm Hd) as (K1 & A1 & D1 & S1).
  destruct (step_colon (step s k) c _ Hc D1 K1) as (K2 & A2 & D2 & S2).
  destruct (step_newline (step (step s k) c) n Hn) as (K3 & A3 & D3 & S3).
  rewrite K2 in K3. rewrite A2 in A3. rewrite D2 in D3.
  destruct (step_indent_armed _ i _ Hi A3 K3) as (S4 & A4 & D4).
  rewrite !run_cons. change (run ?x []) with x. rewrite S4, S3, S2, S1, D4, D3. auto.
Qed.

(** A significant token that is not an operator is buffered and
    changes neither statements, depth nor stack. *)
Lemma step_plain s t :
  is_plain t = true ->
  statements (step s t) = statements s
  /\ buf (step s t) = buf s ++ [t]
  /\ paren_depth (step s t) = paren_depth s
  /\ stack (step s t) = stack s.
Proof.
  unfold is_plain. intros H. apply andb_true_iff in H as [Hl Ho].
  apply negb_true_iff in Hl, Ho.
  rewrite step_depth. split; [|split; [|split]].
  - unfold step, end_statement.
    destruct (ttype t); simpl in *; try discriminate; reflexivity.
  - unfold step, end_statement.
    destruct (ttype t); simpl in *; try discriminate; reflexivity.
  - unfold next_depth. now rewrite Ho.
  - apply step_stack. destruct (ttype t); simpl in *; try discriminate; reflexivity.
Qed.

Lemma run_plain body : forall s,
  forallb is_plain body = true ->
  statements (run s body) = statements s
  /\ buf (run s body) = buf s ++ body
  /\ paren_depth (run s body) = paren_depth s
  /\ stack (run s body) = stack s.
Proof.
  induction body as [|t body IH]; intros s H.
  - simpl. rewrite app_nil_r. auto.
  - simpl in H. apply andb_true_iff in H as [Ht Hb].
    rewrite run_cons. destruct (IH (step s t) Hb) as (A & B & C & D).
    destruct (step_plain s t Ht) as (A' & B' & C' & D').
    rewrite A, B, C, D, A', B', C', D', <- app_assoc. auto.
Qed.

Lemma significant_app a b : significant (a ++ b) = significant a ++ significant b.
Proof. apply filter_app. Qed.

(** What NEWLINE at depth 0 emits when the buffer holds a significant
    token: one statement, with a snapshot of the stack. *)
Lemma step_newline_emits s nl :
  ttype nl = NEWLINE -> paren_depth s = 0 ->
  significant (buf s) <> [] ->
  exists st,
    statements (step s nl) = statements s ++ [st]
    /\ context st = mkCtx (PyStr.mem "def" (stack s)) (stack s)
    /\ token_string st = fingerprint (significant (buf s))
    /\ (start_line st, start_col st) = stmt_start s.
Proof.
  intros Hn Hd Hsig.
  assert (Hb : buf s <> []) by (intros E; rewrite E in Hsig; now apply Hsig).
  unfold step, end_statement, advance, next_depth. simpl.
  rewrite Hn, Hd. simpl.
  rewrite detect_suite_not_name by (now rewrite Hn).
  unfold dent, disarm, arm, is_op. rewrite Hn. simpl. rewrite andb_false_r. simpl.
  unfold flush. simpl.
  assert (E : significant (buf s ++ [nl]) = significant (buf s)).
  { rewrite significant_app. unfold significant at 2. simpl. rewrite Hn. simpl.
    apply app_nil_r. }
  rewrite E. destruct (significant (buf s)) as [|t0 r]; [congruence|].
  destruct (buf s) as [|b0 br] eqn:Eb; [congruence|].
  destruct (stmt_start s) as [sl sc]. destruct (tend nl) as [el ec]. simpl.
  eexists. split; [reflexivity|]. simpl. auto.
Qed.

(** A simple statement line at depth 0: its statement carries the
    stack as it stands. *)
Lemma run_simple_statement body nl s :
  body <> [] -> forallb is_plain body = true -> ttype nl = NEWLINE ->
  paren_depth s = 0 ->
  exists st,
    statements (run s (body ++ [nl])) = statements s ++ [st]
    /\ block_stack (context st) = stack s
    /\ TokenContext.in_function (context st) = PyStr.mem "def" (stack s)
    /\ stack (run s (body ++ [nl])) = stack s.
Proof.
  intros Hne Hb Hn Hd.
  destruct (run_plain body s Hb) as (A & B & C & D).
  rewrite run_app. change (run (run s body) [nl]) with (step (run s body) nl).
  destruct (step_newline_emits (run s body) nl Hn) as (st & E1 & E2 & _).
  - congruence.
  - rewrite B, significant_app.
    destruct body as [|b body]; [congruence|].
    simpl in Hb. apply andb_true_iff in Hb as [Hb _].
    unfold is_plain in Hb. apply andb_true_iff in Hb as [Hb _].
    assert (Hs : significant (b :: body) = b :: significant body)
      by (unfold significant; simpl; now rewrite Hb).
    rewrite Hs. destruct (significant (buf s)); simpl; congruence.
  - exists st. rewrite step_stack by (now rewrite Hn).
    rewrite E1, E2, A, D. simpl. auto.
Qed.
(** The bracket depth after a run is the fold of [next_depth]. *)
Lemma run_depth toks : forall s,
  paren_depth (run s toks) = fold_left next_depth toks (paren_depth s).
Proof.
  induction toks as [|t toks IH]; intros s; [reflexivity|].
  rewrite run_cons, IH, step_depth. reflexivity.
Qed.

(** The recorded start of a statement is the start of whichever token
    enters the empty buffer, layout tokens included. *)
Lemma advance_start s t :
  stmt_start (advance s t)
  = match buf s with [] => tstart t | _ => stmt_start s end.
Proof. reflexivity. Qed.
End SegmenterFacts.

(* ------------------------------------------------------------------ *)
(** ** The segmenter: context tracking and the end of the stream *)

Module SegmenterTheorems.
Import TokenContext TokenShapes SegmenterFacts.
Local Open Scope list_scope.

(** What a logical line whose last significant token is not [":"]
    leaves behind, whatever precedes that token on the line. *)
Lemma compact_line_disarmed s line y trail :
  forallb (fun t => negb (is_dent (ttype t))) line = true ->
  is_layout (ttype y) = false -> is_op y ":" = false ->
  forallb (fun t => is_soft (ttype t)) trail = true ->
  stack (run s (line ++ [y] ++ trail)) = stack s
  /\ suite_armed (run s (line ++ [y] ++ trail)) = false.
Proof.
  intros Hl Hy Hc Ht. split.
  - apply run_stack. rewrite !forallb_app. rewrite Hl, (soft_not_dent _ Ht).
    simpl. destruct (ttype y); simpl in *; congruence.
  - rewrite !run_app. rewrite run_soft_armed by assumption.
    change (run ?x [y]) with (step x y). now apply step_disarms.
Qed.

(** What holds of C5.  (1) A logical line whose last significant token
    [y] is not the colon -- a compact suite such as [if x: y], whatever
    [line] holds before [y] -- leaves the block stack as it was and the
    suite disarmed: an INDENT that follows at once pushes nothing, and the
    next simple statement carries the stack of before.  Nothing is said
    here of [seen_suite_kw], nor of the statements further on.
    (2) Two suite headers [try : NEWLINE INDENT] in a row push two
    entries: the statement inside has the block stack of before followed
    by try, try (depth 2 from an empty stack). *)
Lemma compact_suite_and_nested_try
  (s : seg_state) (line trail body : list TokenInfo)
  (y ind nl t1 c1 n1 i1 t2 c2 n2 i2 : TokenInfo) :
  forallb (fun t => negb (is_dent (ttype t))) line = true ->
  is_layout (ttype y) = false -> is_op y ":" = false ->
  forallb (fun t => is_soft (ttype t)) trail = true ->
  fold_left next_depth (line ++ [y] ++ trail) (paren_depth s) = 0 ->
  ttype ind = INDENT ->
  body <> [] -> forallb is_plain body = true -> ttype nl = NEWLINE ->
  is_name t1 "try" = true -> is_op c1 ":" = true ->
  ttype n1 = NEWLINE -> ttype i1 = INDENT ->
  is_name t2 "try" = true -> is_op c2 ":" = true ->
  ttype n2 = NEWLINE -> ttype i2 = INDENT ->
  paren_depth s = 0 ->
  let s' := run s (line ++ [y] ++ trail) in
  (stack s' = stack s
   /\ suite_armed s' = false
   /\ stack (step s' ind) = stack s
   /\ exists st, statements (run s' (body ++ [nl])) = statements s' ++ [st]
                 /\ block_stack (context st) = stack s)
  /\ exists st,
       statements (run s ([t1; c1; n1; i1; t2; c2; n2; i2] ++ body ++ [nl]))
       = statements (run s [t1; c1; n1; i1; t2; c2; n2; i2]) ++ [st]
       /\ block_stack (context st) = stack s ++ ["try"; "try"]
       /\ length (block_stack (context st)) = (length (stack s) + 2)%nat.
Proof.
  intros Hl Hy Hc Ht Hdep Hi Hne Hb Hn T1 C1 N1 I1 T2 C2 N2 I2 Hd s'.
  destruct (compact_line_disarmed s line y trail Hl Hy Hc Ht) as [Hs Ha].
  fold s' in Hs, Ha. split.
  - repeat split; try assumption.
    + rewrite step_indent_disarmed by assumption. exact Hs.
    + assert (D : paren_depth s' = 0) by (unfold s'; now rewrite run_depth).
      destruct (run_simple_statement body nl s' Hne Hb Hn D) as (st & E & B & _).
      exists st. now rewrite <- Hs.
  - apply is_name_inv in T1 as [T1 S1], T2 as [T2 S2].
    destruct (run_header s t1 c1 n1 i1) as [H1 D1]; try assumption.
    { now rewrite S1. }
    destruct (run_header (run s [t1; c1; n1; i1]) t2 c2 n2 i2) as [H2 D2];
      try assumption.
    { now rewrite S2. }
    rewrite H1, S1, S2, <- app_assoc in H2.
    change (["try"] ++ ["try"]) with ["try"; "try"] in H2.
    change [t1; c1; n1; i1; t2; c2; n2; i2]
      with ([t1; c1; n1; i1] ++ [t2; c2; n2; i2]).
    rewrite (run_app s ([t1; c1; n1; i1] ++ [t2; c2; n2; i2])).
    rewrite (run_app s [t1; c1; n1; i1]).
    destruct (run_simple_statement body nl _ Hne Hb Hn D2) as (st & E & B & _).
    exists st. rewrite E, B, H2. repeat split.
    rewrite length_app. reflexivity.
Qed.

Lemma compact_suite_and_nested_try_witness :
  let s' := run seg_init (Samples.compact_if ++ [Samples.compact_y] ++ [Samples.line_end]) in
  (stack s' = []
   /\ suite_armed s' = false
   /\ stack (step s' Samples.an_indent) = []
   /\ exists st, statements (run s' (Samples.stmt_a ++ [Samples.newline3]))
                 = statements s' ++ [st]
                 /\ block_stack (context st) = [])
  /\ exists st,
       statements (run seg_init
         ([Samples.try1; Samples.colon1; Samples.newline1; Samples.indent1;
           Samples.try2; Samples.colon2; Samples.newline2; Samples.indent2]
          ++ Samples.stmt_a ++ [Samples.newline3]))
       = statements (run seg_init
         [Samples.try1; Samples.colon1; Samples.newline1; Samples.indent1;
          Samples.try2; Samples.colon2; Samples.newline2; Samples.indent2])
         ++ [st]
       /\ block_stack (context st) = ["try"; "try"]
       /\ length (block_stack (context st)) = 2%nat.
Proof.
  apply (compact_suite_and_nested_try seg_init Samples.compact_if
           [Samples.line_end] Samples.stmt_a Samples.compact_y
           Samples.an_indent Samples.newline3);
    try reflexivity.
  discriminate.
Defined.

(** C5, on the lines [if x: y = 1 if a else 2], [match v:] and
    [    case 1: pass].  The first line is a compact suite: its [y]
    disarms the suite and forgets the keyword, but the [else] further on
    the line is remembered again, and no NEWLINE forgets it.  The colon of
    [match v:], a header without a suite keyword, is then armed with it,
    and the INDENT pushes [else]: the statement [case 1: pass] has the
    block stack [else], depth 1.  After the compact suite [if x: y = 1] the
    same statement has the empty block stack: what a compact suite holds
    decides the depth of a statement after it. *)
Theorem keyword_of_compact_suite_tags_later_block :
  seen_suite_kw (run seg_init SegmentSamples.compact_ternary) = Some "else"
  /\ stack (run seg_init SegmentSamples.compact_ternary) = []
  /\ map SegmentSpec.view
         (segment (SegmentSamples.compact_ternary
                   ++ SegmentSamples.match_after_compact))
     = [("NAME:if NAME:x OP:: NAME:y OP:= NUMBER:<num> NAME:if NAME:a NAME:else NUMBER:<num>",
         mkCtx false []);
        ("NAME:match NAME:v OP::", mkCtx false []);
        ("NAME:case NUMBER:<num> OP:: NAME:pass", mkCtx false ["else"]);
        ("", mkCtx false [])]
  /\ seen_suite_kw (run seg_init SegmentSamples.compact_assign) = None
  /\ map SegmentSpec.view
         (segment (SegmentSamples.compact_assign
                   ++ SegmentSamples.match_after_compact))
     = [("NAME:if NAME:x OP:: NAME:y OP:= NUMBER:<num>", mkCtx false []);
        ("NAME:match NAME:v OP::", mkCtx false []);
        ("NAME:case NUMBER:<num> OP:: NAME:pass", mkCtx false []);
        ("", mkCtx false [])].
Proof. repeat split. Qed.
End SegmenterTheorems.

Module EndOfStream.
Import TokenContext TokenShapes SegmenterFacts.
Local Open Scope list_scope.

Lemma flush_statements_quiet e s :
  significant (buf s) = [] -> statements (flush e s) = statements s.
Proof. intros H. unfold flush. now rewrite H. Qed.

(** Layout tokens on a buffer without significant token emit nothing. *)
Lemma step_layout_quiet s t :
  is_layout (ttype t) = true -> significant (buf s) = [] ->
  statements (step s t) = statements s /\ significant (buf (step s t)) = [].
Proof.
  intros Hl Hs.
  assert (E : significant (buf s ++ [t]) = []).
  { rewrite significant_app, Hs. unfold significant. simpl. now rewrite Hl. }
  unfold step, end_statement. simpl.
  destruct (_ && _).
  - split; [rewrite flush_statements_quiet; [reflexivity | exact E]
           | now rewrite flush_buf].
  - simpl. auto.
Qed.

Lemma run_layout_quiet toks : forall s,
  forallb (fun t => is_layout (ttype t)) toks = true ->
  significant (buf s) = [] ->
  statements (run s toks) = statements s
  /\ significant (buf (run s toks)) = [].
Proof.
  induction toks as [|t toks IH]; intros s H Hs; [auto|].
  simpl in H. apply andb_true_iff in H as [Ht Hr].
  destruct (step_layout_quiet s t Ht Hs) as [A B].
  rewrite run_cons. destruct (IH (step s t) Hr B) as [A' B'].
  now rewrite A', A.
Qed.

(** NEWLINE at depth 0 empties the buffer. *)
Lemma step_newline_clears s n :
  ttype n = NEWLINE -> paren_depth (step s n) = 0 -> buf (step s n) = [].
Proof.
  intros Hn Hd. rewrite step_depth in Hd.
  unfold step, end_statement. simpl. rewrite Hn, Hd. simpl. apply flush_buf.
Qed.

Lemma closed_buffer pre :
  Streams.closed_at_newline pre = true ->
  significant (buf (run seg_init pre)) = [].
Proof.
  unfold Streams.closed_at_newline. intros H.
  destruct (rev pre) as [|n r] eqn:E.
  - apply (f_equal (@rev _)) in E. rewrite rev_involutive in E. now subst.
  - apply (f_equal (@rev _)) in E. rewrite rev_involutive in E. simpl in E.
    apply andb_true_iff in H as [Hn Hd]. apply Z.eqb_eq in Hd.
    assert (Hty : ttype n = NEWLINE)
      by (destruct (ttype n); simpl in Hn; try discriminate; reflexivity).
    assert (D : paren_depth (run seg_init pre) = 0)
      by (rewrite run_depth; exact Hd).
    rewrite E in *. rewrite run_app in *.
    change (run ?x [n]) with (step x n) in *.
    now rewrite step_newline_clears.
Qed.

(** The final [flush] on a buffer whose only significant token is the
    ENDMARKER. *)
Lemma flush_endmarker s e :
  ttype e = ENDMARKER -> significant (buf s) = [] ->
  exists l,
    statements (flush None (step s e)) = statements s ++ [l]
    /\ token_string l = ""
    /\ (end_line l, end_col l) = tend e.
Proof.
  intros He Hs.
  assert (E : significant (buf s ++ [e]) = [e]).
  { rewrite significant_app, Hs. unfold significant. simpl. now rewrite He. }
  unfold step, end_statement. simpl. rewrite He. simpl.
  unfold flush. simpl. rewrite E.
  destruct (match buf s with [] => _ | _ => _ end) as [sl sc].
  simpl. destruct (tend e) as [el ec] eqn:Ee.
  eexists. split; [reflexivity|]. simpl. split; [|reflexivity].
  unfold fingerprint, _keep_token. simpl. now rewrite He.
Qed.

(** C9, as amended. When the token stream is [pre ++ trail ++ [e]] with
    [e] the ENDMARKER, [trail] made of layout tokens only, and [pre]
    empty or ending in a NEWLINE met at bracket depth 0, the segmenter's
    result is not empty, its last statement comes from the final flush of
    the ENDMARKER, ends where the ENDMARKER ends and has the empty
    fingerprint; a compiled rule with no context filter whose pattern
    finds a match in the empty string reports exactly one violation for
    it, at the statement's recorded start. *)
Theorem endmarker_statement
  (pre trail : list TokenInfo) (e : TokenInfo)
  (Pattern : Type) (re_search : Pattern -> string -> bool)
  (fp rid : string) (rx : Pattern) (rule : Rules.Rule) :
  ttype e = ENDMARKER ->
  forallb (fun t => is_layout (ttype t)) trail = true ->
  Streams.closed_at_newline pre = true ->
  Rules.in_function (Rules.context (Rules.match_ rule)) = None ->
  Rules.not_in_blocks (Rules.context (Rules.match_ rule)) = [] ->
  re_search rx "" = true ->
  exists l,
    segment (pre ++ trail ++ [e])
    = statements (run seg_init (pre ++ trail)) ++ [l]
    /\ token_string l = ""
    /\ (end_line l, end_col l) = tend e
    /\ Engine.check_rule Pattern re_search fp l (rid, rx, rule)
       = [Types.mkViolation (Rules.id rule) (Rules.description rule) fp
            (start_line l) (start_col l + 1) (Rules.severity rule)].
Proof.
  intros He Ht Hp Hf Hb Hr.
  pose proof (closed_buffer pre Hp) as Hs.
  destruct (run_layout_quiet trail (run seg_init pre) Ht Hs) as [A B].
  unfold segment. rewrite app_assoc, run_app.
  change (run ?x [e]) with (step x e). rewrite run_app.
  destruct (flush_endmarker (run (run seg_init pre) trail) e He B)
    as (l & E1 & E2 & E3).
  exists l. repeat split; try assumption.
  unfold Engine.check_rule. rewrite Hf, Hb, E2, Hr. reflexivity.
Qed.

Lemma endmarker_statement_witness :
  exists l,
    segment (Streams.one_line ++ [] ++ [Streams.endmarker])
    = statements (run seg_init (Streams.one_line ++ [])) ++ [l]
    /\ token_string l = ""
    /\ (end_line l, end_col l) = tend Streams.endmarker
    /\ Engine.check_rule string (fun p s => PyStr.contains p s) "a.py" l
         ("R0", "", Rules.mkRule "R0" true "info" "anything"
                      (Rules.mkMatchSpec (Rules.mkMatchContext None []) "")
                      None)
       = [Types.mkViolation "R0" "anything" "a.py"
            (start_line l) (start_col l + 1) "info"].
Proof.
  apply (endmarker_statement Streams.one_line [] Streams.endmarker string
           (fun p s => PyStr.contains p s) "a.py" "R0" ""
           (Rules.mkRule "R0" true "info" "anything"
              (Rules.mkMatchSpec (Rules.mkMatchContext None []) "") None));
    reflexivity.
Defined.

(** C9, the claim as stated, fails: for the two lines [x )] and [(y]
    the last statement of the result is built from real tokens and its
    fingerprint is not empty. *)
Lemma final_fingerprint_not_empty :
  map token_string (segment Streams.unbalanced)
  = ["NAME:x OP:)"; "OP:( NAME:y"].
Proof. reflexivity. Qed.
End EndOfStream.

(* ------------------------------------------------------------------ *)
(** ** The rule engine *)

Module EngineFacts.
Import Rules Types Engine.
Local Open Scope list_scope.

Lemma mem_In x xs : PyStr.mem x xs = true <-> In x xs.
Proof.
  unfold PyStr.mem. rewrite existsb_exists. split.
  - intros (y & Hy & E). apply String.eqb_eq in E. now subst.
  - intros H. exists x. split; [assumption | apply String.eqb_refl].
Qed.

Lemma has_any_block_spec c names :
  TokenContext.has_any_block c names = true
  <-> exists n, In n names /\ In n (TokenContext.block_stack c).
Proof.
  unfold TokenContext.has_any_block. rewrite existsb_exists.
  split; intros (n & H1 & H2); exists n; split; try assumption;
    now apply mem_In.
Qed.

Lemma fold_left_append {A B} (f : B -> list A) l : forall acc,
  fold_left (fun a c => a ++ f c) l acc = acc ++ flat_map f l.
Proof.
  induction l as [|x l IH]; intros acc; simpl.
  - now rewrite app_nil_r.
  - now rewrite IH, app_assoc.
Qed.

Section WithLibraries.
Variable Pattern : Type.
Variable re_compile : string -> compile_outcome Pattern.
Variable re_search : Pattern -> string -> bool.
Variable generate_tokens : string -> option (list TokenInfo).
Variable read_text : string -> option string.

Local Abbreviation check_rule := (check_rule Pattern re_search).
Local Abbreviation check_statement := (check_statement Pattern re_search).
Local Abbreviation check_statements := (check_statements Pattern re_search).
Local Abbreviation compile_loop := (compile_loop Pattern re_compile).
Local Abbreviation compile_rules := (compile_rules Pattern re_compile).
Local Abbreviation files_loop := (files_loop Pattern re_search generate_tokens read_text).
Local Abbreviation check_paths :=
  (check_paths Pattern re_compile re_search generate_tokens read_text).

Lemma check_statement_flat fp compiled acc st :
  check_statement fp compiled acc st
  = acc ++ flat_map (check_rule fp st) compiled.
Proof. apply fold_left_append. Qed.

Lemma check_statements_flat fp compiled stmts : forall acc,
  check_statements fp compiled acc stmts
  = acc ++ flat_map (fun st => flat_map (check_rule fp st) compiled) stmts.
Proof.
  induction stmts as [|st stmts IH]; intros acc; simpl.
  - now rewrite app_nil_r.
  - unfold Engine.check_statements in *. simpl.
    rewrite IH, check_statement_flat, app_assoc. reflexivity.
Qed.

Local Abbreviation well_compiled := (Compiled.well_compiled re_compile).

Lemma compile_loop_ok rs : forall acc compiled,
  compile_loop rs acc = inr compiled ->
  Forall well_compiled acc ->
  map snd compiled = map snd acc ++ rs /\ Forall well_compiled compiled.
Proof.
  induction rs as [|r rs IH]; intros acc compiled H Hacc; simpl in H.
  - inversion H; subst. now rewrite app_nil_r.
  - destruct (re_compile (statement_token_regex (match_ r))) as [rx|e|exc] eqn:E;
      [|discriminate|discriminate].
    apply IH in H.
    + destruct H as [H1 H2]. split; [|assumption].
      rewrite H1, map_app, <- app_assoc. reflexivity.
    + apply Forall_app. split; [assumption|].
      constructor; [|constructor]. split; [reflexivity | exact E].
Qed.

Lemma compile_loop_fails pre r post e : forall acc,
  Forall (fun r' => exists rx,
              re_compile (statement_token_regex (match_ r')) = ReOk rx) pre ->
  re_compile (statement_token_regex (match_ r)) = ReError e ->
  compile_loop (pre ++ r :: post) acc
  = inl (ValueError ("Invalid regex for rule " ++ id r ++ ": " ++ e)).
Proof.
  induction pre as [|p pre IH]; intros acc Hpre Hr; simpl.
  - now rewrite Hr.
  - inversion Hpre as [|? ? [rx Hp] Hrest]; subst. rewrite Hp.
    now apply IH.
Qed.

Lemma compile_loop_raises pre r post exc : forall acc,
  Forall (fun r' => exists rx,
              re_compile (statement_token_regex (match_ r')) = ReOk rx) pre ->
  re_compile (statement_token_regex (match_ r)) = ReRaises exc ->
  compile_loop (pre ++ r :: post) acc = inl (CompileRaised exc).
Proof.
  induction pre as [|p pre IH]; intros acc Hpre Hr; simpl.
  - now rewrite Hr.
  - inversion Hpre as [|? ? [rx Hp] Hrest]; subst. rewrite Hp.
    now apply IH.
Qed.

Lemma compile_loop_total rs : forall acc,
  Forall (fun r' => exists rx,
              re_compile (statement_token_regex (match_ r')) = ReOk rx) rs ->
  exists compiled, compile_loop rs acc = inr compiled.
Proof.
  induction rs as [|r rs IH]; intros acc H; simpl.
  - eauto.
  - inversion H as [|? ? [rx Hp] Hrest]; subst. rewrite Hp. now apply IH.
Qed.

Lemma files_loop_no_value_error files : forall compiled acc n log msg,
  snd (files_loop files compiled acc n log) <> inl (ValueError msg).
Proof.
  induction files as [|fp files IH]; intros compiled acc n log msg; simpl.
  - discriminate.
  - destruct (read_text fp) as [src|]; [|apply IH].
    destruct (TokenContext.iter_statements generate_tokens src);
      [apply IH | simpl; discriminate].
Qed.

(** Every violation carries the recorded start of its statement, the
    column moved to base 1. *)
Lemma check_rule_position fp st c v :
  In v (check_rule fp st c) ->
  line v = TokenContext.start_line st
  /\ col v = TokenContext.start_col st + 1.
Proof.
  unfold Engine.check_rule. destruct c as [[rid rx] rule].
  repeat match goal with
         | |- context [if ?b then _ else _] => destruct b
         end; simpl; intros H; try contradiction.
  destruct H as [<-|[]]. auto.
Qed.

(** C4. For the rules that compiled -- the enabled rules, in order,
    each with its own pattern -- the violations of a file are those of
    each statement and each rule in turn; one statement and one rule
    give at most one violation, and give one exactly when the rule's
    [in_function] filter is unset or equals the statement's flag, no
    tag of [not_in_blocks] is in the statement's block stack, and the
    pattern finds a match in the fingerprint. *)
Theorem check_emits_iff
  (ruleset : RuleSet) (compiled : list (compiled_rule Pattern))
  (fp : string) (stmts : list TokenContext.TokenStatement) :
  compile_rules ruleset = inr compiled ->
  map snd compiled = filter enabled (rules ruleset)
  /\ check_statements fp compiled [] stmts
     = flat_map (fun st => flat_map (check_rule fp st) compiled) stmts
  /\ forall st c, In c compiled ->
       well_compiled c
       /\ (length (check_rule fp st c) <= 1)%nat
       /\ (check_rule fp st c <> [] <->
           (in_function (context (match_ (snd c))) = None
            \/ in_function (context (match_ (snd c)))
               = Some (TokenContext.in_function (TokenContext.context st)))
           /\ (forall tag, In tag (not_in_blocks (context (match_ (snd c)))) ->
                           ~ In tag (TokenContext.block_stack
                                       (TokenContext.context st)))
           /\ re_search (snd (fst c)) (TokenContext.token_string st) = true).
Proof.
  intros H. unfold Engine.compile_rules in H.
  apply compile_loop_ok in H; [|constructor]. destruct H as [H1 H2].
  split; [exact H1|]. split; [apply check_statements_flat|].
  intros st [[rid rx] rule] Hc. split.
  { rewrite Forall_forall in H2. now apply H2. }
  unfold Engine.check_rule. simpl.
  set (ctx := context (match_ rule)).
  set (sf := TokenContext.in_function (TokenContext.context st)).
  assert (Hblocks :
    (match not_in_blocks ctx with [] => false | _ => true end
     && TokenContext.has_any_block (TokenContext.context st) (not_in_blocks ctx))
    = false
    <-> forall tag, In tag (not_in_blocks ctx) ->
                    ~ In tag (TokenContext.block_stack (TokenContext.context st))).
  { split.
    - intros E tag Ht Hs.
      assert (Hh : TokenContext.has_any_block (TokenContext.context st)
                     (not_in_blocks ctx) = true)
        by (apply has_any_block_spec; eauto).
      rewrite Hh in E. destruct (not_in_blocks ctx); [contradiction|discriminate].
    - intros Hn.
      destruct (TokenContext.has_any_block _ _) eqn:Hh;
        [|now rewrite andb_false_r].
      apply has_any_block_spec in Hh as (n & Hn1 & Hn2).
      exfalso. exact (Hn n Hn1 Hn2). }
  destruct (in_function ctx) as [b|] eqn:Ef.
  - destruct (Bool.eqb sf b) eqn:Eb; simpl.
    + apply Bool.eqb_prop in Eb. subst b.
      destruct (_ && _) eqn:Ebl; simpl.
      * split; [lia|]. split; [congruence|].
        intros (_ & Hn & _). apply Hblocks in Hn. congruence.
      * destruct (re_search rx (TokenContext.token_string st)) eqn:Er; simpl.
        -- split; [lia|]. split; [|discriminate].
           intros _. repeat split; auto. now apply Hblocks.
        -- split; [lia|]. split; [congruence|]. intros (_ & _ & ?). discriminate.
    + split; [lia|]. split; [congruence|].
      intros ([E|E] & _); [discriminate|]. inversion E; subst.
      now rewrite Bool.eqb_reflx in Eb.
  - simpl. destruct (_ && _) eqn:Ebl; simpl.
    + split; [lia|]. split; [congruence|].
      intros (_ & Hn & _). apply Hblocks in Hn. congruence.
    + destruct (re_search rx (TokenContext.token_string st)) eqn:Er; simpl.
      * split; [lia|]. split; [|discriminate].
        intros _. repeat split; auto. now apply Hblocks.
      * split; [lia|]. split; [congruence|]. intros (_ & _ & ?). discriminate.
Qed.

(** What holds of C8. When [re.compile] refuses the pattern of an
    enabled rule with [re.error] (and compiles those of the enabled rules
    before it), [check_paths] raises the ValueError that names this rule's
    id, has read no file and returns no result; when the patterns of all
    enabled rules compile, it raises no ValueError. *)
Lemma uncompilable_pattern_aborts
  (files : list string) (ruleset : RuleSet) :
  (forall pre r post e,
      filter enabled (rules ruleset) = pre ++ r :: post ->
      Forall (fun r' => exists rx,
                  re_compile (statement_token_regex (match_ r')) = ReOk rx) pre ->
      re_compile (statement_token_regex (match_ r)) = ReError e ->
      check_paths files ruleset
      = ([], inl (ValueError ("Invalid regex for rule " ++ id r ++ ": " ++ e))))
  /\ (Forall (fun r' => exists rx,
                  re_compile (statement_token_regex (match_ r')) = ReOk rx)
             (filter enabled (rules ruleset)) ->
      forall msg, snd (check_paths files ruleset) <> inl (ValueError msg)).
Proof.
  split.
  - intros pre r post e Hsplit Hpre Hr.
    unfold Engine.check_paths, Engine.compile_rules. rewrite Hsplit.
    now rewrite (compile_loop_fails pre r post e [] Hpre Hr).
  - intros Hall msg.
    unfold Engine.check_paths, Engine.compile_rules.
    destruct (compile_loop_total _ [] Hall) as [compiled E]. rewrite E.
    apply files_loop_no_value_error.
Qed.

(** When [re.compile] raises an exception of another class for the
    pattern of an enabled rule, that exception leaves [check_paths] as it
    is: no file has been read, and nothing is said of the rule. *)
Lemma other_exception_escapes
  (files : list string) (ruleset : RuleSet) pre r post exc :
  filter enabled (rules ruleset) = pre ++ r :: post ->
  Forall (fun r' => exists rx,
              re_compile (statement_token_regex (match_ r')) = ReOk rx) pre ->
  re_compile (statement_token_regex (match_ r)) = ReRaises exc ->
  check_paths files ruleset = ([], inl (CompileRaised exc)).
Proof.
  intros Hsplit Hpre Hr.
  unfold Engine.check_paths, Engine.compile_rules. rewrite Hsplit.
  now rewrite (compile_loop_raises pre r post exc [] Hpre Hr).
Qed.

End WithLibraries.
End EngineFacts.

Module EngineCases.
Import Rules Types Engine EngineSamples.
Local Open Scope list_scope.

Lemma check_emits_iff_witness :
  let compiled := [("PYFMT001", "NAME:import", PYFMT001)] in
  let stmts := TokenContext.segment def_import_tokens in
  map snd compiled = filter enabled [PYFMT001]
  /\ check_statements string sample_search "a.py" compiled [] stmts
     = flat_map (fun st => flat_map (check_rule string sample_search "a.py" st)
                                    compiled) stmts
  /\ forall st c, In c compiled ->
       Compiled.well_compiled sample_compile c
       /\ (length (check_rule string sample_search "a.py" st c) <= 1)%nat
       /\ (check_rule string sample_search "a.py" st c <> [] <->
           (in_function (context (match_ (snd c))) = None
            \/ in_function (context (match_ (snd c)))
               = Some (TokenContext.in_function (TokenContext.context st)))
           /\ (forall tag, In tag (not_in_blocks (context (match_ (snd c)))) ->
                           ~ In tag (TokenContext.block_stack
                                       (TokenContext.context st)))
           /\ sample_search (snd (fst c)) (TokenContext.token_string st) = true).
Proof.
  apply (EngineFacts.check_emits_iff string sample_compile sample_search
           (mkRuleSet 1 [PYFMT001])
           [("PYFMT001", "NAME:import", PYFMT001)] "a.py"
           (TokenContext.segment def_import_tokens)).
  reflexivity.
Defined.

Lemma uncompilable_pattern_aborts_witness :
  check_paths string sample_compile sample_search sample_tokenizer sample_read
              ["a.py"] (mkRuleSet 1 [PYFMT001; BROKEN])
  = ([], inl (ValueError
                "Invalid regex for rule BROKEN: missing ), unterminated subpattern at position 0")).
Proof.
  apply (proj1 (EngineFacts.uncompilable_pattern_aborts string sample_compile
                  sample_search sample_tokenizer sample_read ["a.py"]
                  (mkRuleSet 1 [PYFMT001; BROKEN]))
               [PYFMT001] BROKEN []
               "missing ), unterminated subpattern at position 0").
  - reflexivity.
  - constructor; [|constructor]. exists "NAME:import". reflexivity.
  - reflexivity.
Defined.

(** C8, on a pattern with a repetition count of 2^32 - 1, for which
    [re.compile] raises [OverflowError], not [re.error]: [check_paths]
    stops before a file is read, as the claim says, but with that
    exception as it is, which does not hold the id of the rule, [HUGE];
    for the unclosed group, an [re.error], the ValueError names the rule. *)
Theorem overflowing_pattern_aborts_without_rule_id :
  check_paths string sample_compile sample_search sample_tokenizer sample_read
              ["a.py"] (mkRuleSet 1 [PYFMT001; HUGE])
  = ([], inl (CompileRaised
                "OverflowError: the repetition number is too large"))
  /\ PyStr.contains (id HUGE)
                    "OverflowError: the repetition number is too large"
     = false
  /\ check_paths string sample_compile sample_search sample_tokenizer
                 sample_read ["a.py"] (mkRuleSet 1 [PYFMT001; BROKEN])
     = ([], inl (ValueError
                   "Invalid regex for rule BROKEN: missing ), unterminated subpattern at position 0"))
  /\ PyStr.contains (id BROKEN)
                    "Invalid regex for rule BROKEN: missing ), unterminated subpattern at position 0"
     = true.
Proof. repeat split. Qed.

(** C6, on two sources. For [def f():] followed by [    import os] the
    one violation is reported at line 2, column 1: the start (2, 0) of the
    INDENT token that opens the buffer, moved to base 1, while the first
    token of the statement, [import], starts at (2, 4), column 5 in base 1.
    For [# c] followed by [import os] the violation is reported at line 1,
    column 1, the start of the comment, while [import] starts at (2, 0):
    line 2, column 1. *)
Theorem reported_position_is_that_of_layout_token :
  check_paths string sample_compile sample_search sample_tokenizer sample_read
              ["a.py"] (mkRuleSet 1 [PYFMT001])
  = (["a.py"],
     inr (mkResults
            [mkViolation "PYFMT001" "imports belong at the top of the module"
                         "a.py" 2 1 "error"] 1))
  /\ firstn 4 (skipn 6 def_import_tokens)
     = [mkTok INDENT "    " (2, 0) (2, 4);
        mkTok NAME "import" (2, 4) (2, 10); mkTok NAME "os" (2, 11) (2, 13);
        mkTok NEWLINE (String PyStr.nl "") (2, 13) (2, 14)]
  /\ hd_error (TokenContext.significant (firstn 4 (skipn 6 def_import_tokens)))
     = Some (mkTok NAME "import" (2, 4) (2, 10))
  /\ check_paths string sample_compile sample_search sample_tokenizer sample_read
                ["b.py"] (mkRuleSet 1 [ANYIMPORT])
     = (["b.py"],
        inr (mkResults [mkViolation "ANYIMPORT" "an import" "b.py" 1 1 "info"] 1))
  /\ hd_error (TokenContext.significant (firstn 5 comment_import_tokens))
     = Some (mkTok NAME "import" (2, 0) (2, 6)).
Proof. repeat split. Qed.
End EngineCases.

(* ------------------------------------------------------------------ *)
(** ** The import collector *)

Module CollectorFacts.
Import Ast Fixers FixerSpec.
Local Open Scope list_scope.

Lemma add_offending_nil c : add_offending c [] = c.
Proof. destruct c. unfold add_offending. simpl. now rewrite app_nil_r. Qed.

Lemma add_offending_app c a b :
  add_offending (add_offending c a) b = add_offending c (a ++ b).
Proof. unfold add_offending. simpl. now rewrite app_assoc. Qed.

Lemma generic_visit_spec ns : forall c,
  0 <= in_function c -> 0 <= in_try c ->
  Forall (fun n => forall c, 0 <= in_function c -> 0 <= in_try c ->
            visit n c
            = add_offending c (unguarded_imports (flag_fn c) (flag_try c) n)) ns ->
  generic_visit ns c
  = add_offending c (flat_map (unguarded_imports (flag_fn c) (flag_try c)) ns).
Proof.
  induction ns as [|m ns IH]; intros c Hf Ht Hall; simpl.
  - now rewrite add_offending_nil.
  - inversion Hall as [|? ? Hm Hns]; subst.
    rewrite (Hm c Hf Ht), IH; try assumption.
    apply add_offending_app.
Qed.

(** The counters of the collector against the two flags of the
    specification: a visit appends the unguarded imports below the node
    and restores both counters. *)
Lemma visit_spec n : forall c,
  0 <= in_function c -> 0 <= in_try c ->
  visit n c = add_offending c (unguarded_imports (flag_fn c) (flag_try c) n).
Proof.
  induction n as [l e b IH | l e b IH | l e ch IH | l e ch IH | l e | l e | l e s
                  | l e ch IH]
    using AstInduction.stmt_nested_ind; intros c Hf Ht.
  - change (visit (FunctionDef l e b) c)
      with (leave_function (generic_visit b (enter_function c))).
    rewrite generic_visit_spec; simpl; try lia; try assumption.
    unfold leave_function, add_offending, flag_fn, flag_try. simpl.
    replace (0 <? in_function c + 1) with true by (symmetry; apply Z.ltb_lt; lia).
    f_equal. lia.
  - change (visit (AsyncFunctionDef l e b) c)
      with (leave_function (generic_visit b (enter_function c))).
    rewrite generic_visit_spec; simpl; try lia; try assumption.
    unfold leave_function, add_offending, flag_fn, flag_try. simpl.
    replace (0 <? in_function c + 1) with true by (symmetry; apply Z.ltb_lt; lia).
    f_equal. lia.
  - change (visit (Try l e ch) c)
      with (leave_try (generic_visit ch (enter_try c))).
    rewrite generic_visit_spec; simpl; try lia; try assumption.
    unfold leave_try, add_offending, flag_fn, flag_try. simpl.
    replace (in_try c + 1 =? 0) with false by (symmetry; apply Z.eqb_neq; lia).
    f_equal. lia.
  - change (visit (TryStar l e ch) c) with (generic_visit ch c).
    now apply generic_visit_spec.
  - simpl. unfold visit_import, add_offending, flag_fn, flag_try.
    destruct (0 <? in_function c), (in_try c =? 0); simpl;
      rewrite ?app_nil_r; destruct c; reflexivity.
  - simpl. unfold visit_import, add_offending, flag_fn, flag_try.
    destruct (0 <? in_function c), (in_try c =? 0); simpl;
      rewrite ?app_nil_r; destruct c; reflexivity.
  - simpl. now rewrite add_offending_nil.
  - change (visit (Other l e ch) c) with (generic_visit ch c).
    now apply generic_visit_spec.
Qed.

(** The collector finds exactly the imports that are nested in a
    function and guarded by no [try], in source order. *)
Lemma collect_offending tree :
  offending (collect tree) = nested_unguarded_imports tree.
Proof.
  unfold collect, visit_Module, nested_unguarded_imports.
  set (c1 := match body tree with
             | [] => collector_init
             | n :: _ => if is_docstring n then _ else collector_init
             end).
  assert (H : in_function c1 = 0 /\ in_try c1 = 0 /\ offending c1 = []).
  { unfold c1. destruct (body tree) as [|n r]; [auto|].
    destruct (is_docstring n); auto. }
  destruct H as (Hf & Ht & Ho).
  rewrite generic_visit_spec; try lia.
  - unfold add_offending, flag_fn, flag_try. simpl. now rewrite Hf, Ht, Ho.
  - apply Forall_forall. intros n _. apply visit_spec.
Qed.

(** No import below a [try] statement is ever collected. *)
Lemma guarded_imports_skipped in_fn n :
  unguarded_imports in_fn true n = [].
Proof.
  revert in_fn. induction n using AstInduction.stmt_nested_ind;
    intros in_fn; simpl;
    try (now rewrite andb_false_r); try reflexivity;
    match goal with
    | H : Forall _ ?l |- flat_map _ ?l = [] =>
        induction H as [|m ms Hm _ IH]; simpl; [reflexivity|];
        now rewrite Hm, IH
    end.
Qed.
End CollectorFacts.

(* ------------------------------------------------------------------ *)
(** ** The removal loop and the insertion *)

Module RemovalFacts.
Import Fixers Removal.
Local Open Scope list_scope.

Lemma len_app {A} (a b : list A) : PyList.len (a ++ b) = PyList.len a + PyList.len b.
Proof. unfold PyList.len. rewrite length_app. lia. Qed.

(** One turn of the removal loop on a span within the lines. *)
Lemma remove_span_shape lines s e :
  1 <= s <= e -> e <= PyList.len lines ->
  remove_span lines (s, e)
  = inr (firstn (Z.to_nat (s - 1)) lines ++ drop_blank (skipn (Z.to_nat e) lines)).
Proof.
  intros Hs He. unfold remove_span, PyList.del_slice, PyList.clip.
  replace (s - 1 <? 0) with false by (symmetry; apply Z.ltb_ge; lia).
  replace (e <? 0) with false by (symmetry; apply Z.ltb_ge; lia).
  rewrite !Z.min_l by lia.
  replace (s - 1 <? e) with true by (symmetry; apply Z.ltb_lt; lia).
  set (P := firstn (Z.to_nat (s - 1)) lines).
  set (R := skipn (Z.to_nat e) lines).
  assert (HP : length P = Z.to_nat (s - 1)).
  { unfold P. rewrite firstn_length_le; [reflexivity|]. unfold PyList.len in He. lia. }
  assert (HlP : PyList.len P = s - 1) by (unfold PyList.len; lia).
  rewrite len_app, HlP.
  unfold PyList.get, PyList.del, PyList.position.
  replace (s - 1 <? 0) with false by (symmetry; apply Z.ltb_ge; lia).
  rewrite len_app, HlP.
  destruct R as [|x R'].
  - simpl. change (PyList.len (@nil string)) with 0.
    replace (s - 1 <? s - 1 + 0) with false by (symmetry; apply Z.ltb_ge; lia).
    reflexivity.
  - assert (Hx : PyList.len (x :: R') = 1 + PyList.len R')
      by (unfold PyList.len; simpl length; lia).
    assert (Hpos : 0 <= PyList.len R') by (unfold PyList.len; lia).
    rewrite Hx.
    replace (s - 1 <? s - 1 + (1 + PyList.len R')) with true
      by (symmetry; apply Z.ltb_lt; lia).
    replace (0 <=? s - 1) with true by (symmetry; apply Z.leb_le; lia).
    simpl andb. cbv iota.
    rewrite nth_error_app2 by lia. rewrite HP, Nat.sub_diag. simpl nth_error.
    unfold drop_blank, is_blank. destruct (String.eqb (PyStr.strip x) ""); [|reflexivity].
    f_equal. f_equal.
    + rewrite firstn_app, <- HP, firstn_all, Nat.sub_diag. simpl. apply app_nil_r.
    + rewrite skipn_app.
      replace (skipn (S (Z.to_nat (s - 1))) P) with (@nil string)
        by (symmetry; apply skipn_all2; lia).
      rewrite HP. replace (S (Z.to_nat (s - 1)) - Z.to_nat (s - 1))%nat with 1%nat by lia.
      reflexivity.
Qed.

Lemma in_spans_cons new done i :
  in_spans (new :: done) i <-> in_span i new \/ in_spans done i.
Proof.
  unfold in_spans. split.
  - intros (se & [<-|H] & Hi); [now left | right; eauto].
  - intros [H|(se & H & Hi)]; [exists new | exists se]; simpl; auto.
Qed.

Lemma thinned_ext rm rm' i l l' :
  (forall j, in_spans rm j <-> in_spans rm' j) ->
  thinned rm i l l' -> thinned rm' i l l'.
Proof.
  intros E H. induction H.
  - constructor.
  - apply thinned_keep; [now rewrite <- E | assumption].
  - apply thinned_span; [now rewrite <- E | assumption].
  - now apply thinned_blank.
Qed.

(** One more span that lies above the lines at hand changes nothing. *)
Lemma thinned_mono new done i R T :
  (forall j, (i <= j)%nat -> ~ in_span j new) ->
  thinned done i R T -> thinned (new :: done) i R T.
Proof.
  intros Hnew H. induction H.
  - constructor.
  - apply thinned_keep.
    + rewrite in_spans_cons. intros [Hn|Hd]; [exact (Hnew i (le_n i) Hn) | auto].
    + apply IHthinned. intros j Hj. apply Hnew. lia.
  - apply thinned_span.
    + rewrite in_spans_cons. now right.
    + apply IHthinned. intros j Hj. apply Hnew. lia.
  - apply thinned_blank; [assumption|].
    apply IHthinned. intros j Hj. apply Hnew. lia.
Qed.

Lemma thinned_keep_all rm K : forall i R T,
  (forall j, (i <= j < i + length K)%nat -> ~ in_spans rm j) ->
  thinned rm (i + length K) R T -> thinned rm i (K ++ R) (K ++ T).
Proof.
  induction K as [|x K IH]; intros i R T HK H; simpl in *.
  - now rewrite Nat.add_0_r in H.
  - apply thinned_keep; [apply HK; lia|].
    apply IH; [intros j Hj; apply HK; lia|].
    now replace (S i + length K)%nat with (i + S (length K))%nat by lia.
Qed.

Lemma thinned_drop_all rm D : forall i R T,
  (forall j, (i <= j < i + length D)%nat -> in_spans rm j) ->
  thinned rm (i + length D) R T -> thinned rm i (D ++ R) T.
Proof.
  induction D as [|x D IH]; intros i R T HD H; simpl in *.
  - now rewrite Nat.add_0_r in H.
  - apply thinned_span; [apply HD; lia|].
    apply IH; [intros j Hj; apply HD; lia|].
    now replace (S i + length D)%nat with (i + S (length D))%nat by lia.
Qed.

(** The blank line below a removed span may go as well. *)
Lemma thinned_drop_blank rm i X Y :
  thinned rm i X Y -> thinned rm i X (drop_blank Y).
Proof.
  intros H. induction H; simpl.
  - constructor.
  - destruct (is_blank x) eqn:E.
    + now apply thinned_blank.
    + now apply thinned_keep.
  - now apply thinned_span.
  - now apply thinned_blank.
Qed.

(** The removal loop, from the bottom up: the lines [P] above [b] are
    still those of the source, the lines below have been thinned. *)
Lemma remove_loop_thinned rm : forall done b P R T,
  Z.of_nat (length P) = b - 1 ->
  thinned done (length P) R T ->
  (forall se, In se done -> b <= fst se) ->
  spans_ok b rm ->
  exists T', remove_loop rm (P ++ T) = inr T'
             /\ thinned (rev rm ++ done) 0 (P ++ R) T'.
Proof.
  induction rm as [|[s e] rm IH]; intros done b P R T HP HT Hdone Hok.
  - exists (P ++ T). split; [reflexivity|]. simpl.
    apply (thinned_keep_all done P 0); [|exact HT].
    intros j Hj (se & Hse & Hin). specialize (Hdone se Hse).
    unfold in_span in Hin. lia.
  - simpl in Hok. destruct Hok as (Hse & Hb & Hrest). simpl in Hse, Hb, Hrest.
    assert (E0 := remove_span_shape (P ++ T) s e Hse).
    rewrite len_app in E0. specialize (E0 ltac:(unfold PyList.len; lia)).
    assert (Hs1 : (Z.to_nat (s - 1) <= length P)%nat) by lia.
    assert (He1 : (Z.to_nat e <= length P)%nat) by lia.
    rewrite firstn_app, skipn_app in E0.
    replace (Z.to_nat (s - 1) - length P)%nat with 0%nat in E0 by lia.
    replace (Z.to_nat e - length P)%nat with 0%nat in E0 by lia.
    simpl firstn in E0. simpl skipn in E0. rewrite app_nil_r in E0.
    set (P1 := firstn (Z.to_nat (s - 1)) P).
    set (P2 := skipn (Z.to_nat e) P).
    set (D := firstn (Z.to_nat e - Z.to_nat (s - 1)) (skipn (Z.to_nat (s - 1)) P)).
    assert (HP1 : length P1 = Z.to_nat (s - 1))
      by (unfold P1; now rewrite firstn_length_le).
    assert (HD : length D = (Z.to_nat e - Z.to_nat (s - 1))%nat).
    { unfold D. rewrite firstn_length_le; [reflexivity|]. rewrite length_skipn. lia. }
    assert (HP2 : length P2 = (length P - Z.to_nat e)%nat)
      by (unfold P2; now rewrite length_skipn).
    assert (Hsplit : skipn (Z.to_nat (s - 1)) P = D ++ P2).
    { unfold D, P2.
      rewrite <- (firstn_skipn (Z.to_nat e - Z.to_nat (s - 1))
                               (skipn (Z.to_nat (s - 1)) P)) at 1.
      f_equal. rewrite skipn_skipn. f_equal. lia. }
    destruct (IH ((s, e) :: done) s P1 (D ++ P2 ++ R) (drop_blank (P2 ++ T)))
      as (T' & E & HT'); try assumption.
    + lia.
    + apply thinned_drop_blank.
      apply thinned_drop_all.
      { intros j Hj. apply in_spans_cons. left. unfold in_span. simpl. lia. }
      apply thinned_keep_all.
      { intros j Hj. rewrite in_spans_cons. intros [Hn|(se & Hse' & Hin)].
        - unfold in_span in Hn. simpl in Hn. lia.
        - specialize (Hdone se Hse'). unfold in_span in Hin. lia. }
      replace (length P1 + length D + length P2)%nat with (length P) by lia.
      apply thinned_mono; [|exact HT].
      intros j Hj Hn. unfold in_span in Hn. simpl in Hn. lia.
    + intros se [<-|Hse']; simpl; [lia|]. specialize (Hdone se Hse'). lia.
    + exists T'. split.
      { change (remove_loop ((s, e) :: rm) (P ++ T))
          with (match remove_span (P ++ T) (s, e) with
                | inl e0 => inl e0
                | inr l => remove_loop rm l
                end).
        rewrite E0. exact E. }
      simpl rev. rewrite <- app_assoc. simpl app.
      replace (P ++ R) with (P1 ++ D ++ P2 ++ R); [exact HT'|].
      rewrite (app_assoc D), <- Hsplit, app_assoc. unfold P1.
      now rewrite firstn_skipn.
Qed.

(** The removal loop on spans that are in range, listed from the bottom
    up and disjoint: it raises nothing, removes every line of the spans,
    and removes nothing else but blank lines. *)
Lemma remove_loop_spec rm lines :
  spans_ok (PyList.len lines + 1) rm ->
  exists lines', remove_loop rm lines = inr lines'
                 /\ thinned rm 0 lines lines'.
Proof.
  intros Hok.
  destruct (remove_loop_thinned rm [] (PyList.len lines + 1) lines [] [])
    as (T' & E & HT); try assumption.
  - unfold PyList.len. lia.
  - constructor.
  - intros se [].
  - rewrite !app_nil_r in *. exists T'. split; [exact E|].
    apply (thinned_ext (rev rm)); [|exact HT].
    intros j. unfold in_spans. split; intros (se & H & Hi); exists se;
      (split; [|assumption]); [now apply in_rev | now apply in_rev in H].
Qed.

(** A line that is in no span and is not blank is still there. *)
Lemma thinned_survives rm i l l' :
  thinned rm i l l' ->
  forall k x, nth_error l k = Some x -> ~ in_spans rm (i + k) ->
              is_blank x = false -> In x l'.
Proof.
  intros H. induction H; intros k y Hk Hns Hb.
  - destruct k; discriminate.
  - destruct k; simpl in Hk.
    + inversion Hk; subst. now left.
    + right. apply (IHthinned k y Hk); [|assumption].
      now replace (S i + k)%nat with (i + S k)%nat by lia.
  - destruct k; simpl in Hk.
    + rewrite Nat.add_0_r in Hns. contradiction.
    + apply (IHthinned k y Hk); [|assumption].
      now replace (S i + k)%nat with (i + S k)%nat by lia.
  - destruct k; simpl in Hk.
    + inversion Hk; subst. congruence.
    + apply (IHthinned k y Hk); [|assumption].
      now replace (S i + k)%nat with (i + S k)%nat by lia.
Qed.
End RemovalFacts.

Module RelocationFacts.
Import Ast Fixers FixerSpec Removal.
Local Open Scope list_scope.

Lemma skip_blank_ge rest : forall i, i <= TokenContext.skip_blank rest i.
Proof.
  induction rest as [|l rest IH]; intros i; simpl; [lia|].
  destruct (String.eqb (PyStr.strip l) ""); [|lia].
  specialize (IH (i + 1)). lia.
Qed.

Lemma skip_blank_from_ge lines i : i <= TokenContext.skip_blank_from lines i.
Proof.
  unfold TokenContext.skip_blank_from.
  destruct (i <? PyList.len lines); [apply skip_blank_ge | lia].
Qed.

(** The insertion line is never negative. *)
Lemma insertion_line_nonneg source doc_end :
  0 <= TokenContext.compute_insertion_line_for_imports source doc_end.
Proof.
  unfold TokenContext.compute_insertion_line_for_imports.
  set (lines := PyStr.splitlines source).
  set (i0 := match lines with
             | [] => 0
             | l :: _ => if PyStr.startswith "#!" l then 0 + 1 else 0
             end).
  assert (H0 : 0 <= i0) by (unfold i0; destruct lines as [|l ?];
                            [lia | destruct (PyStr.startswith "#!" l); lia]).
  set (i1 := if i0 <? Z.min (i0 + 2) (PyList.len lines) then _ else i0).
  assert (H1 : 0 <= i1).
  { unfold i1. destruct (i0 <? _); [|lia].
    destruct (PyList.get lines i0) as [l|]; [|lia].
    destruct (Pep263.search l); lia. }
  set (i2 := if i0 + 1 <? Z.min (i0 + 2) (PyList.len lines) then _ else i1).
  assert (H2 : 0 <= i2).
  { unfold i2. destruct (i0 + 1 <? _); [|lia].
    destruct (PyList.get lines (i0 + 1)) as [l|]; [|lia].
    destruct (Pep263.search l); lia. }
  pose proof (skip_blank_from_ge lines i2) as H3.
  destruct doc_end as [e|]; [|lia].
  destruct (0 <? e); [|lia].
  pose proof (skip_blank_from_ge lines
                (Z.max (TokenContext.skip_blank_from lines i2) e)). lia.
Qed.

Lemma get_in_range {A} (l : list A) (k : Z) :
  0 <= k < PyList.len l -> exists x, PyList.get l k = Some x.
Proof.
  intros H. unfold PyList.get, PyList.position.
  replace (k <? 0) with false by (symmetry; apply Z.ltb_ge; lia).
  replace (0 <=? k) with true by (symmetry; apply Z.leb_le; lia).
  replace (k <? PyList.len l) with true by (symmetry; apply Z.ltb_lt; lia).
  simpl. destruct (nth_error l (Z.to_nat k)) as [x|] eqn:E; [eauto|].
  apply nth_error_None in E. unfold PyList.len in H. lia.
Qed.

(** The insertion raises nothing: the block -- the moved texts between
    at most one line feed before and one after -- becomes one element of
    the list of lines, at some index within it. *)
Lemma insert_block_shape tree doc_end moved lines :
  exists (i : nat) (prefix suffix : string),
    (i <= length lines)%nat
    /\ (prefix = "" \/ prefix = String PyStr.nl "")
    /\ (suffix = "" \/ suffix = String PyStr.nl "")
    /\ insert_block tree doc_end moved lines
       = inr (finish (firstn i lines
                      ++ (prefix ++ PyStr.concat moved ++ suffix)%string
                         :: skipn i lines)).
Proof.
  unfold insert_block.
  set (c := TokenContext.compute_insertion_line_for_imports _ _).
  assert (Hc : 0 <= c) by apply insertion_line_nonneg.
  set (m := match top_import_end tree with Some t => Z.max c t | None => c end).
  assert (Hm : 0 <= m) by (unfold m; destruct (top_import_end tree); lia).
  set (i := Z.min m (PyList.len lines)).
  assert (Hi : 0 <= i <= PyList.len lines) by (unfold i, PyList.len; lia).
  assert (Hpre : exists p, (p = [] \/ p = [String PyStr.nl ""])
                 /\ (if 0 <? i
                     then match PyList.get lines (i - 1) with
                          | Some l => inr (if is_blank l then []
                                           else [String PyStr.nl ""])
                          | None => inl IndexError
                          end
                     else inr []) = (inr p : exn + list string)).
  { destruct (0 <? i) eqn:E; [|eauto].
    apply Z.ltb_lt in E.
    destruct (get_in_range lines (i - 1)) as [l ->]; [lia|].
    destruct (is_blank l); eauto. }
  assert (Hsuf : exists p, (p = [] \/ p = [String PyStr.nl ""])
                 /\ (if i <? PyList.len lines
                     then match PyList.get lines i with
                          | Some l => inr (if is_blank l then []
                                           else [String PyStr.nl ""])
                          | None => inl IndexError
                          end
                     else inr []) = (inr p : exn + list string)).
  { destruct (i <? PyList.len lines) eqn:E; [|eauto].
    apply Z.ltb_lt in E.
    destruct (get_in_range lines i) as [l ->]; [lia|].
    destruct (is_blank l); eauto. }
  destruct Hpre as (p & Hp & ->). destruct Hsuf as (q & Hq & ->).
  exists (Z.to_nat i), (PyStr.concat p), (PyStr.concat q).
  split; [unfold PyList.len in Hi; lia|].
  split; [destruct Hp; subst; auto|].
  split; [destruct Hq; subst; auto|].
  unfold PyList.insert_at, PyList.clip.
  replace (i <? 0) with false by (symmetry; apply Z.ltb_ge; lia).
  rewrite Z.min_l by lia. reflexivity.
Qed.

Section WithParser.
Variable ast_parse : string -> option Module_.

(** What a relocation is, when the collected spans are in range and
    disjoint: the lines of the source without those of the spans (and
    without some blank lines), the others in their order and as they were,
    plus one inserted element that holds the moved texts. *)
Lemma relocation_shape source dedupe tree :
  let lines := PyStr.splitlines source in
  let spans := map (span_of lines) (nested_unguarded_imports tree) in
  let moved := moved_loop dedupe spans [] [] in
  ast_parse source = Some tree ->
  moved <> [] ->
  spans_ok (PyList.len lines + 1) (to_remove spans) ->
  exists (lines' : list string) (i : nat) (prefix suffix : string),
    thinned (to_remove spans) 0 lines lines'
    /\ (i <= length lines')%nat
    /\ (prefix = "" \/ prefix = String PyStr.nl "")
    /\ (suffix = "" \/ suffix = String PyStr.nl "")
    /\ _fix_move_imports_to_top ast_parse source dedupe
       = inr (finish (firstn i lines'
                      ++ (prefix ++ PyStr.concat moved ++ suffix)%string
                         :: skipn i lines')).
Proof.
  intros lines spans moved Hp Hm Hok.
  destruct (RemovalFacts.remove_loop_spec _ _ Hok) as (lines' & Er & Hth).
  destruct (insert_block_shape tree (module_docstring_end (collect tree))
                               moved lines')
    as (i & prefix & suffix & Hi & Hpre & Hsuf & Eb).
  exists lines', i, prefix, suffix. repeat split; try assumption.
  unfold _fix_move_imports_to_top. rewrite Hp.
  rewrite CollectorFacts.collect_offending.
  fold lines. fold spans. fold moved.
  destruct (nested_unguarded_imports tree) as [|n ns] eqn:En.
  { exfalso. apply Hm. reflexivity. }
  destruct moved as [|m ms] eqn:Em; [congruence|].
  rewrite Er. exact Eb.
Qed.

(** So a line of the source that lies in no collected span and is not
    blank -- each line of a guarded import, when no collected span runs
    over it -- is a piece of the result, as it was. *)
Lemma line_outside_spans_kept source dedupe tree k x :
  let lines := PyStr.splitlines source in
  let spans := map (span_of lines) (nested_unguarded_imports tree) in
  ast_parse source = Some tree ->
  moved_loop dedupe spans [] [] <> [] ->
  spans_ok (PyList.len lines + 1) (to_remove spans) ->
  nth_error lines k = Some x ->
  ~ in_spans (to_remove spans) k ->
  is_blank x = false ->
  exists before after,
    _fix_move_imports_to_top ast_parse source dedupe
    = inr (finish (before ++ x :: after)).
Proof.
  intros lines spans Hp Hm Hok Hk Hns Hb.
  destruct (relocation_shape source dedupe tree Hp Hm Hok)
    as (lines' & i & prefix & suffix & Hth & Hi & _ & _ & E).
  assert (Hin : In x lines')
    by (apply (RemovalFacts.thinned_survives _ _ _ _ Hth k x); assumption).
  fold lines in E. fold spans in E.
  set (blk := (prefix ++ _ ++ suffix)%string) in E.
  assert (Hin' : In x (firstn i lines' ++ blk :: skipn i lines')).
  { rewrite <- (firstn_skipn i lines') in Hin.
    apply in_app_or in Hin. apply in_or_app.
    destruct Hin; [now left | right; now right]. }
  apply in_split in Hin' as (before & after & Es).
  exists before, after. now rewrite E, Es.
Qed.

End WithParser.
End RelocationFacts.

(* ------------------------------------------------------------------ *)
(** ** The import fixer *)

Module FixerFacts.
Import Ast Fixers FixerSpec.
Local Open Scope list_scope.

Lemma append_empty a b : (a ++ b)%string = "" -> a = "" /\ b = "".
Proof. destruct a; simpl; [auto | discriminate]. Qed.

Lemma append_nil_r s : (s ++ "")%string = s.
Proof. induction s; simpl; [reflexivity | now rewrite IHs]. Qed.

Lemma concat_cons x xs :
  PyStr.concat (x :: xs) = (x ++ PyStr.concat xs)%string.
Proof.
  unfold PyStr.concat. destruct xs; simpl; [now rewrite append_nil_r | reflexivity].
Qed.

Lemma concat_app a : forall b,
  PyStr.concat (a ++ b) = (PyStr.concat a ++ PyStr.concat b)%string.
Proof.
  induction a as [|x a IH]; intros b; [reflexivity|].
  rewrite <- app_comm_cons, !concat_cons, IH.
  induction x; simpl; [reflexivity | now f_equal].
Qed.

Lemma concat_empty ls : PyStr.concat ls = "" -> Forall (fun l => l = "") ls.
Proof.
  induction ls as [|x ls IH]; intros H; [constructor|].
  rewrite concat_cons in H. apply append_empty in H as [H1 H2].
  constructor; auto.
Qed.

Lemma endswith_nl_append s :
  PyStr.endswith_nl (s ++ String PyStr.nl "") = true.
Proof.
  induction s as [|c s IH]; [reflexivity|].
  simpl. destruct (s ++ String PyStr.nl "")%string eqn:E; [|assumption].
  destruct s; discriminate.
Qed.

(** [finish] on a text that is not empty ends it with a line feed. *)
Lemma finish_endswith lines :
  PyStr.concat lines <> "" -> PyStr.endswith_nl (finish lines) = true.
Proof.
  intros H. unfold finish.
  destruct (String.eqb (PyStr.concat lines) "") eqn:E.
  - apply String.eqb_eq in E. contradiction.
  - simpl. destruct (PyStr.endswith_nl (PyStr.concat lines)) eqn:E2; simpl;
      [assumption | apply endswith_nl_append].
Qed.

(** Every text in [moved] ends with a line feed. *)
Lemma moved_loop_nonempty dedupe spans : forall moved seen,
  Forall (fun m => m <> "") moved ->
  Forall (fun m => m <> "") (moved_loop dedupe spans moved seen).
Proof.
  induction spans as [|sp spans IH]; intros moved seen H; simpl; [assumption|].
  destruct (String.eqb (PyStr.strip (text sp)) ""); [now apply IH|].
  destruct (dedupe && _); [now apply IH|].
  apply IH. apply Forall_app. split; [assumption|].
  constructor; [|constructor].
  intros E. apply append_empty in E as [_ E]. discriminate.
Qed.

Lemma insert_block_endswith tree doc_end moved lines out :
  moved <> [] -> Forall (fun m => m <> "") moved ->
  insert_block tree doc_end moved lines = inr out ->
  PyStr.endswith_nl out = true.
Proof.
  intros Hne Hall. unfold insert_block.
  set (i := Z.min _ _).
  destruct (if 0 <? i then _ else _) as [e|prefix]; [discriminate|].
  destruct (if i <? PyList.len lines then _ else _) as [e|suffix];
    [discriminate|].
  intros H. inversion H; subst out. apply finish_endswith.
  unfold PyList.insert_at. rewrite concat_app, concat_cons.
  intros E. apply append_empty in E as [_ E].
  apply append_empty in E as [E _].
  apply append_empty in E as [_ E].
  apply append_empty in E as [E _].
  apply concat_empty in E.
  destruct moved as [|m moved]; [congruence|].
  inversion E; subst. inversion Hall; subst. congruence.
Qed.

Section WithParser.
Variable ast_parse : string -> option Module_.

Local Abbreviation fix_move := (_fix_move_imports_to_top ast_parse).
Local Abbreviation apply_fixes := (apply_fixes ast_parse).
Local Abbreviation fix_loop := (fix_loop ast_parse).

(** The relocation returns its input or a text that ends with a line
    feed. *)
Lemma fix_move_same_or_newline source dedupe out :
  fix_move source dedupe = inr out ->
  out = source \/ PyStr.endswith_nl out = true.
Proof.
  unfold _fix_move_imports_to_top.
  destruct (ast_parse source) as [tree|]; [|discriminate].
  destruct (offending (collect tree)) as [|n ns] eqn:Eo.
  { intros H. inversion H. auto. }
  set (spans := map _ _).
  destruct (moved_loop dedupe spans [] []) as [|m ms] eqn:Em.
  { intros H. inversion H. auto. }
  destruct (remove_loop _ _) as [e|lines']; [discriminate|].
  intros H. right.
  eapply insert_block_endswith; [| |exact H]; [discriminate|].
  rewrite <- Em. apply moved_loop_nonempty. constructor.
Qed.

(** With nothing to relocate the relocation returns its input. *)
Lemma fix_move_nothing source dedupe tree :
  ast_parse source = Some tree ->
  nested_unguarded_imports tree = [] ->
  fix_move source dedupe = inr source.
Proof.
  intros Hp Hn. unfold _fix_move_imports_to_top.
  now rewrite Hp, CollectorFacts.collect_offending, Hn.
Qed.

Lemma fix_loop_nothing actions unsafe source tree :
  ast_parse source = Some tree ->
  nested_unguarded_imports tree = [] ->
  fix_loop actions unsafe source = inr source.
Proof.
  intros Hp Hn.
  induction actions as [|[a d] acts IH]; simpl; [reflexivity|].
  destruct (String.eqb a "move_imports_to_top").
  - now rewrite (fix_move_nothing source d tree Hp Hn).
  - destruct (negb unsafe); exact IH.
Qed.

(** A second run on a result that has nothing left to relocate returns
    it unchanged. *)
Lemma second_run_on_clean_result source ruleset unsafe out tree :
  apply_fixes source ruleset unsafe = inr out ->
  ast_parse out = Some tree ->
  nested_unguarded_imports tree = [] ->
  apply_fixes out ruleset unsafe = inr out.
Proof. intros _ Hp Hn. now apply (fix_loop_nothing _ _ _ tree). Qed.

(** What holds of C10. A source that parses and has no import nested
    in a function under no [Try] node -- an import under [try] with
    [except*], a [TryStar] node, counts as unguarded -- is returned as it
    is, character for character, whatever the rule set and the [unsafe]
    flag. *)
Lemma apply_fixes_nothing_to_relocate
  (source : string) (ruleset : Rules.RuleSet) (unsafe : bool)
  (tree : Module_) :
  ast_parse source = Some tree ->
  nested_unguarded_imports tree = [] ->
  apply_fixes source ruleset unsafe = inr source.
Proof.
  intros Hp Hn. unfold Fixers.apply_fixes.
  now apply (fix_loop_nothing _ _ _ tree).
Qed.

Lemma fix_loop_same_or_newline actions unsafe : forall source cur out,
  cur = source \/ PyStr.endswith_nl cur = true ->
  fix_loop actions unsafe cur = inr out ->
  out = source \/ PyStr.endswith_nl out = true.
Proof.
  induction actions as [|[a d] acts IH]; intros source cur out Hc H;
    simpl in H.
  - inversion H; subst. assumption.
  - destruct (String.eqb a "move_imports_to_top").
    + destruct (fix_move cur d) as [e|cur'] eqn:E; [discriminate|].
      apply (IH source cur'); [|assumption].
      apply fix_move_same_or_newline in E as [E|E]; [subst; assumption | auto].
    + destruct (negb unsafe); now apply (IH source cur).
Qed.

(** C7, as amended. When the fix succeeds, its result is the source
    unchanged (nothing was relocated), or it ends with a line feed. *)
Theorem apply_fixes_same_or_newline
  (source : string) (ruleset : Rules.RuleSet) (unsafe : bool)
  (out : string) :
  apply_fixes source ruleset unsafe = inr out ->
  out = source \/ PyStr.endswith_nl out = true.
Proof.
  intros H. apply (fix_loop_same_or_newline _ _ source source out) in H; auto.
Qed.

End WithParser.
End FixerFacts.

Module FixerCases.
Import Ast Fixers FixerSpec FixerSamples.
Local Open Scope list_scope.

Lemma apply_fixes_nothing_to_relocate_witness :
  apply_fixes sample_parse src_plain relocation_rules false = inr src_plain.
Proof.
  apply (FixerFacts.apply_fixes_nothing_to_relocate sample_parse src_plain
           relocation_rules false tree_plain); reflexivity.
Defined.

(** The repository's test, on the embedding: [import os] is among the
    first ten lines of the result, the guarded import is still there with
    its indentation, and the nested [import os] is gone. *)
Example test_move_imports_to_top_preserves_try_imports :
  apply_fixes sample_parse src_test relocation_rules false = inr out_test
  /\ In ("import os" ++ String PyStr.nl "")%string
        (firstn 10 (PyStr.splitlines out_test))
  /\ PyStr.contains ("        import json" ++ String PyStr.nl "") out_test = true
  /\ PyStr.contains ("    import os" ++ String PyStr.nl "") out_test = false.
Proof. repeat split. vm_compute. auto. Qed.

(** The same source through the general description of a relocation:
    line 6, the guarded import, lies in no collected span. *)
Example guarded_import_of_test_kept :
  exists before after,
    _fix_move_imports_to_top sample_parse src_test true
    = inr (finish (before ++ ("        import json" ++ String PyStr.nl "")%string
                          :: after)).
Proof.
  apply (RelocationFacts.line_outside_spans_kept sample_parse src_test true
           tree_test 5).
  - reflexivity.
  - discriminate.
  - vm_compute. repeat split; discriminate.
  - reflexivity.
  - intros (se & Hin & Hi). vm_compute in Hin.
    destruct Hin as [<-|[]]. unfold Removal.in_span in Hi. simpl in Hi. lia.
  - reflexivity.
Qed.

Lemma apply_fixes_same_or_newline_witness :
  out_move = src_move \/ PyStr.endswith_nl out_move = true.
Proof.
  apply (FixerFacts.apply_fixes_same_or_newline sample_parse src_move
           relocation_rules false out_move). reflexivity.
Defined.

(** C7, the claim as stated, fails on two sources: [src_plain], with
    nothing to relocate and no line feed at its end, comes back as it is;
    and [src_trailing], which ends with two blank lines, comes back after
    the relocation with three line feeds in a row at its end. *)
Lemma result_without_single_trailing_newline :
  apply_fixes sample_parse src_plain relocation_rules false = inr "x = 1"
  /\ PyStr.endswith_nl "x = 1" = false
  /\ apply_fixes sample_parse src_trailing relocation_rules false
     = inr out_trailing
  /\ out_trailing
     = (text_of ["import os"; ""; "def f():"]
        ++ "    return os"
        ++ String PyStr.nl (String PyStr.nl (String PyStr.nl "")))%string.
Proof. repeat split. Qed.

(** C2, on a function whose import stands on the line of its header:
    the first run moves the whole line below [import sys], the second run
    moves it again and leaves one more blank line, so the two results
    differ. On a function whose body is one import, the first run leaves
    a [def] without body, on which the second run raises SyntaxError. *)
Theorem second_run_differs :
  apply_fixes sample_parse src_compact relocation_rules false
  = inr out_compact
  /\ apply_fixes sample_parse out_compact relocation_rules false
     = inr out_compact_twice
  /\ String.eqb out_compact out_compact_twice = false
  /\ apply_fixes sample_parse src_only_import relocation_rules false
     = inr out_only_import
  /\ apply_fixes sample_parse out_only_import relocation_rules false
     = inl SyntaxError.
Proof. repeat split. Qed.

(** C3, on the same function: the line [def f(): import os] is moved
    as a whole. In the result the import is still nested in [f] and still
    one the collector would relocate, and the only import at the top
    level of the module is [import sys], which was there before. *)
Theorem compact_function_import_stays_nested :
  nested_unguarded_imports tree_compact = [Import 2 (Some 2)]
  /\ apply_fixes sample_parse src_compact relocation_rules false
     = inr out_compact
  /\ sample_parse out_compact = Some tree_out_compact
  /\ nested_unguarded_imports tree_out_compact = [Import 3 (Some 3)]
  /\ filter is_import (body tree_out_compact) = [Import 1 (Some 1)]
  /\ PyStr.splitlines out_compact
     = map (fun l => (l ++ String PyStr.nl "")%string)
           ["import sys"; ""; "def f(): import os"].
Proof. repeat split. Qed.

(** C1, on two sources. With two imports that share line 2, the second
    running on to line 3, before a guarded import on line 4, the collector
    leaves the guarded import alone, but the removal loop takes the spans
    (2, 3) and then (2, 2), and the second removal deletes the line that
    has moved up to line 2, the guarded import: the result holds it
    nowhere. With an import guarded by [try] and [except*], a [TryStar]
    node for which the collector has no visitor, the import is collected
    and moved to the top of the module, out of its guard. *)
Theorem guarded_import_line_deleted :
  sample_parse src_overlap = Some tree_overlap
  /\ nested_unguarded_imports tree_overlap
     = [Import 2 (Some 2); ImportFrom 2 (Some 3)]
  /\ nth_error (PyStr.splitlines src_overlap) 3
     = Some ("    try: import json" ++ String PyStr.nl "")%string
  /\ to_remove (map (span_of (PyStr.splitlines src_overlap))
                    (offending (collect tree_overlap)))
     = [(2, 3); (2, 2)]
  /\ apply_fixes sample_parse src_overlap relocation_rules false
     = inr out_overlap
  /\ PyStr.contains "import json" out_overlap = false
  /\ sample_parse src_trystar = Some tree_trystar
  /\ nested_unguarded_imports tree_trystar = [Import 3 (Some 3)]
  /\ apply_fixes sample_parse src_trystar relocation_rules false
     = inr out_trystar
  /\ hd_error (PyStr.splitlines out_trystar)
     = Some ("import json" ++ String PyStr.nl "")%string
  /\ PyStr.contains "        import json" out_trystar = false.
Proof. repeat split. Qed.

(** C10, on a source whose one import is guarded by [try] with
    [except*]. No import of it is nested in a function outside every
    [try], so there is nothing to relocate and the claim has the source
    returned as it is; but the node is a [TryStar], for which the collector
    has no visitor, so the import is collected, and [apply_fixes] returns
    another text, with the import moved out of its guard. *)
Theorem except_star_source_is_rewritten :
  sample_parse src_trystar = Some tree_trystar
  /\ RelocationSpec.imports_outside_every_try tree_trystar = []
  /\ offending (collect tree_trystar) = [Import 3 (Some 3)]
  /\ apply_fixes sample_parse src_trystar relocation_rules false
     = inr out_trystar
  /\ String.eqb out_trystar src_trystar = false.
Proof. repeat split. Qed.
End FixerCases.

(* ------------------------------------------------------------------ *)
(** ** More about the fixer *)

Module FixerMore.
Import Ast Fixers FixerSpec RelocationSpec.
Local Open Scope list_scope.

(** X1. The collector, in full. Its [offending] list is exactly the imports
    nested in a function and under no [Try] node, in source order; both
    of its counters are back at 0; and [module_docstring_end] is the end
    line of the first statement when that is a docstring, and unset
    otherwise. *)
Theorem collector_result (tree : Module_) :
  offending (collect tree) = nested_unguarded_imports tree
  /\ in_function (collect tree) = 0
  /\ in_try (collect tree) = 0
  /\ module_docstring_end (collect tree)
     = match body tree with
       | n :: _ => if is_docstring n then Some (end_lineno_or_lineno n) else None
       | [] => None
       end.
Proof.
  unfold collect, visit_Module.
  set (c1 := match body tree with
             | [] => collector_init
             | n :: _ => if is_docstring n then _ else collector_init
             end).
  assert (H : in_function c1 = 0 /\ in_try c1 = 0 /\ offending c1 = []
              /\ module_docstring_end c1
                 = match body tree with
                   | n :: _ => if is_docstring n
                               then Some (end_lineno_or_lineno n) else None
                   | [] => None
                   end).
  { unfold c1. destruct (body tree) as [|n r]; [auto|].
    destruct (is_docstring n); auto. }
  destruct H as (Hf & Ht & Ho & Hd).
  rewrite CollectorFacts.generic_visit_spec; try lia.
  - unfold add_offending, flag_fn, flag_try, nested_unguarded_imports. simpl.
    rewrite Hf, Ht, Ho, Hd. auto.
  - apply Forall_forall. intros n _. apply CollectorFacts.visit_spec.
Qed.

Lemma moved_loop_plain spans : forall moved seen,
  moved_loop false spans moved seen
  = moved ++ map moved_text (filter has_text spans).
Proof.
  induction spans as [|sp spans IH]; intros moved seen; simpl.
  - now rewrite app_nil_r.
  - unfold has_text, key.
    destruct (String.eqb (PyStr.strip (text sp)) ""); simpl; [apply IH|].
    rewrite IH, <- app_assoc. reflexivity.
Qed.

Lemma moved_loop_dedupe spans : forall moved seen,
  exists kept,
    moved_loop true spans moved seen = moved ++ map moved_text kept
    /\ map key kept = uniq seen (map key (filter has_text spans))
    /\ (forall sp, In sp kept -> In sp spans /\ ~ In (key sp) seen)
    /\ NoDup (map key kept)
    /\ (forall sp, In sp spans -> key sp <> "" ->
                   In (key sp) seen \/ In (key sp) (map key kept)).
Proof.
  induction spans as [|sp spans IH]; intros moved seen.
  - exists []. simpl. rewrite app_nil_r.
    split; [reflexivity|]. split; [reflexivity|].
    split; [intros ? []|]. split; [apply NoDup_nil|]. intros ? [].
  - simpl. unfold has_text. fold (key sp).
    destruct (String.eqb (key sp) "") eqn:Ek; simpl.
    + destruct (IH moved seen) as (kept & E & Hk & Hin & Hnd & Hcov).
      exists kept. repeat split; try assumption.
      * right. now apply Hin.
      * now apply Hin.
      * intros sp' [<-|H] Hne; [|now apply Hcov].
        apply String.eqb_eq in Ek. contradiction.
    + destruct (PyStr.mem (key sp) seen) eqn:Em.
      * destruct (IH moved seen) as (kept & E & Hk & Hin & Hnd & Hcov).
        exists kept. repeat split; try assumption.
        -- right. now apply Hin.
        -- now apply Hin.
        -- intros sp' [<-|H] Hne; [|now apply Hcov].
           left. now apply EngineFacts.mem_In.
      * destruct (IH (moved ++ [moved_text sp]) (key sp :: seen))
          as (kept & E & Hk & Hin & Hnd & Hcov).
        exists (sp :: kept). simpl. repeat split.
        -- unfold moved_text in *. rewrite E, <- app_assoc. reflexivity.
        -- now rewrite Hk.
        -- destruct H as [<-|H]; [now left | right; now apply Hin].
        -- destruct H as [<-|H].
           ++ intros Hs. apply EngineFacts.mem_In in Hs. congruence.
           ++ intros Hs. apply (proj2 (Hin sp0 H)). now right.
        -- constructor; [|assumption].
           intros Hi. apply in_map_iff in Hi as (sp' & Ekk & Hsp').
           apply (proj2 (Hin sp' Hsp')). left. now rewrite Ekk.
        -- intros sp' [<-|H] Hne; [right; now left|].
           destruct (Hcov sp' H Hne) as [[Heq|Hs]|Hkk].
           ++ right. left. exact Heq.
           ++ now left.
           ++ right. now right.
Qed.

(** X2. Deduplication of the captured spans. Without [dedupe], every span
    that has text gives one moved text, in order. With [dedupe], the keys
    (stripped texts) of the moved spans are those of the spans that have
    text, each once, at its first occurrence: no key is moved twice and none
    is lost. *)
Theorem dedupe_keeps_first_occurrences (spans : list _ImportSpan) :
  moved_loop false spans [] [] = map moved_text (filter has_text spans)
  /\ exists kept,
       moved_loop true spans [] [] = map moved_text kept
       /\ map key kept = uniq [] (map key (filter has_text spans))
       /\ NoDup (map key kept)
       /\ (forall sp, In sp kept -> In sp spans)
       /\ (forall sp, In sp spans -> key sp <> "" ->
                      In (key sp) (map key kept)).
Proof.
  split; [apply (moved_loop_plain spans [] [])|].
  destruct (moved_loop_dedupe spans [] []) as (kept & E & Hk & Hin & Hnd & Hcov).
  exists kept. repeat split; try assumption.
  - now apply Hin.
  - intros sp H Hne. destruct (Hcov sp H Hne) as [[]|]; assumption.
Qed.

Lemma pair_eqb_eq p q : pair_eqb p q = true <-> p = q.
Proof.
  destruct p as [a b], q as [c d]. unfold pair_eqb. simpl.
  rewrite andb_true_iff, !Z.eqb_eq. split; [intros []; congruence|].
  intros E. inversion E. auto.
Qed.

Lemma pair_ltb_gt p q : pair_ltb q p = true <-> pair_gt p q.
Proof.
  unfold pair_ltb, pair_gt.
  rewrite orb_true_iff, andb_true_iff, !Z.ltb_lt, Z.eqb_eq. intuition lia.
Qed.

Lemma pair_trichotomy p q :
  pair_eqb p q = false -> pair_ltb q p = false -> pair_gt q p.
Proof.
  intros He Hl.
  assert (Hne : p <> q) by (intros E; apply pair_eqb_eq in E; congruence).
  assert (Hng : ~ pair_gt p q) by (intros G; apply pair_ltb_gt in G; congruence).
  destruct p as [a b], q as [c d]. unfold pair_gt in *. simpl in *.
  destruct (Z.lt_trichotomy a c) as [H|[H|H]]; [lia| |lia].
  destruct (Z.lt_trichotomy b d) as [H'|[H'|H']]; [lia| |lia].
  subst. congruence.
Qed.

Lemma insert_desc_In p l x : In x (insert_desc p l) <-> x = p \/ In x l.
Proof.
  induction l as [|q l IH]; simpl; [intuition|].
  destruct (pair_eqb p q) eqn:Ee.
  - apply pair_eqb_eq in Ee. subst. simpl. intuition.
  - destruct (pair_ltb q p); simpl; [intuition|]. rewrite IH. intuition.
Qed.

Lemma insert_desc_sorted p l :
  strictly_descending l -> strictly_descending (insert_desc p l).
Proof.
  induction l as [|q l IH]; intros Hs; simpl; [auto|].
  destruct (pair_eqb p q) eqn:Ee; [exact Hs|].
  destruct (pair_ltb q p) eqn:El.
  - simpl. split; [now apply pair_ltb_gt | exact Hs].
  - pose proof (pair_trichotomy p q Ee El) as Hqp.
    destruct Hs as [Hh Hr]. specialize (IH Hr).
    change (strictly_descending (q :: insert_desc p l)).
    simpl. split; [|exact IH].
    destruct l as [|r l]; simpl; [exact Hqp|].
    destruct (pair_eqb p r); [exact Hh|].
    destruct (pair_ltb r p); [exact Hqp | exact Hh].
Qed.

Lemma pair_gt_trans a b c : pair_gt a b -> pair_gt b c -> pair_gt a c.
Proof. unfold pair_gt. lia. Qed.

Lemma descending_head a l :
  strictly_descending (a :: l) -> forall b, In b l -> pair_gt a b.
Proof.
  revert a. induction l as [|c l IH]; intros a Hs b Hb; [contradiction|].
  destruct Hs as [Hac Hr]. destruct Hb as [<-|Hb]; [exact Hac|].
  apply (pair_gt_trans a c b Hac). now apply IH.
Qed.

(** X3. The order of removal: [to_remove] holds exactly the (lineno,
    end_lineno) pairs of the spans, each once, from the largest to the
    smallest in the order of the pairs. *)
Theorem to_remove_descending (spans : list _ImportSpan) :
  strictly_descending (to_remove spans)
  /\ NoDup (to_remove spans)
  /\ forall p, In p (to_remove spans)
               <-> exists sp, In sp spans
                              /\ p = (sp_lineno sp, sp_end_lineno sp).
Proof.
  unfold to_remove.
  assert (G : forall acc,
             let r := fold_left
                        (fun acc sp =>
                           insert_desc (sp_lineno sp, sp_end_lineno sp) acc)
                        spans acc in
             (strictly_descending acc -> strictly_descending r)
             /\ forall p, In p r
                          <-> In p acc
                              \/ exists sp, In sp spans
                                   /\ p = (sp_lineno sp, sp_end_lineno sp)).
  { induction spans as [|sp spans IH]; intros acc; simpl.
    - split; [auto|]. intros p. split; [auto|]. intros [H|(sp & [] & _)]; exact H.
    - destruct (IH (insert_desc (sp_lineno sp, sp_end_lineno sp) acc)) as [H1 H2].
      split.
      + intros Hs. apply H1. now apply insert_desc_sorted.
      + intros p. rewrite H2, insert_desc_In. split.
        * intros [[->|H]|(sp' & H & E)]; eauto.
        * intros [H|(sp' & [<-|H] & E)]; eauto. }
  destruct (G []) as [H1 H2]. specialize (H1 I).
  split; [exact H1|]. split.
  - clear H2. induction (fold_left _ spans []) as [|a l IH]; [constructor|].
    constructor.
    + intros Hin. pose proof (descending_head a l H1 a Hin) as Hg.
      unfold pair_gt in Hg. lia.
    + apply IH. apply H1.
  - intros p. rewrite H2. split; [intros [[]|H]; exact H | auto].
Qed.
End FixerMore.

Module RelocationMore.
Import Ast Fixers FixerSpec Removal RelocationSpec.
Local Open Scope list_scope.

Lemma thinned_length rm i l l' :
  thinned rm i l l' -> (length l' <= length l)%nat.
Proof. intros H. induction H; simpl; lia. Qed.


(** X4. The removal loop on spans that are in range and disjoint, listed
    from the bottom up: it raises nothing; the lines left are the lines of
    the source without those of the spans and without some blank lines; no
    more lines than before; and every line that is in no span and is not
    blank is still there. *)
Theorem removal_of_disjoint_spans (lines : list string) (rm : list (Z * Z)) :
  spans_ok (PyList.len lines + 1) rm ->
  exists lines',
    remove_loop rm lines = inr lines'
    /\ thinned rm 0 lines lines'
    /\ (length lines' <= length lines)%nat
    /\ forall k x, nth_error lines k = Some x -> ~ in_spans rm k ->
                   is_blank x = false -> In x lines'.
Proof.
  intros Hok.
  destruct (RemovalFacts.remove_loop_spec rm lines Hok) as (lines' & E & Hth).
  exists lines'. split; [exact E|]. split; [exact Hth|].
  split; [exact (thinned_length _ _ _ _ Hth)|].
  intros k x Hk Hns Hb.
  apply (RemovalFacts.thinned_survives _ _ _ _ Hth k x); assumption.
Qed.

Lemma removal_of_disjoint_spans_witness :
  exists lines',
    remove_loop [(2, 2)] (PyStr.splitlines FixerSamples.src_move) = inr lines'
    /\ thinned [(2, 2)] 0 (PyStr.splitlines FixerSamples.src_move) lines'
    /\ (length lines' <= length (PyStr.splitlines FixerSamples.src_move))%nat
    /\ forall k x,
         nth_error (PyStr.splitlines FixerSamples.src_move) k = Some x ->
         ~ in_spans [(2, 2)] k -> is_blank x = false -> In x lines'.
Proof.
  apply (removal_of_disjoint_spans (PyStr.splitlines FixerSamples.src_move)
                                   [(2, 2)]).
  vm_compute. repeat split; discriminate.
Defined.

(** X5. The insertion raises nothing, whatever the tree, the docstring end,
    the texts and the lines. The block becomes one element of the list of
    lines, at an index [i] within it, with the lines before and after as
    they were; a line feed precedes the moved texts exactly when the line
    before [i] exists and is not blank, and one follows them exactly when
    the line at [i] exists and is not blank; and [i] is not above the end
    of the leading import block, as far as the lines reach. *)
Theorem insertion_block_and_separators
  (tree : Module_) (doc_end : option Z) (moved lines : list string) :
  exists (i : nat) (prefix suffix : string),
    insert_block tree doc_end moved lines
    = inr (finish (firstn i lines
                   ++ (prefix ++ PyStr.concat moved ++ suffix)%string
                      :: skipn i lines))
    /\ (i <= length lines)%nat
    /\ prefix = match i with
                | O => ""
                | S j => match nth_error lines j with
                         | Some l => if is_blank l then "" else String PyStr.nl ""
                         | None => ""
                         end
                end
    /\ suffix = match nth_error lines i with
                | Some l => if is_blank l then "" else String PyStr.nl ""
                | None => ""
                end
    /\ forall t, top_import_end tree = Some t ->
                 Z.min t (PyList.len lines) <= Z.of_nat i.
Proof.
  unfold insert_block.
  set (c := TokenContext.compute_insertion_line_for_imports _ _).
  assert (Hc : 0 <= c) by apply RelocationFacts.insertion_line_nonneg.
  set (m := match top_import_end tree with Some t => Z.max c t | None => c end).
  assert (Hm : 0 <= m) by (unfold m; destruct (top_import_end tree); lia).
  set (i := Z.min m (PyList.len lines)).
  assert (Hi : 0 <= i <= PyList.len lines) by (unfold i, PyList.len; lia).
  assert (Hget : forall k, 0 <= k < PyList.len lines ->
                   PyList.get lines k = nth_error lines (Z.to_nat k)
                   /\ exists l, nth_error lines (Z.to_nat k) = Some l).
  { intros k Hk. unfold PyList.get, PyList.position.
    replace (k <? 0) with false by (symmetry; apply Z.ltb_ge; lia).
    replace (0 <=? k) with true by (symmetry; apply Z.leb_le; lia).
    replace (k <? PyList.len lines) with true by (symmetry; apply Z.ltb_lt; lia).
    simpl. split; [reflexivity|].
    destruct (nth_error lines (Z.to_nat k)) as [l|] eqn:E; [eauto|].
    apply nth_error_None in E. unfold PyList.len in Hk. lia. }
  exists (Z.to_nat i).
  exists (match Z.to_nat i with
          | O => ""
          | S j => match nth_error lines j with
                   | Some l => if is_blank l then "" else String PyStr.nl ""
                   | None => ""
                   end
          end).
  exists (match nth_error lines (Z.to_nat i) with
          | Some l => if is_blank l then "" else String PyStr.nl ""
          | None => ""
          end).
  split; [|split; [unfold PyList.len in Hi; lia|split; [reflexivity|split; [reflexivity|]]]].
  - destruct (0 <? i) eqn:E0.
    + apply Z.ltb_lt in E0.
      destruct (Hget (i - 1) ltac:(lia)) as [G1 [l1 Hl1]]. rewrite G1, Hl1.
      replace (Z.to_nat i) with (S (Z.to_nat (i - 1))) by lia. rewrite Hl1.
      replace (S (Z.to_nat (i - 1))) with (Z.to_nat i) by lia.
      destruct (i <? PyList.len lines) eqn:E1.
      * apply Z.ltb_lt in E1. destruct (Hget i ltac:(lia)) as [G2 [l2 Hl2]].
        rewrite G2, Hl2. unfold PyList.insert_at, PyList.clip.
        replace (i <? 0) with false by (symmetry; apply Z.ltb_ge; lia).
        rewrite Z.min_l by lia.
        destruct (is_blank l1), (is_blank l2); reflexivity.
      * apply Z.ltb_ge in E1.
        assert (En : nth_error lines (Z.to_nat i) = None)
          by (apply nth_error_None; unfold PyList.len in E1; lia).
        rewrite En. unfold PyList.insert_at, PyList.clip.
        replace (i <? 0) with false by (symmetry; apply Z.ltb_ge; lia).
        rewrite Z.min_l by lia.
        destruct (is_blank l1); reflexivity.
    + apply Z.ltb_ge in E0. assert (i = 0) by lia.
      replace (Z.to_nat i) with 0%nat by lia.
      destruct (i <? PyList.len lines) eqn:E1.
      * apply Z.ltb_lt in E1. destruct (Hget i ltac:(lia)) as [G2 [l2 Hl2]].
        rewrite G2, Hl2. replace (Z.to_nat i) with 0%nat in Hl2 by lia.
        rewrite Hl2. unfold PyList.insert_at, PyList.clip.
        replace (i <? 0) with false by (symmetry; apply Z.ltb_ge; lia).
        rewrite Z.min_l by lia. replace (Z.to_nat i) with 0%nat by lia.
        destruct (is_blank l2); reflexivity.
      * apply Z.ltb_ge in E1.
        assert (En : nth_error lines 0 = None)
          by (apply nth_error_None; unfold PyList.len in E1; lia).
        rewrite En. unfold PyList.insert_at, PyList.clip.
        replace (i <? 0) with false by (symmetry; apply Z.ltb_ge; lia).
        rewrite Z.min_l by lia. replace (Z.to_nat i) with 0%nat by lia.
        reflexivity.
  - intros t Ht. unfold i, m. rewrite Ht. lia.
Qed.

Lemma moved_of_text dedupe spans :
  (exists sp, In sp spans /\ has_text sp = true) ->
  moved_loop dedupe spans [] [] <> [].
Proof.
  intros (sp & Hin & Ht). destruct dedupe.
  - destruct (FixerMore.moved_loop_dedupe spans [] [])
      as (kept & E & _ & _ & _ & Hcov).
    rewrite E. simpl.
    assert (Hk : key sp <> "").
    { unfold has_text in Ht. intros Ek. rewrite Ek in Ht. discriminate. }
    destruct (Hcov sp Hin Hk) as [[]|Hi].
    destruct kept; [destruct Hi | discriminate].
  - rewrite (FixerMore.moved_loop_plain spans [] []). simpl.
    assert (Hf : In sp (filter has_text spans)) by (apply filter_In; auto).
    destruct (filter has_text spans); [destruct Hf | discriminate].
Qed.

Section WithParser.
Variable ast_parse : string -> option Module_.

(** X6. A relocation is a removal followed by an insertion. When the source
    parses, one of the collected spans has text, and the spans to remove are
    in range and disjoint, [_fix_move_imports_to_top] raises nothing and its
    result is: the lines of the source without those of the spans (and
    without some blank lines), with one block put in among them, made of the
    moved texts between two optional line feeds. Every line of the source
    that is in no span and is not blank is among the lines kept, and the
    result ends with a line feed. *)
Theorem relocation_removes_then_inserts
  (source : string) (dedupe : bool) (tree : Module_) :
  let lines := PyStr.splitlines source in
  let spans := map (span_of lines) (nested_unguarded_imports tree) in
  ast_parse source = Some tree ->
  (exists sp, In sp spans /\ has_text sp = true) ->
  spans_ok (PyList.len lines + 1) (to_remove spans) ->
  exists (lines' : list string) (i : nat) (prefix suffix out : string),
    _fix_move_imports_to_top ast_parse source dedupe = inr out
    /\ out = finish (firstn i lines'
                     ++ (prefix ++ PyStr.concat (moved_loop dedupe spans [] [])
                                ++ suffix)%string
                        :: skipn i lines')
    /\ thinned (to_remove spans) 0 lines lines'
    /\ (i <= length lines')%nat
    /\ (prefix = "" \/ prefix = String PyStr.nl "")
    /\ (suffix = "" \/ suffix = String PyStr.nl "")
    /\ (forall k x, nth_error lines k = Some x ->
                    ~ in_spans (to_remove spans) k ->
                    is_blank x = false -> In x lines')
    /\ PyStr.endswith_nl out = true.
Proof.
  intros lines spans Hp Ht Hok.
  assert (Hm : moved_loop dedupe spans [] [] <> []) by now apply moved_of_text.
  destruct (RelocationFacts.relocation_shape ast_parse source dedupe tree
              Hp Hm Hok)
    as (lines' & i & prefix & suffix & Hth & Hi & Hpre & Hsuf & E).
  fold lines in E, Hth. fold spans in E, Hth.
  exists lines', i, prefix, suffix. eexists.
  split; [exact E|]. split; [reflexivity|].
  split; [exact Hth|]. split; [exact Hi|].
  split; [exact Hpre|]. split; [exact Hsuf|]. split.
  - intros k x Hk Hns Hb.
    apply (RemovalFacts.thinned_survives _ _ _ _ Hth k x); assumption.
  - destruct (FixerFacts.fix_move_same_or_newline ast_parse source dedupe _ E)
      as [Es|Hn]; [|exact Hn].
    apply FixerFacts.finish_endswith.
    rewrite FixerFacts.concat_app, FixerFacts.concat_cons.
    intros Ee. apply FixerFacts.append_empty in Ee as [_ Ee].
    apply FixerFacts.append_empty in Ee as [Ee _].
    apply FixerFacts.append_empty in Ee as [_ Ee].
    apply FixerFacts.append_empty in Ee as [Ee _].
    pose proof (FixerFacts.moved_loop_nonempty dedupe spans [] []
                  (Forall_nil _)) as Hall.
    destruct (moved_loop dedupe spans [] []) as [|m ms]; [now apply Hm|].
    rewrite FixerFacts.concat_cons in Ee.
    apply FixerFacts.append_empty in Ee as [Ee _].
    inversion Hall; subst. contradiction.
Qed.

End WithParser.

Lemma relocation_removes_then_inserts_witness :
  exists (lines' : list string) (i : nat) (prefix suffix out : string),
    _fix_move_imports_to_top FixerSamples.sample_parse FixerSamples.src_test
                             true = inr out
    /\ out = finish (firstn i lines'
                     ++ (prefix
                         ++ PyStr.concat
                              (moved_loop true
                                 (map (span_of (PyStr.splitlines
                                                  FixerSamples.src_test))
                                      (nested_unguarded_imports
                                         FixerSamples.tree_test)) [] [])
                         ++ suffix)%string
                        :: skipn i lines')
    /\ thinned (to_remove
                  (map (span_of (PyStr.splitlines FixerSamples.src_test))
                       (nested_unguarded_imports FixerSamples.tree_test)))
               0 (PyStr.splitlines FixerSamples.src_test) lines'
    /\ (i <= length lines')%nat
    /\ (prefix = "" \/ prefix = String PyStr.nl "")
    /\ (suffix = "" \/ suffix = String PyStr.nl "")
    /\ (forall k x,
          nth_error (PyStr.splitlines FixerSamples.src_test) k = Some x ->
          ~ in_spans
              (to_remove
                 (map (span_of (PyStr.splitlines FixerSamples.src_test))
                      (nested_unguarded_imports FixerSamples.tree_test))) k ->
          is_blank x = false -> In x lines')
    /\ PyStr.endswith_nl out = true.
Proof.
  apply (relocation_removes_then_inserts FixerSamples.sample_parse
           FixerSamples.src_test true FixerSamples.tree_test).
  - reflexivity.
  - eexists. split; [left; reflexivity|]. reflexivity.
  - vm_compute. repeat split; discriminate.
Defined.

End RelocationMore.

Module ApplyFixesFacts.
Import Ast Fixers FixerSpec Removal RelocationSpec.
Local Open Scope list_scope.

Lemma find_move_app acts a d :
  find_move (acts ++ [(a, d)])
  = match find_move acts with
    | Some x => Some x
    | None => if String.eqb a "move_imports_to_top" then Some d else None
    end.
Proof.
  unfold find_move. induction acts as [|[a' d'] acts IH]; simpl.
  - destruct (String.eqb a "move_imports_to_top"); reflexivity.
  - destruct (String.eqb a' "move_imports_to_top"); [reflexivity|exact IH].
Qed.

Lemma find_move_none acts :
  ~ In "move_imports_to_top" (map fst acts) -> find_move acts = None.
Proof.
  unfold find_move. induction acts as [|[a d] acts IH]; simpl; intros H.
  - reflexivity.
  - destruct (String.eqb a "move_imports_to_top") eqn:E.
    + apply String.eqb_eq in E. exfalso. apply H. now left.
    + apply IH. intros Hin. apply H. now right.
Qed.

Lemma find_move_some acts :
  In "move_imports_to_top" (map fst acts) -> exists d, find_move acts = Some d.
Proof.
  unfold find_move. induction acts as [|[a d] acts IH]; simpl; intros H.
  - contradiction.
  - destruct (String.eqb a "move_imports_to_top") eqn:E.
    + now exists d.
    + apply IH. destruct H as [H|H]; [|exact H].
      subst a. now rewrite String.eqb_refl in E.
Qed.

(** The first loop: the names gathered are distinct, and the flag kept
    for the relocation is that of the first enabled rule that asks for it. *)
Lemma actions_loop_spec rs : forall acts seen,
  (forall a, In a seen <-> In a (map fst acts)) ->
  NoDup (map fst acts) ->
  NoDup (map fst (actions_loop rs acts seen))
  /\ find_move (actions_loop rs acts seen)
     = match find_move acts with
       | Some d => Some d
       | None => move_rule_dedupe rs
       end.
Proof.
  induction rs as [|r rs IH]; intros acts seen Hseen Hnd; simpl.
  - split; [exact Hnd|]. unfold move_rule_dedupe. simpl.
    now destruct (find_move acts).
  - unfold move_rule_dedupe. simpl. unfold is_move_rule at 1.
    destruct (Rules.enabled r) eqn:Een; simpl.
    2:{ exact (IH acts seen Hseen Hnd). }
    destruct (Rules.autofix r) as [af|] eqn:Eaf.
    2:{ exact (IH acts seen Hseen Hnd). }
    destruct (PyStr.mem (Rules.action af) seen) eqn:Em.
    + apply EngineFacts.mem_In in Em.
      destruct (IH acts seen Hseen Hnd) as [N F]. split; [exact N|].
      rewrite F. destruct (find_move acts) as [d|] eqn:Ef; [reflexivity|].
      destruct (String.eqb (Rules.action af) "move_imports_to_top") eqn:Ea;
        [|reflexivity].
      apply String.eqb_eq in Ea. rewrite Ea in Em. apply Hseen in Em.
      apply find_move_some in Em as [d Ed]. congruence.
    + assert (Hn : ~ In (Rules.action af) seen).
      { intros Hin. apply EngineFacts.mem_In in Hin. congruence. }
      destruct (IH (acts ++ [(Rules.action af, Rules.dedupe af)])
                   (Rules.action af :: seen)) as [N F].
      * intros a. rewrite map_app, in_app_iff. simpl. rewrite <- Hseen. tauto.
      * rewrite map_app. simpl. apply NoDup_app; [exact Hnd| |].
        -- constructor; [intros []|constructor].
        -- intros a Ha [Hb|[]]. subst a. apply Hn. now apply Hseen.
      * split; [exact N|]. rewrite F, find_move_app.
        destruct (find_move acts); [reflexivity|].
        destruct (String.eqb (Rules.action af) "move_imports_to_top");
          simpl; rewrite ?Eaf; reflexivity.
Qed.

Section WithParser.
Variable ast_parse : string -> option Module_.

Local Abbreviation fix_move := (_fix_move_imports_to_top ast_parse).
Local Abbreviation fix_loop' := (fix_loop ast_parse).

(** A list of actions without the relocation changes nothing. *)
Lemma fix_loop_unknown acts unsafe out :
  ~ In "move_imports_to_top" (map fst acts) ->
  fix_loop' acts unsafe out = inr out.
Proof.
  induction acts as [|[a d] acts IH]; simpl; intros H; [reflexivity|].
  destruct (String.eqb a "move_imports_to_top") eqn:E.
  - apply String.eqb_eq in E. exfalso. apply H. now left.
  - destruct (negb unsafe); apply IH; intros Hin; apply H; now right.
Qed.

(** The second loop over distinct names is one relocation at most. *)
Lemma fix_loop_distinct acts unsafe out :
  NoDup (map fst acts) ->
  fix_loop' acts unsafe out
  = match find_move acts with
    | Some d => fix_move out d
    | None => inr out
    end.
Proof.
  induction acts as [|[a d] acts IH]; simpl; intros Hnd; [reflexivity|].
  inversion Hnd as [|? ? Hni Hnd']; subst.
  unfold find_move. simpl.
  destruct (String.eqb a "move_imports_to_top") eqn:E.
  - apply String.eqb_eq in E. subst a. simpl.
    destruct (fix_move out d) as [e|out']; [reflexivity|].
    now apply fix_loop_unknown.
  - fold (find_move acts). destruct (negb unsafe); now apply IH.
Qed.

Lemma apply_fixes_spec source ruleset unsafe :
  apply_fixes ast_parse source ruleset unsafe
  = match move_rule_dedupe (Rules.rules ruleset) with
    | Some d => fix_move source d
    | None => inr source
    end.
Proof.
  unfold apply_fixes.
  destruct (actions_loop_spec (Rules.rules ruleset) [] []) as [N F].
  - intros a. simpl. tauto.
  - constructor.
  - rewrite (fix_loop_distinct _ _ _ N), F. reflexivity.
Qed.

End WithParser.
End ApplyFixesFacts.

Module ApplyFixesTheorems.
Import Ast Fixers FixerSpec Removal RelocationSpec.
Local Open Scope list_scope.

Section WithParser.
Variable ast_parse : string -> option Module_.

(** X7. [apply_fixes] is one relocation at most, whatever the number of
    rules: that of the first enabled rule whose autofix action is
    [move_imports_to_top], with the [dedupe] flag of that rule; the later
    rules with that action, the disabled rules, the rules without an autofix
    and the rules with another action have no effect. Without such a rule
    the source is returned as it is, and is not even parsed. *)
Theorem apply_fixes_first_relocation_rule
  (source : string) (ruleset : Rules.RuleSet) (unsafe : bool) :
  apply_fixes ast_parse source ruleset unsafe
  = match move_rule_dedupe (Rules.rules ruleset) with
    | Some d => _fix_move_imports_to_top ast_parse source d
    | None => inr source
    end.
Proof. apply ApplyFixesFacts.apply_fixes_spec. Qed.

(** X8. The flag [unsafe] has no effect on the result of [apply_fixes]: an
    action that is not known is skipped with it as without it. *)
Theorem apply_fixes_ignores_unsafe
  (source : string) (ruleset : Rules.RuleSet) :
  apply_fixes ast_parse source ruleset true
  = apply_fixes ast_parse source ruleset false.
Proof.
  rewrite !ApplyFixesFacts.apply_fixes_spec. reflexivity.
Qed.

(** X9. A rule set in which no enabled rule asks for the relocation leaves
    every source as it is, also one that does not parse: no [SyntaxError]
    is raised for it. *)
Theorem apply_fixes_without_relocation_rule
  (source : string) (ruleset : Rules.RuleSet) (unsafe : bool) :
  (forall r, In r (Rules.rules ruleset) -> is_move_rule r = false) ->
  apply_fixes ast_parse source ruleset unsafe = inr source.
Proof.
  intros H. rewrite ApplyFixesFacts.apply_fixes_spec.
  unfold move_rule_dedupe.
  destruct (find is_move_rule (Rules.rules ruleset)) as [r|] eqn:E;
    [|reflexivity].
  apply find_some in E as [Hin Hr]. rewrite (H r Hin) in Hr. discriminate.
Qed.

End WithParser.
End ApplyFixesTheorems.

Module ApplyFixesCases.
Import Ast Fixers Rules RelocationSpec.
Local Open Scope list_scope.

Lemma apply_fixes_without_relocation_rule_witness :
  apply_fixes FixerSamples.sample_parse "def f(:"
              (mkRuleSet 1 [EngineSamples.ANYIMPORT; RelocationSpec.PYFMT001_disabled]) true
  = inr "def f(:".
Proof.
  apply (ApplyFixesTheorems.apply_fixes_without_relocation_rule
           FixerSamples.sample_parse "def f(:"
           (mkRuleSet 1 [EngineSamples.ANYIMPORT; RelocationSpec.PYFMT001_disabled]) true).
  intros r [<-|[<-|[]]]; reflexivity.
Defined.
End ApplyFixesCases.

Module InsertionLine.
Import TokenContext.
Local Open Scope list_scope.

Lemma skip_blank_stop rest : forall i,
  i <= skip_blank rest i <= i + PyList.len rest
  /\ (skip_blank rest i < i + PyList.len rest ->
      exists l, nth_error rest (Z.to_nat (skip_blank rest i - i)) = Some l
                /\ String.eqb (PyStr.strip l) "" = false).
Proof.
  unfold PyList.len.
  induction rest as [|l rest IH]; intros i; simpl length.
  - simpl. split; [lia|]. intros H. lia.
  - simpl skip_blank. destruct (String.eqb (PyStr.strip l) "") eqn:E.
    + destruct (IH (i + 1)) as [Hb Hs]. split; [lia|].
      intros H. destruct Hs as (l' & Hl' & Hn); [lia|].
      exists l'. split; [|exact Hn].
      replace (Z.to_nat (skip_blank rest (i + 1) - i))
        with (S (Z.to_nat (skip_blank rest (i + 1) - (i + 1)))) by lia.
      exact Hl'.
    + split; [lia|]. intros _. exists l.
      replace (Z.to_nat (i - i)) with 0%nat by lia. auto.
Qed.

Lemma skip_blank_from_stop lines i :
  0 <= i ->
  let r := skip_blank_from lines i in
  i <= r <= Z.max i (PyList.len lines)
  /\ (r < PyList.len lines ->
      exists l, nth_error lines (Z.to_nat r) = Some l
                /\ String.eqb (PyStr.strip l) "" = false).
Proof.
  intros Hi. unfold skip_blank_from.
  destruct (i <? PyList.len lines) eqn:E; simpl.
  - apply Z.ltb_lt in E.
    destruct (skip_blank_stop (skipn (Z.to_nat i) lines) i) as [Hb Hs].
    assert (Hl : PyList.len (skipn (Z.to_nat i) lines) = PyList.len lines - i).
    { unfold PyList.len in *. rewrite length_skipn. lia. }
    rewrite Hl in Hb, Hs. split; [lia|].
    intros H. destruct Hs as (l & Hn & Hne); [lia|].
    exists l. split; [|exact Hne].
    rewrite nth_error_skipn in Hn.
    replace (Z.to_nat (skip_blank (skipn (Z.to_nat i) lines) i))
      with (Z.to_nat i
            + Z.to_nat (skip_blank (skipn (Z.to_nat i) lines) i - i))%nat by lia.
    exact Hn.
  - apply Z.ltb_ge in E. split; [lia|]. intros H. lia.
Qed.

(** Before the blank lines are skipped, the index is within the first
    three lines and within the file. *)
Lemma header_lines_bound (lines : list string) :
  let i0 := match lines with
            | l :: _ => if PyStr.startswith "#!" l then 0 + 1 else 0
            | [] => 0
            end in
  let i1 := if i0 <? Z.min (i0 + 2) (PyList.len lines) then
              match PyList.get lines i0 with
              | Some l => if Pep263.search l then i0 + 1 else i0
              | None => i0
              end
            else i0 in
  let i2 := if i0 + 1 <? Z.min (i0 + 2) (PyList.len lines) then
              match PyList.get lines (i0 + 1) with
              | Some l => if Pep263.search l then i0 + 2 else i1
              | None => i1
              end
            else i1 in
  0 <= i2 <= Z.min 3 (PyList.len lines).
Proof.
  intros i0 i1 i2.
  assert (H0 : 0 <= i0 <= Z.min 1 (PyList.len lines)).
  { unfold i0, PyList.len. destruct lines as [|l r]; simpl length; [lia|].
    destruct (PyStr.startswith "#!" l); lia. }
  assert (H1 : 0 <= i1 <= Z.min 2 (PyList.len lines)).
  { unfold i1. destruct (i0 <? _) eqn:E; [|lia]. apply Z.ltb_lt in E.
    destruct (PyList.get lines i0) as [l|]; [|lia].
    destruct (Pep263.search l); lia. }
  unfold i2. destruct (i0 + 1 <? _) eqn:E; [|lia]. apply Z.ltb_lt in E.
  destruct (PyList.get lines (i0 + 1)) as [l|]; [|lia].
  destruct (Pep263.search l); lia.
Qed.

(** X10. Where [compute_insertion_line_for_imports] points. The index is
    never negative; the line at it, when there is one, is not blank; without
    a docstring end (none, or one that is not positive) it is at most the
    number of lines; with a positive docstring end [e] it is at least [e],
    and at most [e] or the number of lines, whichever is larger -- so it can
    lie beyond the last line. *)
Theorem insertion_line_bounds (source : string) (doc_end : option Z) :
  let lines := PyStr.splitlines source in
  let i := compute_insertion_line_for_imports source doc_end in
  0 <= i
  /\ (i < PyList.len lines ->
      exists l, nth_error lines (Z.to_nat i) = Some l
                /\ String.eqb (PyStr.strip l) "" = false)
  /\ match doc_end with
     | Some e => if 0 <? e then e <= i <= Z.max e (PyList.len lines)
                 else i <= PyList.len lines
     | None => i <= PyList.len lines
     end.
Proof.
  intros lines i. unfold i, compute_insertion_line_for_imports.
  fold lines.
  pose proof (header_lines_bound lines) as Hh. cbv zeta in Hh.
  set (i0 := match lines with
             | [] => 0
             | l :: _ => if PyStr.startswith "#!" l then 0 + 1 else 0
             end) in *.
  set (i1 := if i0 <? Z.min (i0 + 2) (PyList.len lines) then _ else i0) in *.
  set (i2 := if i0 + 1 <? Z.min (i0 + 2) (PyList.len lines) then _ else i1) in *.
  destruct (skip_blank_from_stop lines i2 ltac:(lia)) as [Hb Hs].
  cbv zeta in Hb, Hs.
  set (i3 := skip_blank_from lines i2) in *.
  destruct doc_end as [e|].
  - destruct (0 <? e) eqn:Ee.
    + apply Z.ltb_lt in Ee.
      destruct (skip_blank_from_stop lines (Z.max i3 e) ltac:(lia)) as [Hb' Hs'].
      cbv zeta in Hb', Hs'. split; [lia|]. split; [exact Hs'|]. lia.
    + split; [lia|]. split; [exact Hs|]. lia.
  - split; [lia|]. split; [exact Hs|]. lia.
Qed.

End InsertionLine.

Module SegmentInvariants.
Import Tokenize TokenContext TokenShapes SegmentSpec.
Local Open Scope list_scope.

Lemma flush_statements e s :
  statements (flush e s) = statements s
  \/ exists st, statements (flush e s) = statements s ++ [st]
                /\ context st = mkCtx (PyStr.mem "def" (stack s)) (stack s)
                /\ (start_line st, start_col st) = stmt_start s
                /\ (exists b, (end_line st, end_col st) = tend b
                              /\ (In b (buf s) \/ e = Some b)).
Proof.
  unfold flush. destruct (significant (buf s)) as [|t0 sig] eqn:E; [now left|].
  right. destruct (stmt_start s) as [sl sc] eqn:Es.
  assert (Hl : In (last (t0 :: sig) t0) (buf s)).
  { assert (H : In (last (t0 :: sig) t0) (t0 :: sig)).
    { destruct (exists_last (l := t0 :: sig) ltac:(discriminate))
        as (l' & a & El). rewrite El, last_last. apply in_or_app.
      right. now left. }
    revert H. generalize (last (t0 :: sig) t0). intros x H.
    rewrite <- E in H. unfold significant in H.
    now apply filter_In in H as [H _]. }
  destruct e as [e|].
  - destruct (tend e) as [el ec] eqn:Ee. eexists. split; [reflexivity|].
    simpl. split; [reflexivity|]. split; [reflexivity|].
    exists e. split; [now rewrite Ee | now right].
  - destruct (tend (last (t0 :: sig) t0)) as [el ec] eqn:Ee.
    eexists. split; [reflexivity|].
    simpl. split; [reflexivity|]. split; [reflexivity|].
    exists (last (t0 :: sig) t0). split; [now rewrite Ee | now left].
Qed.

Lemma mem_In_kw k : PyStr.mem k _KW_SUITE = true -> In k _KW_SUITE.
Proof. apply EngineFacts.mem_In. Qed.

Lemma advance_keywords s t :
  Forall (fun k => In k _KW_SUITE) (stack s) ->
  kw_ok (seen_suite_kw s) ->
  Forall (fun k => In k _KW_SUITE) (stack (advance s t))
  /\ kw_ok (seen_suite_kw (advance s t)).
Proof.
  intros Hs Hk. unfold advance. cbn [stack seen_suite_kw].
  set (d := next_depth (paren_depth s) t).
  set (ka := detect_suite d (last_sig s) t (seen_suite_kw s, suite_armed s)).
  assert (Hka : kw_ok (fst ka)).
  { unfold ka, detect_suite.
    assert (H1 : kw_ok (fst (if token_type_eqb (ttype t) NAME
                                  && PyStr.mem (tstring t) _KW_SUITE && (d =? 0)
                             then (Some (tstring t), false)
                             else (seen_suite_kw s, suite_armed s)))).
    { destruct (token_type_eqb (ttype t) NAME
                && PyStr.mem (tstring t) _KW_SUITE && (d =? 0)) eqn:E;
        [|exact Hk].
      apply andb_true_iff in E as [E _]. apply andb_true_iff in E as [_ E].
      cbn [fst kw_ok]. now apply mem_In_kw. }
    destruct (last_sig s) as [l|]; [|exact H1].
    destruct (is_name l "async" && is_name t "def" && (d =? 0)); [|exact H1].
    simpl. tauto. }
  set (al := arm d t (fst ka) (snd ka, last_sig s)).
  set (ka' := disarm t (fst ka, fst al)).
  assert (Hka' : kw_ok (fst ka')).
  { unfold ka', disarm. destruct (_ && _ && _); simpl; [exact I | exact Hka]. }
  unfold dent. destruct (ttype t); simpl; try (split; [exact Hs | exact Hka']).
  - split; [|exact I]. destruct (snd ka'); [|exact Hs].
    destruct (fst ka') as [k|]; [|exact Hs].
    apply Forall_app. split; [exact Hs|]. constructor; [exact Hka'|constructor].
  - split; [|exact I]. apply Forall_forall. intros k Hin.
    rewrite Forall_forall in Hs. apply Hs.
    destruct (stack s) as [|x l] eqn:E; [destruct Hin|].
    destruct (exists_last (l := x :: l) ltac:(discriminate)) as (l' & a & El).
    rewrite El in *. rewrite removelast_last in Hin. apply in_or_app. now left.
Qed.

Lemma flush_ok e s : state_ok s -> state_ok (flush e s).
Proof.
  intros (H1 & H2 & H3). unfold state_ok.
  rewrite SegmenterFacts.flush_stack, SegmenterFacts.flush_kw.
  split; [|split; assumption].
  destruct (flush_statements e s) as [E|(st & E & Hc & _)]; rewrite E.
  - exact H1.
  - apply Forall_app. split; [exact H1|]. constructor; [|constructor].
    unfold context_ok. rewrite Hc. simpl. auto.
Qed.

Lemma step_ok s t : state_ok s -> state_ok (step s t).
Proof.
  intros (H1 & H2 & H3).
  assert (Ha : state_ok (advance s t)).
  { destruct (advance_keywords s t H2 H3) as [A B].
    split; [exact H1|]. split; assumption. }
  unfold step, end_statement.
  destruct (token_type_eqb (ttype t) NEWLINE && _).
  - apply (flush_ok (Some t)) in Ha. exact Ha.
  - exact Ha.
Qed.

Lemma run_ok toks : forall s, state_ok s -> state_ok (run s toks).
Proof.
  induction toks as [|t toks IH]; intros s H; [exact H|].
  rewrite SegmenterFacts.run_cons. apply IH. now apply step_ok.
Qed.

Lemma flush_count e s :
  (length (statements (flush e s)) <= S (length (statements s)))%nat.
Proof.
  destruct (flush_statements e s) as [E|(st & E & _)]; rewrite E.
  - lia.
  - rewrite length_app. simpl. lia.
Qed.

Lemma step_count s t :
  (length (statements (step s t))
   <= length (statements s)
      + (if token_type_eqb (ttype t) NEWLINE then 1 else 0))%nat.
Proof.
  assert (Ha : statements (advance s t) = statements s) by reflexivity.
  unfold step.
  change (statements (note_last_sig t (end_statement t (advance s t))))
    with (statements (end_statement t (advance s t))).
  unfold end_statement.
  destruct (token_type_eqb (ttype t) NEWLINE); cbn [andb].
  - destruct (paren_depth (advance s t) =? 0).
    + pose proof (flush_count (Some t) (advance s t)) as H.
      rewrite Ha in H. lia.
    + rewrite Ha. lia.
  - rewrite Ha. lia.
Qed.

Lemma run_count toks : forall s,
  (length (statements (run s toks)) <= length (statements s) + newlines toks)%nat.
Proof.
  unfold newlines.
  induction toks as [|t toks IH]; intros s; [simpl; lia|].
  rewrite SegmenterFacts.run_cons. specialize (IH (step s t)).
  pose proof (step_count s t) as H. simpl filter.
  destruct (token_type_eqb (ttype t) NEWLINE); simpl length in *; lia.
Qed.

Lemma placed_more c t st : placed c st -> placed (c ++ [t]) st.
Proof.
  intros (a & b & Ha & Hb & E1 & E2). exists a, b.
  repeat split; try assumption; apply in_or_app; now left.
Qed.

Lemma flush_placed c e s :
  state_placed c s -> (forall b, e = Some b -> In b c) ->
  state_placed c (flush e s).
Proof.
  intros (H1 & H2 & H3) He. unfold state_placed.
  rewrite SegmenterFacts.flush_buf.
  split; [|split; [intros ? []|intros H; now contradiction H]].
  destruct (flush_statements e s) as [E|(st & E & _ & Hs & b & Hb & Hin)];
    rewrite E; [exact H1|].
  apply Forall_app. split; [exact H1|]. constructor; [|constructor].
  assert (Hne : buf s <> []).
  { intros En. unfold flush in E. rewrite En in E. simpl in E.
    apply (f_equal (@length _)) in E. rewrite length_app in E. simpl in E. lia. }
  destruct (H3 Hne) as (a & Ha & Ea).
  exists a, b. repeat split; try assumption.
  - destruct Hin as [Hin|Hin]; [now apply H2 | now apply He].
  - now rewrite Hs.
Qed.

Lemma step_placed c s t : state_placed c s -> state_placed (c ++ [t]) (step s t).
Proof.
  intros (H1 & H2 & H3).
  assert (Ha : state_placed (c ++ [t]) (advance s t)).
  { unfold state_placed, advance. cbn [statements buf stmt_start].
    split; [|split].
    - eapply Forall_impl; [|exact H1]. intros st. apply placed_more.
    - intros x Hx. apply in_app_or in Hx. apply in_or_app.
      destruct Hx as [Hx|Hx]; [left; now apply H2 | now right].
    - intros _. destruct (buf s) as [|b0 bs] eqn:Eb.
      + exists t. split; [apply in_or_app; right; now left | reflexivity].
      + destruct (H3 ltac:(discriminate)) as (a & Ha & Ea).
        exists a. split; [apply in_or_app; now left | exact Ea]. }
  unfold step, end_statement.
  destruct (token_type_eqb (ttype t) NEWLINE && _).
  - apply (flush_placed _ (Some t)) in Ha.
    + exact Ha.
    + intros b Eb. inversion Eb; subst. apply in_or_app. right. now left.
  - exact Ha.
Qed.

Lemma run_placed toks : forall c s,
  state_placed c s -> state_placed (c ++ toks) (run s toks).
Proof.
  induction toks as [|t toks IH]; intros c s H.
  - now rewrite app_nil_r.
  - rewrite SegmenterFacts.run_cons.
    replace (c ++ t :: toks) with ((c ++ [t]) ++ toks)
      by (rewrite <- app_assoc; reflexivity).
    apply IH. now apply step_placed.
Qed.

End SegmentInvariants.

Module SegmentTheorems.
Import Tokenize TokenContext TokenShapes SegmentSpec SegmentInvariants.
Local Open Scope list_scope.

(** X11. The context of every statement that [iter_statements] returns, for
    every token stream: [in_function] says whether ["def"] is on its block
    stack, and every entry of the block stack is one of the suite keywords
    of [_KW_SUITE]. *)
Theorem contexts_are_suite_keywords (toks : list TokenInfo) :
  Forall (fun st =>
            in_function (context st)
            = PyStr.mem "def" (block_stack (context st))
            /\ Forall (fun k => In k _KW_SUITE) (block_stack (context st)))
         (segment toks).
Proof.
  unfold segment.
  assert (H : state_ok (flush None (run seg_init toks))).
  { apply flush_ok, run_ok. repeat split; constructor. }
  exact (proj1 H).
Qed.

(** X12. There are no more statements than NEWLINE tokens, but for one that
    the end of the stream can close. *)
Theorem statements_bounded_by_newlines (toks : list TokenInfo) :
  (length (segment toks) <= S (newlines toks))%nat.
Proof.
  unfold segment.
  pose proof (flush_count None (run seg_init toks)) as H1.
  pose proof (run_count toks seg_init) as H2. simpl in H2. lia.
Qed.

(** X13. Every statement starts where a token of the stream starts and ends
    where a token of the stream ends: the initial start position (1, 0) of
    the loop is never reported as such. *)
Theorem statement_positions_are_token_positions (toks : list TokenInfo) :
  Forall (fun st =>
            exists a b, In a toks /\ In b toks
                        /\ (start_line st, start_col st) = tstart a
                        /\ (end_line st, end_col st) = tend b)
         (segment toks).
Proof.
  unfold segment.
  assert (H : state_placed toks (flush None (run seg_init toks))).
  { apply flush_placed; [|discriminate].
    apply (run_placed toks [] seg_init).
    split; [constructor|]. split; [intros ? []|intros H; now contradiction H]. }
  exact (proj1 H).
Qed.

End SegmentTheorems.

Module ViewFacts.
Import Tokenize TokenContext TokenShapes SegmentSpec.
Local Open Scope list_scope.

Lemma alike_type t t' : alike t t' -> ttype t = ttype t'.
Proof. now intros [H _]. Qed.

Lemma alike_op t t' (f : string -> bool) :
  alike t t' ->
  token_type_eqb (ttype t) OP && f (tstring t)
  = token_type_eqb (ttype t') OP && f (tstring t').
Proof.
  intros [Ht Hs]. rewrite <- Ht.
  destruct (ttype t) eqn:E; try reflexivity.
  simpl. now rewrite Hs.
Qed.

Lemma alike_name t t' (f : string -> bool) :
  alike t t' ->
  token_type_eqb (ttype t) NAME && f (tstring t)
  = token_type_eqb (ttype t') NAME && f (tstring t').
Proof.
  intros [Ht Hs]. rewrite <- Ht.
  destruct (ttype t) eqn:E; try reflexivity.
  simpl. now rewrite Hs.
Qed.

Lemma alike_is_op t t' x : alike t t' -> is_op t x = is_op t' x.
Proof. intros H. exact (alike_op t t' (fun s => String.eqb s x) H). Qed.

Lemma alike_is_name t t' x : alike t t' -> is_name t x = is_name t' x.
Proof. intros H. exact (alike_name t t' (fun s => String.eqb s x) H). Qed.

Lemma alike_depth d t t' : alike t t' -> next_depth d t = next_depth d t'.
Proof.
  intros H. unfold next_depth.
  rewrite (alike_op t t' (fun s => PyStr.contains s "([{") H).
  rewrite (alike_op t t' (fun s => PyStr.contains s ")]}") H).
  reflexivity.
Qed.

Lemma alike_detect d l l' t t' ka :
  alike_opt l l' -> alike t t' ->
  detect_suite d l t ka = detect_suite d l' t' ka.
Proof.
  intros Hl Ht. unfold detect_suite.
  assert (E : (if token_type_eqb (ttype t) NAME
                  && PyStr.mem (tstring t) _KW_SUITE && (d =? 0)
               then (Some (tstring t), false) else ka)
              = (if token_type_eqb (ttype t') NAME
                    && PyStr.mem (tstring t') _KW_SUITE && (d =? 0)
                 then (Some (tstring t'), false) else ka)).
  { rewrite (alike_name t t' (fun s => PyStr.mem s _KW_SUITE) Ht).
    destruct (token_type_eqb (ttype t') NAME) eqn:E; [|reflexivity].
    destruct Ht as [Hty Hs]. rewrite Hs; [reflexivity|].
    rewrite Hty. destruct (ttype t'); try discriminate. reflexivity. }
  rewrite E.
  destruct l as [l|], l' as [l'|]; simpl in Hl; try contradiction;
    [|reflexivity].
  now rewrite (alike_is_name l l' "async" Hl), (alike_is_name t t' "def" Ht).
Qed.

Lemma alike_arm d t t' kw a l l' :
  alike t t' -> alike_opt l l' ->
  fst (arm d t kw (a, l)) = fst (arm d t' kw (a, l'))
  /\ alike_opt (snd (arm d t kw (a, l))) (snd (arm d t' kw (a, l'))).
Proof.
  intros Ht Hl. unfold arm. rewrite (alike_is_op t t' ":" Ht).
  destruct (is_op t' ":" && (d =? 0) && _); simpl; auto.
Qed.

Lemma alike_disarm t t' ka : alike t t' -> disarm t ka = disarm t' ka.
Proof.
  intros Ht. unfold disarm.
  now rewrite (alike_is_op t t' ":" Ht), (alike_type t t' Ht).
Qed.

Lemma alike_dent t t' stk ka : alike t t' -> dent t stk ka = dent t' stk ka.
Proof. intros Ht. unfold dent. now rewrite (alike_type t t' Ht). Qed.

Lemma alike_fmt t t' :
  alike t t' -> _keep_token t' = true -> _fmt_token t = _fmt_token t'.
Proof.
  intros [Ht Hs]. unfold _fmt_token, _keep_token. rewrite <- Ht.
  destruct (ttype t); try reflexivity; try discriminate;
    intros _; now rewrite Hs.
Qed.

Lemma alike_significant b b' :
  Forall2 alike b b' -> Forall2 alike (significant b) (significant b').
Proof.
  unfold significant. induction 1 as [|t t' b b' Ht Hb IH]; simpl; [constructor|].
  rewrite (alike_type t t' Ht).
  destruct (negb (is_layout (ttype t'))); [constructor|]; assumption.
Qed.

Lemma alike_fingerprint b b' :
  Forall2 alike b b' -> fingerprint b = fingerprint b'.
Proof.
  intros H. unfold fingerprint. f_equal.
  induction H as [|t t' b b' Ht Hb IH]; simpl; [reflexivity|].
  assert (Ek : _keep_token t = _keep_token t')
    by (unfold _keep_token; now rewrite (alike_type t t' Ht)).
  rewrite Ek. destruct (_keep_token t') eqn:E; [|exact IH].
  simpl. now rewrite (alike_fmt t t' Ht E), IH.
Qed.

(** What [flush] adds, as a rule sees it. *)
Lemma flush_view e s :
  map view (statements (flush e s))
  = map view (statements s)
    ++ match significant (buf s) with
       | [] => []
       | _ :: _ => [(fingerprint (significant (buf s)),
                     mkCtx (PyStr.mem "def" (stack s)) (stack s))]
       end.
Proof.
  unfold flush. destruct (significant (buf s)) as [|t0 sig].
  - simpl. now rewrite app_nil_r.
  - destruct (stmt_start s) as [sl sc].
    destruct (match e with Some e0 => tend e0 | None => _ end) as [el ec].
    cbn [statements]. rewrite map_app. reflexivity.
Qed.

Lemma flush_rest e s :
  buf (flush e s) = [] /\ paren_depth (flush e s) = paren_depth s
  /\ stack (flush e s) = stack s /\ seen_suite_kw (flush e s) = seen_suite_kw s
  /\ suite_armed (flush e s) = suite_armed s
  /\ last_sig (flush e s) = last_sig s.
Proof.
  unfold flush. destruct (significant (buf s)) as [|t0 sig]; [simpl; tauto|].
  destruct (stmt_start s) as [sl sc].
  destruct (match e with Some e0 => tend e0 | None => _ end) as [el ec].
  simpl. tauto.
Qed.

Lemma sim_flush e e' s s' : sim s s' -> sim (flush e s) (flush e' s').
Proof.
  intros (H1 & H2 & H3 & H4 & H5 & H6 & H7).
  destruct (flush_rest e s) as (A1 & A2 & A3 & A4 & A5 & A6).
  destruct (flush_rest e' s') as (B1 & B2 & B3 & B4 & B5 & B6).
  unfold sim. rewrite A1, A2, A3, A4, A5, A6, B1, B2, B3, B4, B5, B6.
  split; [|repeat split; try assumption; constructor].
  rewrite !flush_view, H1, H4.
  pose proof (alike_significant _ _ H2) as Hs.
  rewrite (alike_fingerprint _ _ Hs).
  destruct Hs; reflexivity.
Qed.

Lemma sim_advance s s' t t' :
  sim s s' -> alike t t' -> sim (advance s t) (advance s' t').
Proof.
  intros (H1 & H2 & H3 & H4 & H5 & H6 & H7) Ht.
  unfold sim, advance.
  cbn [statements buf paren_depth stack seen_suite_kw suite_armed last_sig].
  rewrite <- H3, <- H4, <- H5, <- H6.
  rewrite <- (alike_depth (paren_depth s) t t' Ht).
  set (d := next_depth (paren_depth s) t).
  rewrite <- (alike_detect d (last_sig s) (last_sig s') t t'
                (seen_suite_kw s, suite_armed s) H7 Ht).
  set (ka := detect_suite d (last_sig s) t (seen_suite_kw s, suite_armed s)).
  destruct (alike_arm d t t' (fst ka) (snd ka) (last_sig s) (last_sig s') Ht H7)
    as [Ea Hal].
  rewrite <- Ea.
  rewrite <- (alike_disarm t t' _ Ht), <- (alike_dent t t' _ _ Ht).
  split; [exact H1|]. split.
  { apply Forall2_app; [exact H2|]. constructor; [exact Ht|constructor]. }
  repeat split; try reflexivity. exact Hal.
Qed.

Lemma sim_step s s' t t' : sim s s' -> alike t t' -> sim (step s t) (step s' t').
Proof.
  intros Hs Ht. pose proof (sim_advance s s' t t' Hs Ht) as Ha.
  assert (He : sim (end_statement t (advance s t))
                   (end_statement t' (advance s' t'))).
  { unfold end_statement. rewrite <- (alike_type t t' Ht).
    destruct Ha as (A1 & A2 & A3 & A4) eqn:Ea. rewrite <- A3.
    destruct (token_type_eqb (ttype t) NEWLINE && _);
      [apply sim_flush|]; exact Ha. }
  destruct He as (E1 & E2 & E3 & E4 & E5 & E6 & E7).
  unfold step, sim, note_last_sig.
  cbn [statements buf paren_depth stack seen_suite_kw suite_armed last_sig].
  repeat split; try assumption.
  rewrite <- (alike_type t t' Ht). destruct (is_layout (ttype t)); assumption.
Qed.

Lemma sim_run toks toks' : Forall2 alike toks toks' ->
  forall s s', sim s s' -> sim (run s toks) (run s' toks').
Proof.
  induction 1 as [|t t' toks toks' Ht Hf IH]; intros s s' Hs; [exact Hs|].
  rewrite !SegmenterFacts.run_cons. apply IH. now apply sim_step.
Qed.

Lemma sim_init : sim seg_init seg_init.
Proof. repeat split; constructor. Qed.

Lemma alike_blank t : alike (blank t) t.
Proof.
  unfold alike, blank. simpl. split; [reflexivity|].
  intros H. now rewrite H.
Qed.

End ViewFacts.

Module ViewTheorems.
Import Tokenize TokenContext TokenShapes SegmentSpec.
Local Open Scope list_scope.

(** X14. What the rules are matched against depends on the types of the
    tokens and on the text of names, operators and the like, and on nothing
    else. Two token streams that agree on those -- whatever their positions,
    their string and number literals, their comments and the text of their
    layout tokens -- give the same fingerprints and contexts, statement by
    statement. *)
Theorem fingerprints_ignore_literals_and_positions
  (toks toks' : list TokenInfo) :
  Forall2 alike toks toks' ->
  map view (segment toks) = map view (segment toks').
Proof.
  intros H. unfold segment.
  pose proof (ViewFacts.sim_run toks toks' H seg_init seg_init
                ViewFacts.sim_init) as Hs.
  exact (proj1 (ViewFacts.sim_flush None None _ _ Hs)).
Qed.

Lemma fingerprints_ignore_literals_and_positions_witness :
  map view (segment (map blank EngineSamples.def_import_tokens))
  = map view (segment EngineSamples.def_import_tokens).
Proof.
  apply (fingerprints_ignore_literals_and_positions
           (map blank EngineSamples.def_import_tokens)
           EngineSamples.def_import_tokens).
  unfold EngineSamples.def_import_tokens. simpl map.
  repeat (constructor; [apply ViewFacts.alike_blank|]). constructor.
Defined.

(** X15. An indented block that was not armed takes an entry off the block
    stack. When [suite_armed] is off at an INDENT (the header was no suite
    keyword, as for [match] and [case], or the armed state was lost), nothing
    is pushed; if no further INDENT or DEDENT comes before the DEDENT that
    closes the block, that DEDENT removes the last entry of the stack as it
    was before the block: the entry of the enclosing block. *)
Theorem unarmed_block_pops_enclosing_entry
  (s : seg_state) (i d : TokenInfo) (body : list TokenInfo) :
  suite_armed s = false ->
  ttype i = INDENT -> ttype d = DEDENT ->
  forallb (fun t => negb (is_dent (ttype t))) body = true ->
  stack (run s (i :: body ++ [d])) = removelast (stack s).
Proof.
  intros Ha Hi Hd Hb.
  rewrite SegmenterFacts.run_cons, SegmenterFacts.run_app.
  change (run ?x [d]) with (step x d).
  rewrite SegmenterFacts.step_stack_advance.
  unfold advance at 1. cbn [stack]. unfold dent. rewrite Hd. cbn [fst].
  rewrite (SegmenterFacts.run_stack body (step s i) Hb).
  rewrite SegmenterFacts.step_stack_advance.
  unfold advance. cbn [stack]. unfold dent. rewrite Hi. cbn [fst].
  set (ka := disarm i _).
  assert (Hk : snd ka = false).
  { unfold ka, disarm. rewrite Hi. simpl.
    rewrite !andb_false_r. cbn [snd fst].
    unfold arm, is_op. rewrite Hi. simpl.
    unfold detect_suite, is_name. rewrite Hi. simpl.
    destruct (last_sig s) as [l|]; simpl; rewrite ?andb_false_r; exact Ha. }
  now rewrite Hk.
Qed.

Lemma unarmed_block_pops_enclosing_entry_witness :
  stack (run (run seg_init SegmentSamples.match_header)
             (SegmentSamples.match_indent
              :: SegmentSamples.match_body ++ [SegmentSamples.match_dedent]))
  = removelast (stack (run seg_init SegmentSamples.match_header)).
Proof.
  apply (unarmed_block_pops_enclosing_entry
           (run seg_init SegmentSamples.match_header)
           SegmentSamples.match_indent SegmentSamples.match_dedent
           SegmentSamples.match_body); reflexivity.
Defined.

(** On the sample: the import that follows the [match] block, still in
    the body of [f], is seen outside every function. *)
Example import_after_match_block :
  stack (run seg_init SegmentSamples.match_header) = ["def"]
  /\ map view (skipn 3 (segment SegmentSamples.match_tokens))
     = [("NAME:import NAME:os", mkCtx false []); ("", mkCtx false [])].
Proof. split; reflexivity. Qed.

End ViewTheorems.

Module CheckPathsFacts.
Import Rules Types Engine EngineSpec.
Local Open Scope list_scope.

Section WithLibraries.
Variable Pattern : Type.
Variable re_compile : string -> compile_outcome Pattern.
Variable re_search : Pattern -> string -> bool.
Variable generate_tokens : string -> option (list TokenInfo).
Variable read_text : string -> option string.

Local Abbreviation check_rule := (check_rule Pattern re_search).
Local Abbreviation compile_rules := (compile_rules Pattern re_compile).
Local Abbreviation files_loop :=
  (files_loop Pattern re_search generate_tokens read_text).
Local Abbreviation check_paths :=
  (check_paths Pattern re_compile re_search generate_tokens read_text).
Local Abbreviation file_violations :=
  (file_violations Pattern re_search generate_tokens read_text).
Local Abbreviation tokenizes := (tokenizes generate_tokens read_text).
Local Abbreviation decodable := (decodable read_text).

Lemma files_loop_all files : forall compiled acc n log,
  forallb tokenizes files = true ->
  files_loop files compiled acc n log
  = (log ++ files,
     inr (mkResults (acc ++ flat_map (file_violations compiled) files)
                    (n + Z.of_nat (length (filter decodable files))))).
Proof.
  induction files as [|fp files IH]; intros compiled acc n log H.
  - simpl. now rewrite !app_nil_r, Z.add_0_r.
  - simpl in H. apply andb_true_iff in H as [Hfp Hr].
    simpl. unfold EngineSpec.tokenizes in Hfp.
    unfold EngineSpec.file_violations at 1. unfold EngineSpec.decodable at 1.
    destruct (read_text fp) as [src|].
    + destruct (TokenContext.iter_statements generate_tokens src) as [stmts|];
        [|discriminate].
      rewrite (IH _ _ _ _ Hr), EngineFacts.check_statements_flat.
      rewrite <- !app_assoc. simpl length.
      f_equal. f_equal. f_equal. lia.
    + rewrite (IH _ _ _ _ Hr). rewrite <- app_assoc. reflexivity.
Qed.

Lemma files_loop_stops pre fp post : forall compiled acc n log,
  forallb tokenizes pre = true ->
  tokenizes fp = false ->
  files_loop (pre ++ fp :: post) compiled acc n log
  = (log ++ pre ++ [fp], inl (TokenizeError fp)).
Proof.
  induction pre as [|p pre IH]; intros compiled acc n log Hpre Hfp.
  - simpl. unfold EngineSpec.tokenizes in Hfp.
    destruct (read_text fp) as [src|]; [|discriminate].
    destruct (TokenContext.iter_statements generate_tokens src);
      [discriminate|reflexivity].
  - simpl in Hpre. apply andb_true_iff in Hpre as [Hp Hr].
    simpl. unfold EngineSpec.tokenizes in Hp.
    destruct (read_text p) as [src|].
    + destruct (TokenContext.iter_statements generate_tokens src) as [stmts|];
        [|discriminate].
      rewrite (IH _ _ _ _ Hr Hfp), <- app_assoc. reflexivity.
    + rewrite (IH _ _ _ _ Hr Hfp), <- app_assoc. reflexivity.
Qed.

(** The violations gathered so far keep their origin through the loop. *)
Lemma files_loop_origin (P : Violation -> Prop) files :
  forall compiled acc n log log' res,
  Forall P acc ->
  (forall fp st c v, In fp files -> In c compiled ->
                     In v (check_rule fp st c) -> P v) ->
  files_loop files compiled acc n log = (log', inr res) ->
  Forall P (violations res).
Proof.
  induction files as [|fp files IH]; intros compiled acc n log log' res Ha Hc H.
  - simpl in H. inversion H; subst. exact Ha.
  - simpl in H. destruct (read_text fp) as [src|].
    + destruct (TokenContext.iter_statements generate_tokens src) as [stmts|];
        [|discriminate].
      eapply IH; [| |exact H].
      * rewrite EngineFacts.check_statements_flat. apply Forall_app.
        split; [exact Ha|]. apply Forall_forall. intros v Hv.
        apply in_flat_map in Hv as (st & _ & Hv).
        apply in_flat_map in Hv as (c & Hin & Hv).
        apply (Hc fp st c v); [now left|assumption|assumption].
      * intros fp' st c v Hf. apply Hc. now right.
    + eapply IH; [exact Ha| |exact H].
      intros fp' st c v Hf. apply Hc. now right.
Qed.

Lemma check_rule_fields fp st c v :
  In v (check_rule fp st c) ->
  rule_id v = id (snd c) /\ message v = description (snd c)
  /\ Types.severity v = Rules.severity (snd c) /\ path v = fp.
Proof.
  unfold Engine.check_rule. destruct c as [[rid rx] rule].
  repeat match goal with
         | |- context [if ?b then _ else _] => destruct b
         end; simpl; intros H; try contradiction.
  destruct H as [<-|[]]. auto.
Qed.

End WithLibraries.
End CheckPathsFacts.

Module CheckPathsTheorems.
Import Rules Types Engine EngineSpec.
Local Open Scope list_scope.

Section WithLibraries.
Variable Pattern : Type.
Variable re_compile : string -> compile_outcome Pattern.
Variable re_search : Pattern -> string -> bool.
Variable generate_tokens : string -> option (list TokenInfo).
Variable read_text : string -> option string.

Local Abbreviation compile_rules := (compile_rules Pattern re_compile).
Local Abbreviation check_paths :=
  (check_paths Pattern re_compile re_search generate_tokens read_text).
Local Abbreviation file_violations :=
  (file_violations Pattern re_search generate_tokens read_text).
Local Abbreviation tokenizes := (tokenizes generate_tokens read_text).
Local Abbreviation decodable := (decodable read_text).

(** X16. The whole of [check_paths] when the patterns compile and every file
    that can be read goes through the tokenizer: every file is read, in
    order; the violations are those of the files in that order (for each
    file: statement by statement, rule by rule); and [files_checked] counts
    the files that could be read -- a file that cannot be decoded is passed
    over without a violation and without being counted. *)
Theorem check_paths_results
  (files : list string) (ruleset : RuleSet)
  (compiled : list (compiled_rule Pattern)) :
  compile_rules ruleset = inr compiled ->
  forallb tokenizes files = true ->
  check_paths files ruleset
  = (files,
     inr (mkResults (flat_map (file_violations compiled) files)
                    (Z.of_nat (length (filter decodable files))))).
Proof.
  intros Hc Hf. unfold Engine.check_paths. rewrite Hc.
  rewrite (CheckPathsFacts.files_loop_all Pattern re_search generate_tokens
             read_text files compiled [] 0 [] Hf).
  reflexivity.
Qed.

(** X17. One file that the tokenizer refuses ends [check_paths] with the
    tokenizer's exception: no result is returned for any file, also not
    for the files checked before it, and the files after it are not read. *)
Theorem tokenizer_failure_aborts_check
  (pre post : list string) (fp : string) (ruleset : RuleSet)
  (compiled : list (compiled_rule Pattern)) :
  compile_rules ruleset = inr compiled ->
  forallb tokenizes pre = true ->
  tokenizes fp = false ->
  check_paths (pre ++ fp :: post) ruleset
  = (pre ++ [fp], inl (TokenizeError fp)).
Proof.
  intros Hc Hpre Hfp. unfold Engine.check_paths. rewrite Hc.
  rewrite (CheckPathsFacts.files_loop_stops Pattern re_search generate_tokens
             read_text pre fp post compiled [] 0 [] Hpre Hfp).
  reflexivity.
Qed.

(** X18. Where a violation comes from. Every violation that [check_paths]
    returns carries the id, the description (as its message) and the
    severity of one enabled rule of the rule set, and the path of one of
    the files given: a disabled rule never gives a violation. *)
Theorem violations_come_from_enabled_rules
  (files log : list string) (ruleset : RuleSet) (res : CheckResults) :
  check_paths files ruleset = (log, inr res) ->
  Forall (fun v =>
            In (path v) files
            /\ exists r, In r (rules ruleset) /\ enabled r = true
                         /\ rule_id v = id r
                         /\ message v = description r
                         /\ Types.severity v = Rules.severity r)
         (violations res).
Proof.
  unfold Engine.check_paths.
  destruct (compile_rules ruleset) as [e|compiled] eqn:Ec; [discriminate|].
  intros H.
  destruct (EngineFacts.compile_loop_ok Pattern re_compile _ _ _ Ec
              (Forall_nil _)) as [Hm _]. simpl in Hm.
  eapply (CheckPathsFacts.files_loop_origin Pattern re_search generate_tokens
            read_text); [constructor| |exact H].
  intros fp st c v Hfp Hin Hv.
  destruct (CheckPathsFacts.check_rule_fields Pattern re_search fp st c v Hv)
    as (E1 & E2 & E3 & E4).
  split; [now rewrite E4|].
  exists (snd c). assert (Hs : In (snd c) (map snd compiled)) by now apply in_map.
  rewrite Hm in Hs. apply filter_In in Hs as [Hr He]. auto.
Qed.

End WithLibraries.
End CheckPathsTheorems.

Module CheckPathsCases.
Import Rules Types Engine EngineSpec EngineSamples.
Local Open Scope list_scope.

Lemma check_paths_results_witness :
  check_paths string sample_compile sample_search sample_tokenizer sample_read
              ["a.py"; "latin1.py"; "b.py"] (mkRuleSet 1 [PYFMT001; ANYIMPORT])
  = (["a.py"; "latin1.py"; "b.py"],
     inr (mkResults
            (flat_map (file_violations string sample_search sample_tokenizer
                         sample_read
                         [("PYFMT001", "NAME:import", PYFMT001);
                          ("ANYIMPORT", "NAME:import", ANYIMPORT)])
                      ["a.py"; "latin1.py"; "b.py"])
            (Z.of_nat (length (filter (decodable sample_read)
                                      ["a.py"; "latin1.py"; "b.py"]))))).
Proof.
  apply (CheckPathsTheorems.check_paths_results string sample_compile
           sample_search sample_tokenizer sample_read
           ["a.py"; "latin1.py"; "b.py"] (mkRuleSet 1 [PYFMT001; ANYIMPORT])
           [("PYFMT001", "NAME:import", PYFMT001);
            ("ANYIMPORT", "NAME:import", ANYIMPORT)]);
    reflexivity.
Defined.

Lemma tokenizer_failure_aborts_check_witness :
  check_paths string sample_compile sample_search sample_tokenizer
              sample_read_open ["a.py"; "c.py"; "b.py"]
              (mkRuleSet 1 [PYFMT001])
  = (["a.py"; "c.py"], inl (TokenizeError "c.py")).
Proof.
  apply (CheckPathsTheorems.tokenizer_failure_aborts_check string
           sample_compile sample_search sample_tokenizer sample_read_open
           ["a.py"] ["b.py"] "c.py" (mkRuleSet 1 [PYFMT001])
           [("PYFMT001", "NAME:import", PYFMT001)]);
    reflexivity.
Defined.

Lemma violations_come_from_enabled_rules_witness :
  Forall (fun v =>
            In (path v) ["a.py"; "b.py"]
            /\ exists r, In r [PYFMT001; ANYIMPORT] /\ enabled r = true
                         /\ rule_id v = id r
                         /\ message v = description r
                         /\ Types.severity v = Rules.severity r)
         [mkViolation "PYFMT001" "imports belong at the top of the module"
                      "a.py" 2 1 "error";
          mkViolation "ANYIMPORT" "an import" "a.py" 2 1 "info";
          mkViolation "ANYIMPORT" "an import" "b.py" 1 1 "info"].
Proof.
  apply (CheckPathsTheorems.violations_come_from_enabled_rules string
           sample_compile sample_search sample_tokenizer sample_read
           ["a.py"; "b.py"] ["a.py"; "b.py"]
           (mkRuleSet 1 [PYFMT001; ANYIMPORT])
           (mkResults
              [mkViolation "PYFMT001" "imports belong at the top of the module"
                           "a.py" 2 1 "error";
               mkViolation "ANYIMPORT" "an import" "a.py" 2 1 "info";
               mkViolation "ANYIMPORT" "an import" "b.py" 1 1 "info"] 2)).
  reflexivity.
Defined.

End CheckPathsCases.

Module FixPathsFacts.
Import Rules Fixers EngineFix RelocationSpec.
Local Open Scope list_scope.

Section WithParser.
Variable ast_parse : string -> option Ast.Module_.

Local Abbreviation fix_files := (fix_files ast_parse).
Local Abbreviation fixed_text := (fixed_text ast_parse).
Local Abbreviation touched_ok := (touched_ok ast_parse).
Local Abbreviation event_ok := (event_ok ast_parse).

Lemma fix_files_effects ruleset unsafe all files :
  forall st0 st log st' log' r,
  (forall fp, In fp files -> In fp all) ->
  touched_ok ruleset unsafe all st0 st ->
  Forall (event_ok ruleset unsafe all) log ->
  fix_files files ruleset unsafe st log = (st', log', r) ->
  touched_ok ruleset unsafe all st0 st'
  /\ Forall (event_ok ruleset unsafe all) log'.
Proof.
  induction files as [|fp files IH]; intros st0 st log st' log' r Hall Ht Hl H.
  - simpl in H. inversion H; subst. auto.
  - simpl in H.
    assert (Hall' : forall fp', In fp' files -> In fp' all)
      by (intros fp' Hin; apply Hall; now right).
    destruct (st fp) as [src|] eqn:Es; [|now apply (IH _ _ _ _ _ _ Hall' Ht Hl H)].
    destruct (apply_fixes ast_parse src ruleset unsafe) as [[|]|out] eqn:Ea.
    + apply (IH _ _ _ _ _ _ Hall' Ht) in H; [exact H|].
      apply Forall_app. split; [exact Hl|]. constructor; [|constructor].
      simpl. apply Hall. now left.
    + inversion H; subst. auto.
    + destruct (String.eqb out src) eqn:Eo; simpl in H;
        [now apply (IH _ _ _ _ _ _ Hall' Ht Hl H)|].
      apply String.eqb_neq in Eo.
      assert (Hf : fixed_text ruleset unsafe all fp out).
      { split; [apply Hall; now left|]. exists src. auto. }
      apply (IH st0) in H; [exact H|exact Hall'| |].
      * intros p. unfold write_text.
        destruct (String.eqb p fp) eqn:Ep; [|apply Ht].
        apply String.eqb_eq in Ep. subst p. right. split; [|exists out; auto].
        destruct (Ht fp) as [E|[Hn _]]; [|exact Hn].
        rewrite <- E, Es. discriminate.
      * apply Forall_app. split; [exact Hl|]. constructor; [exact Hf|constructor].
Qed.

Lemma fix_files_quiet ruleset unsafe files : forall st log,
  (forall fp src, In fp files -> st fp = Some src ->
                  apply_fixes ast_parse src ruleset unsafe = inr src) ->
  fix_files files ruleset unsafe st log = (st, log, None).
Proof.
  induction files as [|fp files IH]; intros st log H; [reflexivity|].
  simpl. destruct (st fp) as [src|] eqn:Es.
  - rewrite (H fp src (or_introl eq_refl) Es), String.eqb_refl. simpl.
    apply IH. intros fp' src' Hin. apply H. now right.
  - apply IH. intros fp' src' Hin. apply H. now right.
Qed.

End WithParser.
End FixPathsFacts.

Module FixPathsTheorems.
Import Rules Fixers EngineFix RelocationSpec.
Local Open Scope list_scope.

Section WithParser.
Variable ast_parse : string -> option Ast.Module_.

(** X19. What [fix_paths] may do to the files, whether it ends or is stopped
    by an exception. A file is left as it was, or it could be read at the
    start, is one of the files given, and now holds a text that
    [apply_fixes] returned for a text different from it; a file that cannot
    be decoded is never written. Every write and every line on [stderr] is
    for one of the files given. *)
Theorem fix_paths_writes_only_fixed_texts
  (files : list string) (ruleset : RuleSet) (unsafe : bool)
  (st st' : store) (log : list event) (r : option Fixers.exn) :
  fix_paths ast_parse files ruleset unsafe st = (st', log, r) ->
  (forall p, st' p = st p
             \/ (st p <> None
                 /\ exists out, st' p = Some out
                                /\ fixed_text ast_parse ruleset unsafe files p out))
  /\ Forall (fun e => match e with
                      | Wrote fp out =>
                          fixed_text ast_parse ruleset unsafe files fp out
                      | Skipped fp => In fp files
                      end) log.
Proof.
  intros H.
  apply (FixPathsFacts.fix_files_effects ast_parse ruleset unsafe files files
           st st [] st' log r); try assumption.
  - auto.
  - intros p. now left.
  - constructor.
Qed.

(** X20. Without an enabled rule that asks for the relocation, [fix_paths]
    writes no file, prints nothing and raises nothing -- also for files that
    do not parse. *)
Theorem fix_paths_without_relocation_rule
  (files : list string) (ruleset : RuleSet) (unsafe : bool) (st : store) :
  (forall r, In r (rules ruleset) -> is_move_rule r = false) ->
  fix_paths ast_parse files ruleset unsafe st = (st, [], None).
Proof.
  intros H. unfold fix_paths. apply FixPathsFacts.fix_files_quiet.
  intros fp src _ _. rewrite ApplyFixesFacts.apply_fixes_spec.
  unfold move_rule_dedupe.
  destruct (find is_move_rule (rules ruleset)) as [r|] eqn:E; [|reflexivity].
  apply find_some in E as [Hin Hr]. rewrite (H r Hin) in Hr. discriminate.
Qed.

(** X21. When every file that can be read parses and has no import that is
    nested in a function and under no [Try] node, [fix_paths] writes no
    file, whatever the rules. A [try] with [except*] clauses is a [TryStar]
    node, not a [Try] node: an import under it counts as under no [Try]
    node, so a file with such an import in a function is not among the
    files meant here. *)
Theorem fix_paths_on_clean_files
  (files : list string) (ruleset : RuleSet) (unsafe : bool) (st : store) :
  (forall fp src, In fp files -> st fp = Some src ->
     exists tree, ast_parse src = Some tree
                  /\ FixerSpec.nested_unguarded_imports tree = []) ->
  fix_paths ast_parse files ruleset unsafe st = (st, [], None).
Proof.
  intros H. unfold fix_paths. apply FixPathsFacts.fix_files_quiet.
  intros fp src Hin Hs. destruct (H fp src Hin Hs) as (tree & Hp & Hn).
  unfold apply_fixes. now apply (FixerFacts.fix_loop_nothing ast_parse _ _ _ tree).
Qed.

End WithParser.

Lemma fix_paths_writes_only_fixed_texts_witness :
  (forall p,
      write_text (fun p => if String.eqb p "a.py"
                           then Some FixerSamples.src_move else None)
                 "a.py" FixerSamples.out_move p
      = (fun p => if String.eqb p "a.py"
                  then Some FixerSamples.src_move else None) p
      \/ ((fun p => if String.eqb p "a.py"
                    then Some FixerSamples.src_move else None) p <> None
          /\ exists out,
               write_text (fun p => if String.eqb p "a.py"
                                    then Some FixerSamples.src_move else None)
                          "a.py" FixerSamples.out_move p = Some out
               /\ fixed_text FixerSamples.sample_parse
                             FixerSamples.relocation_rules false
                             ["a.py"; "b.py"] p out))
  /\ Forall (fun e => match e with
                      | Wrote fp out =>
                          fixed_text FixerSamples.sample_parse
                                     FixerSamples.relocation_rules false
                                     ["a.py"; "b.py"] fp out
                      | Skipped fp => In fp ["a.py"; "b.py"]
                      end)
            [Wrote "a.py" FixerSamples.out_move].
Proof.
  apply (fix_paths_writes_only_fixed_texts FixerSamples.sample_parse
           ["a.py"; "b.py"] FixerSamples.relocation_rules false
           (fun p => if String.eqb p "a.py"
                     then Some FixerSamples.src_move else None)
           _ _ None).
  reflexivity.
Defined.

Lemma fix_paths_without_relocation_rule_witness :
  fix_paths FixerSamples.sample_parse ["plain.py"; "broken.py"; "latin1.py"]
            (mkRuleSet 1 [EngineSamples.ANYIMPORT]) true sample_store
  = (sample_store, [], None).
Proof.
  apply (fix_paths_without_relocation_rule FixerSamples.sample_parse
           ["plain.py"; "broken.py"; "latin1.py"]
           (mkRuleSet 1 [EngineSamples.ANYIMPORT]) true sample_store).
  intros r [<-|[]]. reflexivity.
Defined.

Lemma fix_paths_on_clean_files_witness :
  fix_paths FixerSamples.sample_parse ["plain.py"; "latin1.py"]
            FixerSamples.relocation_rules false sample_store
  = (sample_store, [], None).
Proof.
  apply (fix_paths_on_clean_files FixerSamples.sample_parse
           ["plain.py"; "latin1.py"] FixerSamples.relocation_rules false
           sample_store).
  intros fp src [<-|[<-|[]]] Hs; vm_compute in Hs; inversion Hs; subst.
  exists FixerSamples.tree_plain. split; reflexivity.
Defined.

End FixPathsTheorems.

Module RulesLoaderFacts.
Import Rules RulesLoader.

Lemma startswith_app x b : PyStr.startswith x (x ++ b) = true.
Proof.
  induction x as [|c x IH]; simpl; [reflexivity|].
  now rewrite Ascii.eqb_refl, IH.
Qed.

Lemma startswith_app_l x s b :
  PyStr.startswith x s = true -> PyStr.startswith x (s ++ b) = true.
Proof.
  revert s. induction x as [|c x IH]; intros s H; [reflexivity|].
  destruct s as [|c' s]; simpl in *; [discriminate|].
  apply andb_true_iff in H as [H1 H2]. now rewrite H1, IH.
Qed.

Lemma contains_here x s : PyStr.startswith x s = true -> PyStr.contains x s = true.
Proof. intros H. destruct s; simpl in *; now rewrite H. Qed.

Lemma contains_app_l x s b :
  PyStr.contains x s = true -> PyStr.contains x (s ++ b) = true.
Proof.
  induction s as [|c s IH]; intros H.
  - simpl in H. rewrite orb_false_r in H.
    apply contains_here. now apply (startswith_app_l x "" b).
  - simpl in H. apply orb_true_iff in H as [H|H].
    + apply contains_here. now apply (startswith_app_l x (String c s) b).
    + change (String c s ++ b) with (String c (s ++ b)).
      simpl. rewrite (IH H). apply orb_true_r.
Qed.

Lemma contains_app_r x a s :
  PyStr.contains x s = true -> PyStr.contains x (a ++ s) = true.
Proof.
  intros H. induction a as [|c a IH]; [exact H|].
  change (String c a ++ s) with (String c (a ++ s)).
  simpl. rewrite IH. apply orb_true_r.
Qed.

Lemma contains_refl x : PyStr.contains x x = true.
Proof.
  apply contains_here. induction x as [|c x IH]; simpl; [reflexivity|].
  now rewrite Ascii.eqb_refl, IH.
Qed.

Lemma expect_names d key typ w' w e :
  PyStr.contains w w' = true ->
  _expect d key typ w' = inl e -> names_index w e.
Proof.
  intros Hw. unfold _expect, names_index.
  destruct (lookup d key) as [v|].
  - destruct (isinstance v typ); [discriminate|].
    intros H. inversion H; subst. simpl.
    apply (contains_app_r w "Key '"), (contains_app_r w key),
      (contains_app_r w "' in "), contains_app_l. exact Hw.
  - intros H. inversion H; subst. simpl.
    apply (contains_app_r w "Missing key '"), (contains_app_r w key),
      (contains_app_r w "' in "). exact Hw.
Qed.

Lemma raise_names {A} ok w b (k : exn + A) e :
  raise_unless ok (w ++ b) k = inl e -> names_index w e \/ (ok = true /\ k = inl e).
Proof.
  unfold raise_unless, names_index. destruct ok.
  - intros H. right. auto.
  - intros H. inversion H; subst. left. simpl.
    apply contains_app_l, contains_refl.
Qed.

Lemma bind_inl {A B} (x : exn + A) (k : A -> exn + B) e :
  bind x k = inl e -> x = inl e \/ exists a, x = inr a /\ k a = inl e.
Proof. destruct x as [e'|a]; simpl; intros H; [left | right; eauto]; congruence. Qed.

Lemma bind_inr {A B} (x : exn + A) (k : A -> exn + B) b :
  bind x k = inr b -> exists a, x = inr a /\ k a = inr b.
Proof. destruct x as [e'|a]; simpl; intros H; [discriminate | eauto]. Qed.

Lemma raise_inr {A} ok msg (k : exn + A) a :
  raise_unless ok msg k = inr a -> ok = true /\ k = inr a.
Proof. unfold raise_unless. destruct ok; [auto | discriminate]. Qed.

Lemma expect_inr d key typ w v :
  _expect d key typ w = inr v -> lookup d key = Some v /\ isinstance v typ = true.
Proof.
  unfold _expect. destruct (lookup d key) as [v'|]; [|discriminate].
  destruct (isinstance v' typ) eqn:E; [|discriminate].
  intros H. inversion H; subst. auto.
Qed.

Lemma load_autofix_names rr w e : load_autofix rr w = inl e -> names_index w e.
Proof.
  unfold load_autofix.
  destruct (get rr "autofix" JNull) eqn:Eg; try discriminate;
    intros H; apply raise_names in H as [H|[_ H]]; try exact H;
    apply bind_inl in H as [H|(a & _ & H)]; try discriminate;
    (eapply expect_names; [|exact H]); apply contains_app_l, contains_refl.
Qed.

(** Every exception of the loop body names the rule by its index. *)
Lemma load_rule_names i rr e :
  load_rule i rr = inl e -> names_index ("rules[" ++ str_of_nat i ++ "]") e.
Proof.
  unfold load_rule. set (w := "rules[" ++ str_of_nat i ++ "]").
  intros H.
  apply raise_names in H as [H|[_ H]]; [exact H|].
  apply bind_inl in H as [H|(rid & _ & H)];
    [eapply expect_names; [apply contains_refl|exact H]|].
  apply raise_names in H as [H|[_ H]]; [exact H|].
  apply bind_inl in H as [H|(desc & _ & H)];
    [eapply expect_names; [apply contains_refl|exact H]|].
  apply bind_inl in H as [H|(m & _ & H)];
    [eapply expect_names; [apply contains_refl|exact H]|].
  apply raise_names in H as [H|[_ H]]; [exact H|].
  apply raise_names in H as [H|[_ H]]; [exact H|].
  apply raise_names in H as [H|[_ H]]; [exact H|].
  apply bind_inl in H as [H|(re & _ & H)];
    [eapply expect_names; [apply contains_app_l, contains_refl|exact H]|].
  apply bind_inl in H as [H|(af & _ & H)]; [|discriminate].
  now apply load_autofix_names in H.
Qed.

Lemma raise_true {A} msg (k : exn + A) : raise_unless true msg k = k.
Proof. reflexivity. Qed.

Lemma bind_ret {A B} (a : A) (k : A -> exn + B) : bind (inr a) k = k a.
Proof. reflexivity. Qed.

Lemma expect_ok d key typ w v :
  lookup d key = Some v -> isinstance v typ = true ->
  _expect d key typ w = inr v.
Proof. intros L I. unfold _expect. now rewrite L, I. Qed.

Lemma load_autofix_index rr w w' af :
  load_autofix rr w = inr af -> load_autofix rr w' = inr af.
Proof.
  unfold load_autofix.
  destruct (get rr "autofix" JNull) eqn:Eg; try discriminate;
    try (intros X; exact X); intros X.
  apply raise_inr in X as [X0 X]. apply bind_inr in X as (a & X1 & X).
  apply expect_inr in X1 as [La Ia].
  rewrite X0, raise_true, (expect_ok _ _ _ _ _ La Ia), bind_ret. exact X.
Qed.

(** Whether the loop body raises does not depend on the index. *)
Lemma load_rule_index i j rr r : load_rule i rr = inr r -> load_rule j rr = inr r.
Proof.
  unfold load_rule. cbv zeta. intros H.
  apply raise_inr in H as [E0 H]. rewrite E0, raise_true.
  apply bind_inr in H as (rid & E1 & H). apply expect_inr in E1 as [L1 I1].
  rewrite (expect_ok _ _ _ _ _ L1 I1), bind_ret.
  apply raise_inr in H as [E2 H]. rewrite E2, raise_true.
  apply bind_inr in H as (desc & E3 & H). apply expect_inr in E3 as [L3 I3].
  rewrite (expect_ok _ _ _ _ _ L3 I3), bind_ret.
  apply bind_inr in H as (m & E4 & H). apply expect_inr in E4 as [L4 I4].
  rewrite (expect_ok _ _ _ _ _ L4 I4), bind_ret.
  apply raise_inr in H as [E5 H]. rewrite E5, raise_true.
  apply raise_inr in H as [E6 H]. rewrite E6, raise_true.
  apply raise_inr in H as [E7 H]. rewrite E7, raise_true.
  apply bind_inr in H as (re & E8 & H). apply expect_inr in E8 as [L8 I8].
  rewrite (expect_ok _ _ _ _ _ L8 I8), bind_ret.
  apply bind_inr in H as (af & E9 & H).
  rewrite (load_autofix_index _ _ ("rules[" ++ str_of_nat j ++ "]") _ E9),
    bind_ret.
  exact H.
Qed.

Lemma load_rule_from i rr r : load_rule i rr = inr r -> loaded_from rr r.
Proof.
  unfold load_rule. intros H.
  apply raise_inr in H as [E0 H].
  destruct rr as [| | | | | |d]; try discriminate. simpl dict_value in H.
  apply bind_inr in H as (rid & E1 & H). apply expect_inr in E1 as [L1 I1].
  apply raise_inr in H as [E2 H].
  apply bind_inr in H as (desc & E3 & H). apply expect_inr in E3 as [L3 I3].
  apply bind_inr in H as (m & E4 & H).
  apply raise_inr in H as [E5 H].
  apply raise_inr in H as [E6 H].
  apply raise_inr in H as [E7 H].
  apply bind_inr in H as (re & E8 & H).
  apply bind_inr in H as (af & E9 & H).
  inversion H; subst. exists d. simpl.
  destruct rid; try discriminate. destruct desc; try discriminate.
  split; [reflexivity|]. split; [exact L1|]. split; [exact L3|].
  split; [reflexivity|].
  unfold severity_ok in E2.
  destruct (get d "severity" (JStr "error")); try discriminate.
  simpl. apply EngineFacts.mem_In in E2. exact E2.
Qed.

Lemma load_loop_from l : forall i acc acc0 rules,
  Forall2 loaded_from acc0 acc ->
  load_loop i l acc = inr rules ->
  Forall2 loaded_from (acc0 ++ l)%list rules.
Proof.
  induction l as [|rr l IH]; intros i acc acc0 rules Ha H; simpl in H.
  - inversion H; subst. now rewrite app_nil_r.
  - destruct (load_rule i rr) as [e|r] eqn:E; [discriminate|].
    apply (IH _ _ (acc0 ++ [rr])%list) in H.
    + now rewrite <- app_assoc in H.
    + apply Forall2_app; [exact Ha|].
      constructor; [|constructor]. now apply (load_rule_from i).
Qed.

Lemma load_loop_error l : forall i acc e,
  load_loop i l acc = inl e ->
  exists k rr,
    nth_error l k = Some rr
    /\ load_rule (i + k) rr = inl e
    /\ forall j rj, (j < k)%nat -> nth_error l j = Some rj ->
                    exists r, load_rule (i + j) rj = inr r.
Proof.
  induction l as [|rr l IH]; intros i acc e H; simpl in H; [discriminate|].
  destruct (load_rule i rr) as [e'|r] eqn:E.
  - inversion H; subst. exists 0%nat, rr.
    split; [reflexivity|]. split; [now rewrite Nat.add_0_r|].
    intros j rj Hj. lia.
  - apply IH in H as (k & rk & Hk & Ek & Hbefore).
    exists (S k), rk. split; [exact Hk|].
    split; [now rewrite Nat.add_succ_r|].
    intros [|j] rj Hj Hn.
    + simpl in Hn. inversion Hn; subst. rewrite Nat.add_0_r. eauto.
    + simpl in Hn. rewrite Nat.add_succ_r. apply (Hbefore j rj); [lia|exact Hn].
Qed.

Lemma load_loop_all l : forall i acc rules,
  Forall2 (fun rr r => load_rule 0 rr = inr r) l rules ->
  load_loop i l acc = inr (acc ++ rules)%list.
Proof.
  induction l as [|rr l IH]; intros i acc rules H; inversion H; subst; simpl.
  - now rewrite app_nil_r.
  - match goal with X : load_rule 0 rr = inr _ |- _ =>
      rewrite (load_rule_index 0 i _ _ X) end.
    rewrite (IH (S i) _ l'); [|assumption]. now rewrite <- app_assoc.
Qed.

Lemma list_of_str_map l : forallb (fun x => isinstance x TStr) (map JStr l) = true.
Proof. induction l; simpl; auto. Qed.

Lemma str_value_map l : map str_value (map JStr l) = l.
Proof. induction l as [|x l IH]; simpl; [reflexivity|]. now rewrite IH. Qed.

Lemma load_rule_to_json i r :
  In (severity r) ["error"; "warning"; "info"]%list ->
  load_rule i (rule_to_json r) = inr r.
Proof.
  intros Hs. apply EngineFacts.mem_In in Hs.
  destruct r as [rid en sev desc [[inf nib] re] af].
  cbn [Rules.severity] in Hs.
  unfold load_rule, rule_to_json.
  cbn [Rules.id Rules.enabled Rules.severity Rules.description Rules.match_
       Rules.autofix Rules.context Rules.statement_token_regex
       Rules.in_function Rules.not_in_blocks].
  destruct inf as [b|]; destruct af as [[act dd]|];
    cbn -[PyStr.mem str_of_nat String.append];
    rewrite Hs; cbn -[str_of_nat String.append];
    rewrite list_of_str_map; cbn -[str_of_nat String.append];
    rewrite str_value_map; reflexivity.
Qed.

End RulesLoaderFacts.

Module RulesLoaderTheorems.
Import Rules RulesLoader.

(** X22. What a loaded rule set has of the JSON it was loaded from. The file
    is an object; its [version] is an integer or a boolean (which counts as
    1 or 0); there is one rule for each item of [rules], in order; each
    item is an object whose [id] and [description] are the rule's, the rule
    is enabled exactly when the value of [enabled] is true in the sense of
    [bool(...)] (so the string [false] enables it, and 0 or null disable
    it), and its severity is one of [error], [warning] and [info]. *)
Theorem loaded_rules_match_their_objects (raw : json) (rs : RuleSet) :
  load_rules raw = inr rs ->
  exists d v l,
    raw = JObj d
    /\ lookup d "version" = Some v /\ isinstance v TInt = true
    /\ version rs = int_value v
    /\ lookup d "rules" = Some (JList l)
    /\ Forall2 loaded_from l (rules rs).
Proof.
  unfold load_rules. cbv zeta. intros H.
  apply RulesLoaderFacts.raise_inr in H as [E0 H].
  destruct raw as [| | | | | |d]; try discriminate. simpl dict_value in H.
  apply RulesLoaderFacts.bind_inr in H as (v & E1 & H).
  apply RulesLoaderFacts.expect_inr in E1 as [L1 I1].
  apply RulesLoaderFacts.bind_inr in H as (rl & E2 & H).
  apply RulesLoaderFacts.expect_inr in E2 as [L2 I2].
  apply RulesLoaderFacts.bind_inr in H as (rules & E3 & H).
  inversion H; subst. destruct rl as [| | | | |l|]; try discriminate.
  exists d, v, l. repeat split; try assumption.
  apply (RulesLoaderFacts.load_loop_from l 0 nil nil rules); [constructor|].
  exact E3.
Qed.

(** X23. The exception for a bad rule. When the file is an object with a
    [version] and a list of [rules] and loading raises, the exception is
    the one of the first item that does not load, every item before it
    loads, and its message holds [rules[k]] with the index [k] of that
    item, counted from 0. *)
Theorem first_bad_rule_is_reported
  (d : list (string * json)) (v : json) (l : list json) (e : exn) :
  lookup d "version" = Some v -> isinstance v TInt = true ->
  lookup d "rules" = Some (JList l) ->
  load_rules (JObj d) = inl e ->
  exists k rr,
    nth_error l k = Some rr
    /\ load_rule k rr = inl e
    /\ (forall j rj, (j < k)%nat -> nth_error l j = Some rj ->
                     exists r, load_rule j rj = inr r)
    /\ PyStr.contains ("rules[" ++ str_of_nat k ++ "]") (message e) = true.
Proof.
  intros Lv Iv Lr. unfold load_rules. cbv zeta. simpl dict_value.
  rewrite RulesLoaderFacts.raise_true.
  rewrite (RulesLoaderFacts.expect_ok _ _ _ _ _ Lv Iv), RulesLoaderFacts.bind_ret.
  rewrite (RulesLoaderFacts.expect_ok d "rules" TList _ (JList l) Lr eq_refl),
    RulesLoaderFacts.bind_ret.
  simpl list_value. intros H.
  apply RulesLoaderFacts.bind_inl in H as [H|(a & _ & H)]; [|discriminate].
  apply RulesLoaderFacts.load_loop_error in H as (k & rr & Hk & Ek & Hb).
  simpl in Ek. exists k, rr. split; [exact Hk|]. split; [exact Ek|].
  split; [exact Hb|]. exact (RulesLoaderFacts.load_rule_names k rr e Ek).
Qed.

(** X24. Every rule set whose severities are among [error], [warning] and
    [info] can be written as JSON and loaded back: [load_rules] on the JSON
    object that holds every key gives the rule set again, field by field. *)
Theorem load_rules_round_trip (rs : RuleSet) :
  Forall (fun r => In (severity r) ["error"; "warning"; "info"]%list)
         (rules rs) ->
  load_rules (ruleset_to_json rs) = inr rs.
Proof.
  intros H. destruct rs as [ver rules]. cbn [Rules.rules] in H.
  unfold load_rules, ruleset_to_json. cbn -[load_loop rule_to_json].
  rewrite (RulesLoaderFacts.load_loop_all (map rule_to_json rules) 0 nil rules).
  - reflexivity.
  - induction H as [|r rules Hr Hrs IH]; simpl; constructor; [|exact IH].
    now apply RulesLoaderFacts.load_rule_to_json.
Qed.

(** X25. The defaults. A rule object without the keys [enabled], [severity]
    and [autofix], whose [match] has no [context], loads -- at any index and
    whatever other keys it holds -- as an enabled rule of severity [error],
    with no context filter and no autofix. *)
Theorem absent_keys_take_defaults
  (i : nat) (d m : list (string * json)) (rid desc re : string) :
  lookup d "id" = Some (JStr rid) ->
  lookup d "description" = Some (JStr desc) ->
  lookup d "match" = Some (JObj m) ->
  lookup m "statement_token_regex" = Some (JStr re) ->
  lookup d "enabled" = None -> lookup d "severity" = None ->
  lookup d "autofix" = None -> lookup m "context" = None ->
  load_rule i (JObj d)
  = inr (mkRule rid true "error" desc
                (mkMatchSpec (mkMatchContext None nil) re) None).
Proof.
  intros Lid Ldesc Lm Lre Len Lsev Laf Lctx.
  unfold load_rule, load_autofix, get. cbv zeta.
  cbn [dict_value isinstance].
  rewrite Len, Lsev, Laf.
  rewrite RulesLoaderFacts.raise_true.
  rewrite (RulesLoaderFacts.expect_ok d "id" TStr _ _ Lid eq_refl),
    RulesLoaderFacts.bind_ret.
  change (severity_ok (JStr "error")) with true.
  rewrite RulesLoaderFacts.raise_true.
  rewrite (RulesLoaderFacts.expect_ok d "description" TStr _ _ Ldesc eq_refl),
    RulesLoaderFacts.bind_ret.
  rewrite (RulesLoaderFacts.expect_ok d "match" TDict _ _ Lm eq_refl),
    RulesLoaderFacts.bind_ret.
  cbn [dict_value]. rewrite Lctx. cbn [dict_value isinstance lookup].
  change (list_of_str (JList nil)) with true.
  rewrite !RulesLoaderFacts.raise_true.
  rewrite (RulesLoaderFacts.expect_ok m "statement_token_regex" TStr _ _ Lre
             eq_refl), RulesLoaderFacts.bind_ret.
  reflexivity.
Qed.

Lemma absent_keys_take_defaults_witness :
  load_rule 3 (JObj [("note", JStr "kept for later");
                     ("id", JStr "R1"); ("description", JStr "a rule");
                     ("match", JObj [("statement_token_regex",
                                      JStr "NAME:import")])]%list)
  = inr (mkRule "R1" true "error" "a rule"
                (mkMatchSpec (mkMatchContext None nil) "NAME:import") None).
Proof.
  apply (absent_keys_take_defaults 3
           [("note", JStr "kept for later");
            ("id", JStr "R1"); ("description", JStr "a rule");
            ("match", JObj [("statement_token_regex", JStr "NAME:import")])]%list
           [("statement_token_regex", JStr "NAME:import")]%list
           "R1" "a rule" "NAME:import"); reflexivity.
Defined.

Lemma loaded_rules_match_their_objects_witness :
  exists d v l,
    JObj [("version", JBool true);
          ("rules",
           JList [JObj [("id", JStr "R1"); ("enabled", JStr "false");
                        ("description", JStr "a rule");
                        ("match", JObj [("statement_token_regex",
                                         JStr "NAME:import")])]])]%list
    = JObj d
    /\ lookup d "version" = Some v /\ isinstance v TInt = true
    /\ version (mkRuleSet 1
                  [mkRule "R1" true "error" "a rule"
                          (mkMatchSpec (mkMatchContext None nil) "NAME:import")
                          None]%list)
       = int_value v
    /\ lookup d "rules" = Some (JList l)
    /\ Forall2 loaded_from l
               (rules (mkRuleSet 1
                         [mkRule "R1" true "error" "a rule"
                                 (mkMatchSpec (mkMatchContext None nil)
                                              "NAME:import")
                                 None]%list)).
Proof.
  apply (loaded_rules_match_their_objects
           (JObj [("version", JBool true);
                  ("rules",
                   JList [JObj [("id", JStr "R1"); ("enabled", JStr "false");
                                ("description", JStr "a rule");
                                ("match", JObj [("statement_token_regex",
                                                 JStr "NAME:import")])]])]%list)).
  reflexivity.
Defined.

Lemma first_bad_rule_is_reported_witness :
  exists k rr,
    nth_error [minimal_rule "R1" "first" "NAME:import";
               JObj [("id", JStr "R2")]]%list k = Some rr
    /\ load_rule k rr
       = inl (RulesFormatError "Missing key 'description' in rules[1]")
    /\ (forall j rj, (j < k)%nat ->
          nth_error [minimal_rule "R1" "first" "NAME:import";
                     JObj [("id", JStr "R2")]]%list j = Some rj ->
          exists r, load_rule j rj = inr r)
    /\ PyStr.contains ("rules[" ++ str_of_nat k ++ "]")
         (message (RulesFormatError "Missing key 'description' in rules[1]"))
       = true.
Proof.
  apply (first_bad_rule_is_reported
           [("version", JInt 1);
            ("rules", JList [minimal_rule "R1" "first" "NAME:import";
                             JObj [("id", JStr "R2")]])]%list
           (JInt 1)
           [minimal_rule "R1" "first" "NAME:import";
            JObj [("id", JStr "R2")]]%list
           (RulesFormatError "Missing key 'description' in rules[1]"));
    reflexivity.
Defined.

Lemma load_rules_round_trip_witness :
  load_rules (ruleset_to_json
                (mkRuleSet 1 [EngineSamples.PYFMT001;
                              EngineSamples.ANYIMPORT]%list))
  = inr (mkRuleSet 1 [EngineSamples.PYFMT001; EngineSamples.ANYIMPORT]%list).
Proof.
  apply (load_rules_round_trip
           (mkRuleSet 1 [EngineSamples.PYFMT001;
                         EngineSamples.ANYIMPORT]%list)).
  repeat constructor; simpl; tauto.
Defined.

End RulesLoaderTheorems.

Module CliFacts.
Import Cli.

Lemma rstrip_by_cons p c s :
  PyStr.rstrip_by p (String c s)
  = match PyStr.rstrip_by p s with
    | EmptyString => if p c then EmptyString else String c EmptyString
    | String c' r => String c (String c' r)
    end.
Proof. simpl. destruct (PyStr.rstrip_by p s); reflexivity. Qed.

Lemma rstrip_by_idem p s : PyStr.rstrip_by p (PyStr.rstrip_by p s) = PyStr.rstrip_by p s.
Proof.
  induction s as [|c s IH]; [reflexivity|].
  rewrite rstrip_by_cons. destruct (PyStr.rstrip_by p s) as [|c' r] eqn:E.
  - destruct (p c) eqn:Ep; [reflexivity|].
    rewrite rstrip_by_cons. simpl. now rewrite Ep.
  - rewrite rstrip_by_cons, IH. reflexivity.
Qed.

Lemma rstrip_by_head p c s :
  p c = false -> exists r, PyStr.rstrip_by p (String c s) = String c r.
Proof.
  intros Hc. rewrite rstrip_by_cons.
  destruct (PyStr.rstrip_by p s); [rewrite Hc|]; eauto.
Qed.

Lemma lstrip_head s :
  PyStr.lstrip s = "" \/ exists c r, PyStr.lstrip s = String c r
                                     /\ PyStr.isspace c = false.
Proof.
  induction s as [|c s IH]; [now left|].
  simpl. destruct (PyStr.isspace c) eqn:E; [exact IH|]. right. eauto.
Qed.

Lemma lstrip_nonspace c r :
  PyStr.isspace c = false -> PyStr.lstrip (String c r) = String c r.
Proof. intros H. simpl. now rewrite H. Qed.

Lemma strip_head s :
  PyStr.strip s = "" \/ exists c r, PyStr.strip s = String c r
                                    /\ PyStr.isspace c = false.
Proof.
  unfold PyStr.strip. destruct (lstrip_head s) as [E|(c & r & E & Hc)].
  - rewrite E. now left.
  - rewrite E. destruct (rstrip_by_head PyStr.isspace c r Hc) as [r' E'].
    right. eauto.
Qed.

Lemma strip_idem s : PyStr.strip (PyStr.strip s) = PyStr.strip s.
Proof.
  destruct (strip_head s) as [E|(c & r & E & Hc)].
  - rewrite E. reflexivity.
  - unfold PyStr.strip at 1. rewrite E, (lstrip_nonspace c r Hc), <- E.
    unfold PyStr.strip. apply rstrip_by_idem.
Qed.

Lemma strip_dot s :
  PyStr.strip s <> "" -> PyStr.strip ("." ++ PyStr.strip s) = "." ++ PyStr.strip s.
Proof.
  intros Hne. unfold PyStr.strip at 1.
  change ("." ++ PyStr.strip s) with (String "."%char (PyStr.strip s)).
  rewrite lstrip_nonspace by reflexivity.
  rewrite rstrip_by_cons.
  assert (E : PyStr.rstrip_by PyStr.isspace (PyStr.strip s) = PyStr.strip s)
    by (unfold PyStr.strip; apply rstrip_by_idem).
  rewrite E. destruct (PyStr.strip s); [contradiction|reflexivity].
Qed.

End CliFacts.

Module CliTheorems.
Import Cli.

(** X26. The extensions as [main] hands them to the engine, whatever is
    given for [--extensions]: every one starts with a dot and has no white
    space around it, and there is one for each piece between commas that is
    not blank -- blank pieces are dropped, so the tuple can be empty. *)
Theorem extensions_start_with_a_dot (extensions : string) :
  Forall (fun e => PyStr.startswith "." e = true /\ PyStr.strip e = e)
         (parse_extensions extensions)
  /\ length (parse_extensions extensions)
     = length (filter (fun e => negb (String.eqb (PyStr.strip e) ""))
                      (split_comma extensions)).
Proof.
  unfold parse_extensions. split; [|apply length_map].
  apply Forall_forall. intros e He.
  apply in_map_iff in He as (x & <- & Hx).
  apply filter_In in Hx as [_ Hx]. apply negb_true_iff in Hx.
  apply String.eqb_neq in Hx. unfold normalize_ext.
  destruct (PyStr.startswith "." (PyStr.strip x)) eqn:E.
  - split; [exact E | apply CliFacts.strip_idem].
  - split; [reflexivity | now apply CliFacts.strip_dot].
Qed.

End CliTheorems.

From Stdlib Require Import Permutation.

Module CliOutputFacts.
Import Types CliOutput.
Local Open Scope list_scope.

Section Sorting.
Context {A : Type} (le : A -> A -> bool).

Lemma insert_sorted_perm x l : Permutation (insert_sorted le x l) (x :: l).
Proof.
  induction l as [|y r IH]; simpl; [apply Permutation_refl|].
  destruct (le x y); [apply Permutation_refl|].
  apply perm_trans with (y :: x :: r); [now apply perm_skip | apply perm_swap].
Qed.

Lemma sorted_perm l : Permutation (sorted le l) l.
Proof.
  induction l as [|x l IH]; simpl; [apply perm_nil|].
  apply perm_trans with (x :: sorted le l);
    [apply insert_sorted_perm | now apply perm_skip].
Qed.

Hypothesis Hle : total_preorder le.

Lemma insert_sorted_ascending x l :
  ascending le l -> ascending le (insert_sorted le x l).
Proof.
  destruct Hle as [Htot Htr].
  induction l as [|y r IH]; simpl; intros H; [split; [constructor|exact I]|].
  destruct H as [Hy Hr]. destruct (le x y) eqn:E; simpl.
  - split; [|split; assumption]. constructor; [exact E|].
    eapply Forall_impl; [|exact Hy]. intros z Hz. now apply (Htr x y z).
  - split; [|now apply IH].
    assert (Hyx : le y x = true) by (destruct (Htot x y); congruence).
    apply Forall_forall. intros z Hz.
    apply (Permutation_in _ (insert_sorted_perm x r)) in Hz.
    destruct Hz as [<-|Hz]; [exact Hyx|].
    rewrite Forall_forall in Hy. now apply Hy.
Qed.

Lemma sorted_ascending l : ascending le (sorted le l).
Proof.
  induction l as [|x l IH]; simpl; [exact I|]. now apply insert_sorted_ascending.
Qed.

End Sorting.

Lemma total_preorder_on {A K} (le : K -> K -> bool) (key : A -> K) :
  total_preorder le -> total_preorder (fun a b => le (key a) (key b)).
Proof.
  intros [Htot Htr]. split.
  - intros x y. apply Htot.
  - intros x y z. apply Htr.
Qed.

Lemma str_leb_total a : forall b, str_leb a b = true \/ str_leb b a = true.
Proof.
  induction a as [|x a IH]; intros b; [now left|].
  destruct b as [|y b]; [now right|]. simpl.
  destruct (nat_of_ascii x <? nat_of_ascii y)%nat eqn:E1; [now left|].
  destruct (nat_of_ascii y <? nat_of_ascii x)%nat eqn:E2; [now right|].
  apply Nat.ltb_ge in E1, E2.
  assert (E : nat_of_ascii x = nat_of_ascii y) by lia.
  rewrite E, Nat.eqb_refl. apply IH.
Qed.

Lemma str_leb_trans a : forall b c,
  str_leb a b = true -> str_leb b c = true -> str_leb a c = true.
Proof.
  induction a as [|x a IH]; intros b c H1 H2; [reflexivity|].
  destruct b as [|y b]; [discriminate|].
  destruct c as [|z c]; [discriminate|]. simpl in *.
  destruct (nat_of_ascii x <? nat_of_ascii y)%nat eqn:Exy.
  - apply Nat.ltb_lt in Exy.
    destruct (nat_of_ascii y <? nat_of_ascii z)%nat eqn:Eyz.
    + apply Nat.ltb_lt in Eyz.
      replace (nat_of_ascii x <? nat_of_ascii z)%nat with true
        by (symmetry; apply Nat.ltb_lt; lia). reflexivity.
    + destruct (nat_of_ascii y =? nat_of_ascii z)%nat eqn:Eq; [|discriminate].
      apply Nat.eqb_eq in Eq. rewrite <- Eq.
      replace (nat_of_ascii x <? nat_of_ascii y)%nat with true
        by (symmetry; apply Nat.ltb_lt; lia). reflexivity.
  - destruct (nat_of_ascii x =? nat_of_ascii y)%nat eqn:Eq; [|discriminate].
    apply Nat.eqb_eq in Eq. rewrite Eq.
    destruct (nat_of_ascii y <? nat_of_ascii z)%nat; [reflexivity|].
    destruct (nat_of_ascii y =? nat_of_ascii z)%nat; [|discriminate].
    now apply (IH b c).
Qed.

Lemma str_leb_order : total_preorder str_leb.
Proof. split; [apply str_leb_total | apply str_leb_trans]. Qed.

Lemma Z_leb_order : total_preorder Z.leb.
Proof.
  split.
  - intros x y. destruct (Z.leb_spec x y); [now left|].
    right. apply Z.leb_le. lia.
  - intros x y z H1 H2. apply Z.leb_le in H1, H2. apply Z.leb_le. lia.
Qed.

Lemma lex_leb_order {A B} (leA : A -> A -> bool) (leB : B -> B -> bool) :
  total_preorder leA -> total_preorder leB ->
  total_preorder (lex_leb leA leB).
Proof.
  intros [TA RA] [TB RB]. split.
  - intros [a1 b1] [a2 b2]. unfold lex_leb. simpl.
    destruct (leA a1 a2) eqn:E1, (leA a2 a1) eqn:E2; simpl; auto.
    destruct (TA a1 a2); congruence.
  - intros [a1 b1] [a2 b2] [a3 b3]. unfold lex_leb. simpl.
    destruct (leA a1 a2) eqn:E12, (leA a2 a1) eqn:E21; simpl;
      destruct (leA a2 a3) eqn:E23, (leA a3 a2) eqn:E32; simpl;
        intros H1 H2; try discriminate.
    + rewrite (RA _ _ _ E12 E23), (RA _ _ _ E32 E21). simpl. now apply (RB b1 b2 b3).
    + rewrite (RA _ _ _ E12 E23). simpl.
      destruct (leA a3 a1) eqn:E31; [|reflexivity].
      rewrite (RA _ _ _ E31 E12) in E32. discriminate.
    + rewrite (RA _ _ _ E12 E23). simpl.
      destruct (leA a3 a1) eqn:E31; [|reflexivity].
      rewrite (RA _ _ _ E23 E31) in E21. discriminate.
    + rewrite (RA _ _ _ E12 E23). simpl.
      destruct (leA a3 a1) eqn:E31; [|reflexivity].
      rewrite (RA _ _ _ E31 E12) in E32. discriminate.
Qed.

Lemma leb_str_line_col_order : total_preorder leb_str_line_col.
Proof.
  apply lex_leb_order; [apply str_leb_order|].
  apply lex_leb_order; apply Z_leb_order.
Qed.

Lemma leb_line_col_order : total_preorder leb_line_col.
Proof. apply lex_leb_order; apply Z_leb_order. Qed.

Lemma sorted_on_perm {A K} (le : K -> K -> bool) (key : A -> K) l :
  Permutation (sorted_on le key l) l.
Proof. apply sorted_perm. Qed.

Lemma sorted_on_ascending {A K} (le : K -> K -> bool) (key : A -> K) l :
  total_preorder le ->
  ascending (fun a b => le (key a) (key b)) (sorted_on le key l).
Proof. intros H. apply sorted_ascending. now apply total_preorder_on. Qed.

(** Grouping. *)
Lemma dict_get_setdefault d k v k' :
  dict_get (setdefault_append d k v) k'
  = dict_get d k' ++ (if String.eqb k k' then [v] else []).
Proof.
  induction d as [|[k0 l] d IH]; simpl.
  - destruct (String.eqb k k'); reflexivity.
  - destruct (String.eqb k0 k) eqn:E0; simpl.
    + apply String.eqb_eq in E0. subst k0.
      destruct (String.eqb k k'); [reflexivity | now rewrite app_nil_r].
    + destruct (String.eqb k0 k') eqn:E1; [|exact IH].
      apply String.eqb_eq in E1. subst k0. rewrite String.eqb_sym, E0.
      now rewrite app_nil_r.
Qed.

Lemma keys_setdefault d k v :
  map fst (setdefault_append d k v)
  = if PyStr.mem k (map fst d) then map fst d else map fst d ++ [k].
Proof.
  induction d as [|[k0 l] d IH]; [reflexivity|].
  cbn [setdefault_append map fst].
  change (PyStr.mem k (k0 :: map fst d))
    with (String.eqb k k0 || PyStr.mem k (map fst d)).
  rewrite (String.eqb_sym k k0).
  destruct (String.eqb k0 k) eqn:E0; cbn [orb map fst]; [reflexivity|].
  rewrite IH. destruct (PyStr.mem k (map fst d)); reflexivity.
Qed.

Lemma with_key_app key k a b :
  with_key key k (a ++ b) = with_key key k a ++ with_key key k b.
Proof. unfold with_key. apply filter_app. Qed.

Lemma grouped_step key vs d v :
  grouped key vs d ->
  grouped key (vs ++ [v]) (setdefault_append d (key v) v).
Proof.
  intros (Hnd & Hk & Hg). unfold grouped.
  rewrite keys_setdefault. split; [|split].
  - destruct (PyStr.mem (key v) (map fst d)) eqn:E; [exact Hnd|].
    apply NoDup_app; [exact Hnd|constructor; [intros []|constructor]|].
    intros k Hin [<-|[]]. apply EngineFacts.mem_In in Hin. congruence.
  - intros k. rewrite map_app, in_app_iff. simpl.
    destruct (PyStr.mem (key v) (map fst d)) eqn:E.
    + apply EngineFacts.mem_In in E. rewrite Hk. split; [tauto|].
      intros [H|[<-|[]]]; [exact H|]. now apply Hk.
    + rewrite in_app_iff, Hk. simpl. tauto.
  - intros k. rewrite dict_get_setdefault, Hg, with_key_app. reflexivity.
Qed.

Lemma group_by_from key vios : forall pre d,
  grouped key pre d ->
  grouped key (pre ++ vios)
          (fold_left (fun d v => setdefault_append d (key v) v) vios d).
Proof.
  induction vios as [|v vios IH]; intros pre d H; simpl.
  - now rewrite app_nil_r.
  - replace (pre ++ v :: vios) with ((pre ++ [v]) ++ vios)
      by (rewrite <- app_assoc; reflexivity).
    apply IH. now apply grouped_step.
Qed.

Lemma group_by_grouped key vios : grouped key vios (group_by key vios).
Proof.
  apply (group_by_from key vios [] []).
  split; [constructor|]. split; [intros k; simpl; tauto|]. reflexivity.
Qed.

(** The keys, sorted. *)
Lemma sorted_keys_spec key vios :
  let keys := sorted_keys (group_by key vios) in
  ascending str_leb keys /\ NoDup keys
  /\ forall k, In k keys <-> In k (map key vios).
Proof.
  destruct (group_by_grouped key vios) as (Hnd & Hk & _).
  unfold sorted_keys. split; [apply sorted_ascending, str_leb_order|].
  split.
  - eapply Permutation_NoDup; [|exact Hnd].
    apply Permutation_sym, sorted_perm.
  - intros k. rewrite <- Hk. split; apply Permutation_in;
      [apply sorted_perm | apply Permutation_sym, sorted_perm].
Qed.

Lemma with_key_not_nil key k vios :
  In k (map key vios) -> with_key key k vios <> [].
Proof.
  intros H E. apply in_map_iff in H as (v & <- & Hv).
  assert (Hin : In v (with_key key (key v) vios))
    by (apply filter_In; split; [exact Hv | apply String.eqb_refl]).
  rewrite E in Hin. destruct Hin.
Qed.

Lemma with_key_all key k vios :
  Forall (fun v => key v = k) (with_key key k vios).
Proof.
  apply Forall_forall. intros v Hv. apply filter_In in Hv as [_ Hv].
  now apply String.eqb_eq.
Qed.

Lemma flat_map_map_ext {A B C} (f : A -> list C) (g : B -> list C)
      (h : A -> B) l :
  (forall a, In a l -> f a = g (h a)) ->
  flat_map f l = flat_map g (map h l).
Proof.
  induction l as [|a l IH]; intros H; simpl; [reflexivity|].
  rewrite (H a (or_introl eq_refl)), IH; [reflexivity|].
  intros b Hb. apply H. now right.
Qed.

End CliOutputFacts.

Module CliOutputTheorems.
Import Types CliOutput.
Local Open Scope list_scope.

(** X27. The output grouped by rule. It is made of sections, one for each
    rule id that occurs, the ids ascending and distinct. A section is a
    header followed by one line for each violation of that id -- each
    violation of the id once, none of another id -- ascending in (path,
    line, col). The severity and the message of the header are those of the
    first violation of that id in the order given, whatever the others
    carry. *)
Theorem print_grouped_by_rule (vios : list Violation) :
  exists sections : list rule_section,
    _print_grouped vios "rule"
    = flat_map (fun s => rule_header (sec_rule s) (sec_first s)
                         :: map rule_line (sec_listed s)) sections
    /\ ascending str_leb (map sec_rule sections)
    /\ NoDup (map sec_rule sections)
    /\ (forall k, In k (map sec_rule sections) <-> In k (map rule_id vios))
    /\ Forall (fun s =>
                 hd_error (with_key rule_id (sec_rule s) vios)
                 = Some (sec_first s)
                 /\ Permutation (sec_listed s)
                                (with_key rule_id (sec_rule s) vios)
                 /\ ascending (fun a b => leb_str_line_col
                                            (key_path_line_col a)
                                            (key_path_line_col b))
                              (sec_listed s))
              sections.
Proof.
  destruct (CliOutputFacts.group_by_grouped rule_id vios) as (_ & _ & Hg).
  destruct (CliOutputFacts.sorted_keys_spec rule_id vios) as (Ha & Hn & Hk).
  cbv zeta in Ha, Hn, Hk.
  set (keys := sorted_keys (group_by rule_id vios)) in *.
  set (dummy := mkViolation "" "" "" 0 0 "").
  set (sec := fun rid =>
                mkRuleSection rid
                  (hd dummy (with_key rule_id rid vios))
                  (sorted_on leb_str_line_col key_path_line_col
                             (with_key rule_id rid vios))).
  assert (Hmap : map sec_rule (map sec keys) = keys).
  { rewrite map_map. simpl. apply map_id. }
  exists (map sec keys). rewrite Hmap.
  split; [|split; [exact Ha|split; [exact Hn|split; [exact Hk|]]]].
  - assert (E : _print_grouped vios "rule"
                = flat_map (fun rid => print_rule "rule" rid
                                         (dict_get (group_by rule_id vios) rid))
                           keys).
    { destruct vios as [|v vios']; [reflexivity|]. reflexivity. }
    rewrite E. apply CliOutputFacts.flat_map_map_ext.
    intros rid Hin. rewrite Hg. unfold print_rule, sec. simpl.
    apply Hk in Hin. apply CliOutputFacts.with_key_not_nil in Hin.
    destruct (with_key rule_id rid vios) as [|v0 rv]; [contradiction|].
    reflexivity.
  - apply Forall_forall. intros s Hs. apply in_map_iff in Hs as (rid & <- & Hin).
    unfold sec. simpl. split; [|split].
    + apply Hk in Hin. apply CliOutputFacts.with_key_not_nil in Hin.
      destruct (with_key rule_id rid vios); [contradiction|reflexivity].
    + apply CliOutputFacts.sorted_on_perm.
    + apply CliOutputFacts.sorted_on_ascending,
        CliOutputFacts.leb_str_line_col_order.
Qed.

(** X28. The output grouped by file. One section for each path that
    occurs, the paths ascending and distinct; a section is the path followed
    by one line for each violation of that path -- each once, none of
    another path -- ascending in (rule id, line, col). *)
Theorem print_grouped_by_file (vios : list Violation) :
  exists sections : list file_section,
    _print_grouped vios "file"
    = flat_map (fun s => file_header (sec_path s)
                         :: map file_line (sec_lines s)) sections
    /\ ascending str_leb (map sec_path sections)
    /\ NoDup (map sec_path sections)
    /\ (forall p, In p (map sec_path sections) <-> In p (map path vios))
    /\ Forall (fun s =>
                 Permutation (sec_lines s) (with_key path (sec_path s) vios)
                 /\ ascending (fun a b => leb_str_line_col
                                            (key_rule_line_col a)
                                            (key_rule_line_col b))
                              (sec_lines s))
              sections.
Proof.
  destruct (CliOutputFacts.group_by_grouped path vios) as (_ & _ & Hg).
  destruct (CliOutputFacts.sorted_keys_spec path vios) as (Ha & Hn & Hk).
  cbv zeta in Ha, Hn, Hk.
  set (keys := sorted_keys (group_by path vios)) in *.
  set (sec := fun p =>
                mkFileSection p
                  (sorted_on leb_str_line_col key_rule_line_col
                             (with_key path p vios))).
  assert (Hmap : map sec_path (map sec keys) = keys).
  { rewrite map_map. simpl. apply map_id. }
  exists (map sec keys). rewrite Hmap.
  split; [|split; [exact Ha|split; [exact Hn|split; [exact Hk|]]]].
  - assert (E : _print_grouped vios "file" = print_by_file vios).
    { destruct vios as [|v vios']; reflexivity. }
    rewrite E. unfold print_by_file. fold keys.
    apply CliOutputFacts.flat_map_map_ext.
    intros p Hin. rewrite Hg. reflexivity.
  - apply Forall_forall. intros s Hs. apply in_map_iff in Hs as (p & <- & Hin).
    unfold sec. simpl. split.
    + apply CliOutputFacts.sorted_on_perm.
    + apply CliOutputFacts.sorted_on_ascending,
        CliOutputFacts.leb_str_line_col_order.
Qed.

(** X29. The output grouped by rule and file (any [group] other than
    [file] and [rule]). One section for each rule id, ascending and
    distinct, with the header of the first violation of that id; under it
    one line for each path among the violations of that id, the paths
    ascending and distinct; the line gives the number of violations of that
    rule and path and their locations -- each violation once -- ascending
    in (line, col). *)
Theorem print_grouped_by_rule_and_file (vios : list Violation) :
  exists sections : list rule_file_section,
    _print_grouped vios "rule,file"
    = flat_map (fun s =>
                  rule_header (rf_rule s) (rf_first s)
                  :: map (fun f => rule_file_line (sec_path f) (sec_lines f))
                         (rf_files s)) sections
    /\ ascending str_leb (map rf_rule sections)
    /\ NoDup (map rf_rule sections)
    /\ (forall k, In k (map rf_rule sections) <-> In k (map rule_id vios))
    /\ Forall (fun s =>
                 let rv := with_key rule_id (rf_rule s) vios in
                 hd_error rv = Some (rf_first s)
                 /\ ascending str_leb (map sec_path (rf_files s))
                 /\ NoDup (map sec_path (rf_files s))
                 /\ (forall p, In p (map sec_path (rf_files s))
                               <-> In p (map path rv))
                 /\ Forall (fun f =>
                              Permutation (sec_lines f)
                                          (with_key path (sec_path f) rv)
                              /\ ascending (fun a b => leb_line_col
                                                         (key_line_col a)
                                                         (key_line_col b))
                                           (sec_lines f))
                           (rf_files s))
              sections.
Proof.
  destruct (CliOutputFacts.group_by_grouped rule_id vios) as (_ & _ & Hg).
  destruct (CliOutputFacts.sorted_keys_spec rule_id vios) as (Ha & Hn & Hk).
  cbv zeta in Ha, Hn, Hk.
  set (keys := sorted_keys (group_by rule_id vios)) in *.
  set (dummy := mkViolation "" "" "" 0 0 "").
  set (fsec := fun rv p =>
                 mkFileSection p
                   (sorted_on leb_line_col key_line_col (with_key path p rv))).
  set (sec := fun rid =>
                let rv := with_key rule_id rid vios in
                mkRuleFileSection rid (hd dummy rv)
                  (map (fsec rv) (sorted_keys (group_by path rv)))).
  assert (Hmap : map rf_rule (map sec keys) = keys).
  { rewrite map_map. simpl. apply map_id. }
  exists (map sec keys). rewrite Hmap.
  split; [|split; [exact Ha|split; [exact Hn|split; [exact Hk|]]]].
  - assert (E : _print_grouped vios "rule,file"
                = flat_map (fun rid => print_rule "rule,file" rid
                                         (dict_get (group_by rule_id vios) rid))
                           keys).
    { destruct vios as [|v vios']; reflexivity. }
    rewrite E. apply CliOutputFacts.flat_map_map_ext.
    intros rid Hin. rewrite Hg. unfold print_rule, sec. cbv zeta.
    cbn [rf_rule rf_first rf_files].
    apply Hk in Hin. apply CliOutputFacts.with_key_not_nil in Hin.
    set (rv := with_key rule_id rid vios) in *.
    destruct (CliOutputFacts.group_by_grouped path rv) as (_ & _ & Hg').
    destruct rv as [|v0 rv'] eqn:Erv; [contradiction|].
    change (String.eqb "rule,file" "rule") with false. cbv iota.
    cbn [hd]. f_equal. rewrite map_map. apply map_ext.
    intros p. unfold fsec. cbn [sec_path sec_lines]. now rewrite Hg'.
  - apply Forall_forall. intros s Hs. apply in_map_iff in Hs as (rid & <- & Hin).
    unfold sec. cbv zeta. cbn [rf_rule rf_first rf_files].
    set (rv := with_key rule_id rid vios).
    destruct (CliOutputFacts.sorted_keys_spec path rv) as (Ha' & Hn' & Hk').
    cbv zeta in Ha', Hn', Hk'.
    assert (Hmap' : map sec_path (map (fsec rv) (sorted_keys (group_by path rv)))
                    = sorted_keys (group_by path rv)).
    { rewrite map_map. simpl. apply map_id. }
    rewrite Hmap'.
    split; [|split; [exact Ha'|split; [exact Hn'|split; [exact Hk'|]]]].
    + apply Hk in Hin. apply CliOutputFacts.with_key_not_nil in Hin.
      fold rv in Hin. destruct rv; [contradiction|reflexivity].
    + apply Forall_forall. intros f Hf.
      apply in_map_iff in Hf as (p & <- & Hp). unfold fsec. simpl. split.
      * apply CliOutputFacts.sorted_on_perm.
      * apply CliOutputFacts.sorted_on_ascending,
          CliOutputFacts.leb_line_col_order.
Qed.

End CliOutputTheorems.
